(** * SteamCMD downloader: session lifecycle and progress tracking

    A shallow embedding of [src/app.py] (class [SteamCMDDownloader] and
    the functions of the control surface) and proofs about its identifier
    resolution, progress parser, monitor loop, cancellation and status
    report, and about login, installation and the manifest.

    Modelling conventions.
    - A Python [str] is a [string]: a sequence of characters with code
      points below 256 (the Latin-1 range); the character classes of
      [str.isdigit], [str.strip] and of the [re] module ([\d], [\w]) are
      the Unicode ones restricted to that range.
    - A Python [float] is an IEEE 754 binary64 number ([spec_float] with
      53 bits of precision): every operation rounds to nearest, ties to
      even, overflows to an infinity and can produce a NaN, as the
      hardware does.  A [datetime] is a number of microseconds since
      [datetime.min], within the range of the type; a [timedelta] built
      by [timedelta(seconds=n)] is the integer [n], within the range of
      that type.
    - An exception that no [try] of the method catches leaves the
      method: the functions that can raise return the state they reached
      together with the exception, if any.  An exception that leaves the
      monitor thread ends the thread; the state stays as it was then.
    - Everything the code reads from its environment is an argument of the
      operation that reads it: the clock ([datetime.now()]), the outcome of
      the file-system work of the link publisher, the outcome of spawning
      the child process.
    - The application logger ([logger.info] and the like) writes to a file
      that no function of the class reads; it is not modelled. *)

From Stdlib Require Import Bool Arith ZArith Lia List.
From Stdlib Require Import Ascii String DecimalString.
From Stdlib Require Import Floats.SpecFloat.
Import ListNotations.

Local Open Scope string_scope.
Local Open Scope Z_scope.

(* ================================================================== *)
(** ** Characters and strings *)

Module Chars.

Definition code (c : ascii) : N := N_of_ascii c.

Definition between (lo hi : N) (c : ascii) : bool :=
  ((lo <=? code c) && (code c <=? hi))%N.

(** [\d] of a [str] pattern: Unicode category Nd; below 256 these are
    the ten ASCII digits. *)
Definition is_decimal (c : ascii) : bool := between 48 57 c.

(** One character of [str.isdigit]: the decimal digits and the
    superscript digits U+00B2, U+00B3, U+00B9. *)
Definition is_digit (c : ascii) : bool :=
  is_decimal c || between 178 179 c || between 185 185 c.

(** [\w] of a [str] pattern: alphanumeric characters ([str.isalnum]) and
    the underscore. *)
Definition is_word (c : ascii) : bool :=
  is_decimal c || between 65 90 c || between 97 122 c || between 95 95 c
  || between 170 170 c || between 178 179 c || between 181 181 c
  || between 185 186 c || between 188 190 c
  || between 192 214 c || between 216 246 c || between 248 255 c.

(** Whitespace removed by [str.strip()]. *)
Definition is_space (c : ascii) : bool :=
  between 9 13 c || between 28 32 c || between 133 133 c
  || between 160 160 c.

Definition digit_value (c : ascii) : Z := Z.of_N (code c) - 48.

End Chars.

Module Str.

Fixpoint all (p : ascii -> bool) (s : string) : bool :=
  match s with
  | EmptyString => true
  | String c s' => p c && all p s'
  end.

(** [s.isdigit()]: at least one character, all of them digits. *)
Definition isdigit (s : string) : bool :=
  match s with
  | EmptyString => false
  | _ => all Chars.is_digit s
  end.

(** [sub in s]. *)
Fixpoint contains (sub s : string) : bool :=
  if prefix sub s then true
  else match s with
       | EmptyString => false
       | String _ s' => contains sub s'
       end.

Fixpoint lstrip (s : string) : string :=
  match s with
  | EmptyString => EmptyString
  | String c s' => if Chars.is_space c then lstrip s' else s
  end.

Fixpoint rstrip (s : string) : string :=
  match s with
  | EmptyString => EmptyString
  | String c s' =>
      match rstrip s' with
      | EmptyString => if Chars.is_space c then EmptyString
                       else String c EmptyString
      | r => String c r
      end
  end.

(** [s.strip()]. *)
Definition strip (s : string) : string := rstrip (lstrip s).

(** The first [length s - length rest] characters of [s]: the text a
    matcher consumed when it went from [s] to its suffix [rest]. *)
Definition consumed (s rest : string) : string :=
  substring 0 (length s - length rest) s.

(** [str(n)] for an integer. *)
Definition of_Z (n : Z) : string := NilZero.string_of_int (Z.to_int n).

End Str.

(* ================================================================== *)
(** ** The fragment of [re] the program uses

    Literals, character classes, concatenation, greedy [?], greedy [*]
    and [+] over a character class, and numbered capture groups, matched
    by backtracking the way [re] does: alternatives are tried in order of
    preference and the first complete match wins. *)

Module Re.

Inductive regex : Type :=
| Lit (c : ascii)
| Class (p : ascii -> bool)
| Cat (r1 r2 : regex)
| Opt (r : regex)
| Star (p : ascii -> bool)
| Plus (p : ascii -> bool)
| Group (n : nat) (r : regex).

Definition captures := list (nat * string).

(** Greedy repetition of a class: take a character when possible and
    give it back if the rest of the pattern then fails. *)
Fixpoint star_from {A} (p : ascii -> bool) (s : string)
         (k : string -> option A) : option A :=
  match s with
  | String c s' =>
      if p c then
        match star_from p s' k with
        | Some r => Some r
        | None => k s
        end
      else k s
  | EmptyString => k s
  end.

Fixpoint match_here (r : regex) (s : string) (caps : captures)
         (k : string -> captures -> option captures) : option captures :=
  match r with
  | Lit c =>
      match s with
      | String c' s' => if Ascii.eqb c c' then k s' caps else None
      | EmptyString => None
      end
  | Class p =>
      match s with
      | String c' s' => if p c' then k s' caps else None
      | EmptyString => None
      end
  | Cat r1 r2 =>
      match_here r1 s caps (fun s1 caps1 => match_here r2 s1 caps1 k)
  | Opt r1 =>
      match match_here r1 s caps k with
      | Some res => Some res
      | None => k s caps
      end
  | Star p => star_from p s (fun s' => k s' caps)
  | Plus p =>
      match s with
      | String c' s' =>
          if p c' then star_from p s' (fun s'' => k s'' caps) else None
      | EmptyString => None
      end
  | Group n r1 =>
      match_here r1 s caps
        (fun s' caps' => k s' ((n, Str.consumed s s') :: caps'))
  end.

(** A match anchored at the start of [s]. *)
Definition match_at (r : regex) (s : string) : option captures :=
  match_here r s [] (fun _ caps => Some caps).

(** [re.search]: the match at the leftmost position that has one. *)
Fixpoint search (r : regex) (s : string) : option captures :=
  match match_at r s with
  | Some caps => Some caps
  | None =>
      match s with
      | EmptyString => None
      | String _ s' => search r s'
      end
  end.

(** [match.group(n)] for a group that took part in the match. *)
Fixpoint group (n : nat) (caps : captures) : string :=
  match caps with
  | [] => EmptyString
  | (m, txt) :: rest => if Nat.eqb n m then txt else group n rest
  end.

(** A literal string as a pattern, followed by [r]. *)
Fixpoint lits (s : string) (r : regex) : regex :=
  match s with
  | EmptyString => r
  | String c s' => Cat (Lit c) (lits s' r)
  end.

(** A decimal number: one or more [\d], an optional dot, any number
    of [\d]. *)
Definition number : regex :=
  Cat (Plus Chars.is_decimal) (Cat (Opt (Lit ".")) (Star Chars.is_decimal)).

(** The pattern of [_extract_game_id]: the text app/ followed by
    group 1, one or more [\d]. *)
Definition app_id : regex := lits "app/" (Group 1 (Plus Chars.is_decimal)).

(** The percentage pattern of [_parse_progress]: group 1, a decimal
    number, followed by a percent sign. *)
Definition percentage : regex := Cat (Group 1 number) (Lit "%").

(** The size pattern of [_parse_progress]: number, space, word, space,
    slash, space, number, space, word; the numbers are groups 1 and 3,
    the words (one or more [\w]) groups 2 and 4. *)
Definition sizes : regex :=
  Cat (Group 1 number)
    (Cat (Lit " ")
       (Cat (Group 2 (Plus Chars.is_word))
          (lits " / "
             (Cat (Group 3 number)
                (Cat (Lit " ") (Group 4 (Plus Chars.is_word))))))).

End Re.

(* ================================================================== *)
(** ** Identifier resolution *)

(** [SteamCMDDownloader._extract_game_id] *)
Definition _extract_game_id (game_input : string) : option string :=
  if Str.isdigit game_input then Some game_input
  else match Re.search Re.app_id game_input with
       | Some m => Some (Re.group 1 m)
       | None => None
       end.

(* ================================================================== *)
(** ** Numbers and time *)

(** The built-in exceptions the methods can let through. *)
Inductive Exn : Type := OverflowError | ValueError | AttributeError.

(** How an expression ends: with a value, or by raising. *)
Inductive result (A : Type) : Type :=
| Ok (a : A)
| Raise (e : Exn).
Arguments Ok {A} a.
Arguments Raise {A} e.

Module Float.

Definition prec : Z := 53.
Definition emax : Z := 1024.

Definition zero : spec_float := S754_zero false.

(** The quotient of two integers, rounded once to the nearest double:
    the true division of two [int]s, and the value of a decimal
    numeral. *)
Definition of_ratio (n : Z) (d : positive) : spec_float :=
  match n with
  | Z0 => zero
  | Zpos p =>
      let '(q, e, l) := SFdiv_core_binary prec emax (Zpos p) 0 (Zpos d) 0 in
      binary_round_aux prec emax false q e l
  | Zneg p =>
      let '(q, e, l) := SFdiv_core_binary prec emax (Zpos p) 0 (Zpos d) 0 in
      binary_round_aux prec emax true q e l
  end.

(** Digits and at most one dot, read left to right: the digits seen so
    far as an integer, and the power of ten the fraction digits call
    for. *)
Fixpoint scan (s : string) (frac : bool) (acc : Z) (scale : positive)
  : Z * positive :=
  match s with
  | EmptyString => (acc, scale)
  | String c s' =>
      if Ascii.eqb c "." then scan s' true acc scale
      else scan s' frac (10 * acc + Chars.digit_value c)
                (if frac then (10 * scale)%positive else scale)
  end.

(** [float(s)] for the strings the program passes to it: groups matched
    by [Re.number]. *)
Definition of_string (s : string) : spec_float :=
  let (n, d) := scan s false 0 1%positive in of_ratio n d.

(** The double of an integer literal. *)
Definition of_Z (n : Z) : spec_float := binary_normalize prec emax n 0 false.

Definition div (a b : spec_float) : spec_float := SFdiv prec emax a b.
Definition mul (a b : spec_float) : spec_float := SFmul prec emax a b.
Definition sub (a b : spec_float) : spec_float := SFsub prec emax a b.

(** [a > b] *)
Definition gtb (a b : spec_float) : bool := SFltb b a.

(** [a >= b] *)
Definition geb (a b : spec_float) : bool := SFleb b a.

(** [int(a)]: the fraction is dropped, towards zero; an infinity and a
    NaN have no integer. *)
Definition to_int (a : spec_float) : result Z :=
  match a with
  | S754_zero _ => Ok 0
  | S754_infinity _ => Raise OverflowError
  | S754_nan => Raise ValueError
  | S754_finite s m e =>
      let v := match e with
               | Zneg k => Z.shiftr (Zpos m) (Zpos k)
               | _ => Z.shiftl (Zpos m) e
               end in
      Ok (if s then - v else v)
  end.

End Float.

Module Time.

(** The microseconds from [datetime.min] to [datetime.max]. *)
Definition max_micros : Z := 315537897599999999.

Definition in_range (us : Z) : bool := (0 <=? us) && (us <=? max_micros).

(** A [datetime]: the microseconds since [datetime.min]. *)
Record datetime : Type := mkDatetime {
  micros : Z;
  micros_in_range : in_range micros = true
}.

(** The [datetime] that many microseconds after [datetime.min]
    ([datetime.min] itself when there is none). *)
Definition datetime_at (us : Z) : datetime :=
  match in_range us as b return in_range us = b -> datetime with
  | true => fun H => mkDatetime us H
  | false => fun _ => mkDatetime 0 eq_refl
  end eq_refl.

(** [a - b], in microseconds. *)
Definition diff (a b : datetime) : Z := micros a - micros b.

(** [timedelta.total_seconds()] of a difference of two [datetime]s. *)
Definition total_seconds (us : Z) : spec_float := Float.of_ratio us 1000000.

(** [timedelta(seconds=n)]: the number of days must have at most nine
    digits. *)
Definition timedelta (seconds : Z) : result Z :=
  let days := seconds / 86400 in
  if (-999999999 <=? days) && (days <=? 999999999) then Ok seconds
  else Raise OverflowError.

(** [%02d] and [%06d] for a non-negative number. *)
Fixpoint zeros (n : nat) : string :=
  match n with
  | O => EmptyString
  | S n' => String "0" (zeros n')
  end.

Definition pad (width : nat) (n : Z) : string :=
  let s := Str.of_Z n in zeros (width - String.length s) ++ s.

(** [str(td)] for a [timedelta] of [micros] microseconds. *)
Definition str (micros : Z) : string :=
  let days := micros / 86400000000 in
  let rest := micros mod 86400000000 in
  let seconds := rest / 1000000 in
  let microseconds := rest mod 1000000 in
  let mm := seconds / 60 in
  let ss := seconds mod 60 in
  let hh := mm / 60 in
  let mm := mm mod 60 in
  let s := Str.of_Z hh ++ ":" ++ pad 2 mm ++ ":" ++ pad 2 ss in
  let s := if days =? 0 then s
           else Str.of_Z days ++ " day"
                ++ (if Z.abs days =? 1 then "" else "s") ++ ", " ++ s in
  if microseconds =? 0 then s else s ++ "." ++ pad 6 microseconds.

(** [s.split('.')[0]] *)
Fixpoint before_dot (s : string) : string :=
  match s with
  | EmptyString => EmptyString
  | String c s' => if Ascii.eqb c "." then EmptyString
                   else String c (before_dot s')
  end.

End Time.

Abbreviation datetime := Time.datetime.

(* ================================================================== *)
(** ** The downloader's state *)

Inductive Status : Type :=
| idle | preparing | downloading | completed | error | cancelled.

Definition Status_eqb (a b : Status) : bool :=
  match a, b with
  | idle, idle | preparing, preparing | downloading, downloading
  | completed, completed | error, error | cancelled, cancelled => true
  | _, _ => false
  end.

(** The dictionary [self.current_download]. *)
Record Download : Type := mkDownload {
  game_id : option string;
  progress : spec_float;
  status : Status;
  start_time : option datetime;
  current_size : spec_float;
  total_size : spec_float;
  speed : spec_float;
  remaining_time : option Z;
  log : list string
}.

Record Link : Type := mkLink { name : string; url : string }.

(** The child process behind [self.process]: its argument list, what
    [poll()] returns ([None] while it runs) and whether [terminate()]
    was called on it. *)
Record Popen : Type := mkPopen {
  args : list string;
  returncode : option Z;
  terminate_sent : bool
}.

(** An instance of [SteamCMDDownloader].  [publisher_calls] is not a
    field of the class: it counts the calls of [_create_public_links]. *)
Record SteamCMDDownloader : Type := mkSelf {
  process : option Popen;
  current_download : Download;
  public_links : list Link;
  publisher_calls : nat
}.

(** [SteamCMDDownloader.__init__] *)
Definition __init__ : SteamCMDDownloader :=
  {| process := None;
     current_download :=
       {| game_id := None; progress := Float.zero; status := idle;
          start_time := None; current_size := Float.zero;
          total_size := Float.zero; speed := Float.zero;
          remaining_time := None; log := [] |};
     public_links := [];
     publisher_calls := 0 |}.

Definition set_progress (v : spec_float) (d : Download) : Download :=
  mkDownload (game_id d) v (status d) (start_time d) (current_size d)
             (total_size d) (speed d) (remaining_time d) (log d).

Definition set_status (v : Status) (d : Download) : Download :=
  mkDownload (game_id d) (progress d) v (start_time d) (current_size d)
             (total_size d) (speed d) (remaining_time d) (log d).

Definition set_sizes (cur tot : spec_float) (d : Download) : Download :=
  mkDownload (game_id d) (progress d) (status d) (start_time d) cur tot
             (speed d) (remaining_time d) (log d).

Definition set_speed (v : spec_float) (d : Download) : Download :=
  mkDownload (game_id d) (progress d) (status d) (start_time d)
             (current_size d) (total_size d) v (remaining_time d) (log d).

Definition set_remaining_time (v : option Z) (d : Download) : Download :=
  mkDownload (game_id d) (progress d) (status d) (start_time d)
             (current_size d) (total_size d) (speed d) v (log d).

Definition log_append (entry : string) (d : Download) : Download :=
  mkDownload (game_id d) (progress d) (status d) (start_time d)
             (current_size d) (total_size d) (speed d) (remaining_time d)
             (log d ++ [entry]).

Definition with_download (f : Download -> Download)
           (self : SteamCMDDownloader) : SteamCMDDownloader :=
  mkSelf (process self) (f (current_download self)) (public_links self)
         (publisher_calls self).

Definition set_process (p : option Popen) (self : SteamCMDDownloader)
  : SteamCMDDownloader :=
  mkSelf p (current_download self) (public_links self)
         (publisher_calls self).

(* ================================================================== *)
(** ** Progress parser *)

(** The conversion to megabytes of [_parse_progress]: the two branches
    on the unit, any other unit leaves the value as it is. *)
Definition to_MB (size : spec_float) (unit : string) : spec_float :=
  if String.eqb unit "KB" then Float.div size (Float.of_Z 1024)
  else if String.eqb unit "GB" then Float.mul size (Float.of_Z 1024)
  else size.

(** The tail of [_parse_progress], under [if size_match:], once the two
    sizes are converted.  [int] and [timedelta] can raise; the
    assignments made before stay. *)
Definition update_sizes (now : datetime) (current_size total_size : spec_float)
           (d : Download) : Download * option Exn :=
  let d := set_sizes current_size total_size d in
  match start_time d with
  | None => (d, None)
  | Some t0 =>
      let elapsed_time := Time.total_seconds (Time.diff now t0) in
      if Float.gtb elapsed_time Float.zero then
        let d := set_speed (Float.div current_size elapsed_time) d in
        if Float.gtb (speed d) Float.zero then
          let remaining_mb := Float.sub total_size current_size in
          let remaining_seconds := Float.div remaining_mb (speed d) in
          match Float.to_int remaining_seconds with
          | Raise e => (d, Some e)
          | Ok seconds =>
              match Time.timedelta seconds with
              | Raise e => (d, Some e)
              | Ok td => (set_remaining_time (Some td) d, None)
              end
          end
        else (d, None)
      else (d, None)
  end.

(** [_parse_progress] on the session dictionary; [now] is what
    [datetime.now()] returns.  The second component is the exception
    that leaves the method, if one does. *)
Definition parse_line (now : datetime) (line : string) (d : Download)
  : Download * option Exn :=
  let d :=
    match Re.search Re.percentage line with
    | Some progress_match =>
        set_progress (Float.of_string (Re.group 1 progress_match)) d
    | None => d
    end in
  match Re.search Re.sizes line with
  | Some size_match =>
      let current_size := Float.of_string (Re.group 1 size_match) in
      let current_unit := Re.group 2 size_match in
      let total_size := Float.of_string (Re.group 3 size_match) in
      let total_unit := Re.group 4 size_match in
      update_sizes now (to_MB current_size current_unit)
                   (to_MB total_size total_unit) d
  | None => (d, None)
  end.

(** [SteamCMDDownloader._parse_progress] *)
Definition _parse_progress (now : datetime) (line : string)
           (self : SteamCMDDownloader) : SteamCMDDownloader * option Exn :=
  let (d, raised) := parse_line now line (current_download self) in
  (with_download (fun _ => d) self, raised).

(* ================================================================== *)
(** ** Link publisher *)

(** What the file-system work of [_create_public_links] comes to: it
    goes through, and [RAILWAY_PUBLIC_URL] is read from the environment
    (absent or set), or some step raises an exception with a message. *)
Inductive PublishEnv : Type :=
| PublishOk (railway_public_url : option string)
| PublishRaises (msg : string).

(** [f"{game_id}"] *)
Definition format_game_id (g : option string) : string :=
  match g with
  | Some id => id
  | None => "None"
  end.

(** [SteamCMDDownloader._create_public_links] *)
Definition _create_public_links (env : PublishEnv)
           (self : SteamCMDDownloader) : SteamCMDDownloader :=
  let game_id := game_id (current_download self) in
  let calls := S (publisher_calls self) in
  match env with
  | PublishOk var =>
      let railway_url :=
        match var with
        | Some v => v
        | None => "http://localhost:7860"
        end in
      let public_url :=
        railway_url ++ "/public/app_" ++ format_game_id game_id in
      mkSelf (process self) (current_download self)
             [ mkLink "Game Files Directory" public_url;
               mkLink "Game Files Manifest" (public_url ++ "/manifest.txt") ]
             calls
  | PublishRaises msg =>
      mkSelf (process self)
             (log_append ("Failed to create public links: " ++ msg)
                         (current_download self))
             (public_links self) calls
  end.

(* ================================================================== *)
(** ** Monitor loop *)

(** One output line of the child process, with what the environment
    answers while the line is handled. *)
Record LineEvent : Type := mkLine {
  line_text : string;
  line_now : datetime;
  line_publish : PublishEnv
}.

(** The body of the [for line in ...] loop of
    [_monitor_download_progress].  Nothing in the loop catches what
    [_parse_progress] raises: the markers of that line are not looked
    at then. *)
Definition monitor_line (ev : LineEvent) (self : SteamCMDDownloader)
  : SteamCMDDownloader * option Exn :=
  let line := line_text ev in
  let self := with_download (log_append (Str.strip line)) self in
  match _parse_progress (line_now ev) line self with
  | (self, Some e) => (self, Some e)
  | (self, None) =>
      if Str.contains "Success!" line then
        let self := with_download (set_status completed) self in
        let self := with_download (set_progress (Float.of_Z 100)) self in
        (_create_public_links (line_publish ev) self, None)
      else if Str.contains "ERROR!" line || Str.contains "Failed" line then
        (with_download (set_status error) self, None)
      else (self, None)
  end.

(** [Popen.wait()]: the child has exited with code [rc] unless an exit
    code was already recorded. *)
Definition wait (rc : Z) (p : Popen) : Popen :=
  match returncode p with
  | Some _ => p
  | None => mkPopen (args p) (Some rc) (terminate_sent p)
  end.

(** What follows the loop in [_monitor_download_progress]; with
    [self.process] being [None] the call of [wait] raises. *)
Definition monitor_end (rc : Z) (self : SteamCMDDownloader)
  : SteamCMDDownloader * option Exn :=
  match process self with
  | None => (self, Some AttributeError)
  | Some p =>
      let self := set_process (Some (wait rc p)) self in
      if Status_eqb (status (current_download self)) downloading then
        let self := with_download (set_status error) self in
        (with_download (log_append "Process ended unexpectedly") self, None)
      else (self, None)
  end.

(** The loop: line after line, until the stream ends or an exception
    leaves the body. *)
Fixpoint monitor_lines (evs : list LineEvent) (self : SteamCMDDownloader)
  : SteamCMDDownloader * option Exn :=
  match evs with
  | [] => (self, None)
  | ev :: rest =>
      match monitor_line ev self with
      | (self, None) => monitor_lines rest self
      | (self, Some e) => (self, Some e)
      end
  end.

(** [SteamCMDDownloader._monitor_download_progress] run without
    interference from the other operations: the lines the child wrote,
    then its exit code.  The second component is the exception that
    ended the thread, if one did; what follows the point where it was
    raised is not run. *)
Definition _monitor_download_progress (evs : list LineEvent) (rc : Z)
           (self : SteamCMDDownloader) : SteamCMDDownloader * option Exn :=
  match process self with
  | None => (self, Some AttributeError)
  | Some _ =>
      match monitor_lines evs self with
      | (self, None) => monitor_end rc self
      | (self, Some e) => (self, Some e)
      end
  end.

(* ================================================================== *)
(** ** Download request *)

(** [os.path.join(a, b)] on a POSIX system. *)
Definition path_join (a b : string) : string :=
  if prefix "/" b then b
  else match a with
       | EmptyString => b
       | _ => if String.eqb (substring (String.length a - 1) 1 a) "/"
              then a ++ b else a ++ "/" ++ b
       end.

(** [s.split()]: the maximal runs of characters that are not
    whitespace. *)
Fixpoint split_from (s word : string) : list string :=
  let flush := match word with
               | EmptyString => []
               | _ => [word]
               end in
  match s with
  | EmptyString => flush
  | String c s' =>
      if Chars.is_space c then flush ++ split_from s' EmptyString
      else split_from s' (word ++ String c EmptyString)
  end.

Definition split (s : string) : list string := split_from s EmptyString.

(** The module constants a download request uses and what its
    environment answers: the clock, [os.makedirs] and the start of the
    child process and of the monitor thread ([Some msg]: the call raises
    an exception with that message). *)
Record DownloadEnv : Type := mkDownloadEnv {
  STEAMCMD_EXE : string;
  GAMES_DIR : string;
  request_now : datetime;
  makedirs_error : option string;
  popen_error : option string;
  thread_error : option string
}.

(** How a call ends: it returns a value or an exception leaves it. *)
Inductive Outcome (A : Type) : Type :=
| Returned (a : A)
| Raised (msg : string).
Arguments Returned {A} a.
Arguments Raised {A} msg.

(** [not game_id] *)
Definition falsy (g : option string) : bool :=
  match g with
  | None => true
  | Some EmptyString => true
  | Some _ => false
  end.

(** [SteamCMDDownloader.download_game] *)
Definition download_game (game_input username password : string)
           (anonymous : bool) (env : DownloadEnv)
           (self : SteamCMDDownloader)
  : SteamCMDDownloader * Outcome (bool * string) :=
  let game_id := _extract_game_id game_input in
  if falsy game_id then (self, Returned (false, "Invalid game ID or URL"))
  else
    let self :=
      with_download
        (fun _ => mkDownload game_id Float.zero preparing
                             (Some (request_now env))
                             Float.zero Float.zero Float.zero None [])
        self in
    let game_dir :=
      path_join (GAMES_DIR env) ("app_" ++ format_game_id game_id) in
    match makedirs_error env with
    | Some msg => (self, Raised msg)
    | None =>
        let login_cmd :=
          if anonymous then "+login anonymous"
          else "+login " ++ username ++ " " ++ password in
        let download_cmd :=
          login_cmd ++ " +force_install_dir " ++ game_dir
          ++ " +app_update " ++ format_game_id game_id ++ " validate +quit" in
        let self := with_download (set_status downloading) self in
        let failed msg self :=
          let self := with_download (set_status error) self in
          let self := with_download (log_append ("Error: " ++ msg)) self in
          (self, Returned (false, "Download error: " ++ msg)) in
        match popen_error env with
        | Some msg => failed msg self
        | None =>
            let self :=
              set_process
                (Some (mkPopen (STEAMCMD_EXE env :: split download_cmd)
                               None false))
                self in
            match thread_error env with
            | Some msg => failed msg self
            | None => (self, Returned (true, "Download started"))
            end
        end
    end.

(* ================================================================== *)
(** ** Cancellation and status report *)

(** [Popen.terminate()] *)
Definition terminate (p : Popen) : Popen :=
  mkPopen (args p) (returncode p) true.

(** [SteamCMDDownloader.cancel_download] *)
Definition cancel_download (self : SteamCMDDownloader)
  : SteamCMDDownloader * bool :=
  match process self with
  | Some p =>
      match returncode p with
      | None =>
          let self := set_process (Some (terminate p)) self in
          (with_download (set_status cancelled) self, true)
      | Some _ => (self, false)
      end
  | None => (self, false)
  end.

(** The dictionary [get_download_status] returns. *)
Record StatusReport : Type := mkReport {
  r_game_id : option string;
  r_progress : spec_float;
  r_status : Status;
  r_start_time : option datetime;
  r_current_size : spec_float;
  r_total_size : spec_float;
  r_speed : spec_float;
  r_remaining_time : string;
  r_log : list string;
  r_elapsed_time : string;
  r_public_links : list Link
}.

(** [SteamCMDDownloader.get_download_status]; [now] is what
    [datetime.now()] returns. *)
Definition get_download_status (now : datetime) (self : SteamCMDDownloader)
  : StatusReport :=
  let d := current_download self in
  let elapsed_time :=
    match start_time d with
    | Some t0 => Time.before_dot (Time.str (Time.diff now t0))
    | None => "00:00:00"
    end in
  let remaining :=
    match remaining_time d with
    | Some n => if n =? 0 then "calculating..."
                else Time.str (n * 1000000)
    | None => "calculating..."
    end in
  mkReport (game_id d) (progress d) (status d) (start_time d)
           (current_size d) (total_size d) (speed d) remaining (log d)
           elapsed_time (public_links self).

(* ================================================================== *)
(** ** Running SteamCMD, login and installation *)

(** How a run of SteamCMD through [subprocess.run] ends: with the output
    it captured, or with an exception. *)
Inductive RunResult : Type :=
| RunOutput (stdout stderr : string)
| RunRaises (msg : string).

(** [SteamCMDDownloader._run_steamcmd_command]; [shell] is what the
    operating system answers to a command line. *)
Definition _run_steamcmd_command (shell : string -> RunResult)
           (exe command : string) : RunResult :=
  shell (exe ++ " " ++ command).

(** [SteamCMDDownloader.login] *)
Definition login (shell : string -> RunResult) (exe : string)
           (username password : string) (anonymous : bool)
  : bool * string :=
  let cmd :=
    if anonymous then "+login anonymous"
    else "+login " ++ username ++ " " ++ password in
  match _run_steamcmd_command shell exe (cmd ++ " +quit") with
  | RunOutput stdout _ =>
      if Str.contains "Login Failure" stdout || Str.contains "FAILED" stdout
      then (false, "Login failed. Please check your credentials.")
      else (true, "Login successful")
  | RunRaises msg => (false, "Login error: " ++ msg)
  end.

(** What the environment answers during an installation: the download
    of the archive and its extraction go through or raise, and
    [check_steamcmd_installed] finds the executable or not. *)
Record InstallEnv : Type := mkInstallEnv {
  fetch_error : option string;
  extract_error : option string;
  installed_after : bool
}.

(** [SteamCMDDownloader.install_steamcmd] *)
Definition install_steamcmd (env : InstallEnv) (shell : string -> RunResult)
           (exe : string) : bool :=
  match fetch_error env with
  | Some _ => false
  | None =>
      match extract_error env with
      | Some _ => false
      | None =>
          if negb (installed_after env) then false
          else match _run_steamcmd_command shell exe "+quit" with
               | RunOutput _ _ => true
               | RunRaises _ => false
               end
      end
  end.

(* ================================================================== *)
(** ** Manifest of the published files *)

(** The line feed. *)
Definition nl : string := String "010"%char EmptyString.

(** One step of [os.walk(game_dir)]: the directory reached, as
    [os.path.relpath(root, game_dir)] gives it, and the names of the
    directories and files in it. *)
Record WalkEntry : Type := mkWalk {
  rel_path : string;
  dirs : list string;
  files : list string
}.

(** The inner loop of the manifest in [_create_public_links]: what is
    written for the files of one directory. *)
Fixpoint manifest_files (rel : string) (names : list string) : string :=
  match names with
  | [] => EmptyString
  | file :: rest =>
      let file_path := path_join rel file in
      (if String.eqb file_path "manifest.txt" then EmptyString
       else file_path ++ nl)
      ++ manifest_files rel rest
  end.

(** The text written to manifest.txt. *)
Fixpoint manifest (walk : list WalkEntry) : string :=
  match walk with
  | [] => EmptyString
  | entry :: rest =>
      manifest_files (rel_path entry) (files entry) ++ manifest rest
  end.

(* ================================================================== *)
(** ** The control surface *)

(** The module-level state: the downloader and the flag
    [STEAMCMD_INSTALLED]. *)
Record App : Type := mkApp {
  downloader : SteamCMDDownloader;
  STEAMCMD_INSTALLED : bool
}.

(** [install_steamcmd_gradio] *)
Definition install_steamcmd_gradio (env : InstallEnv)
           (shell : string -> RunResult) (exe : string) (app : App)
  : App * string :=
  let success := install_steamcmd env shell exe in
  (mkApp (downloader app) success,
   "SteamCMD " ++ (if success then "successfully installed"
                   else "installation failed")).

(** [check_install_status] *)
Definition check_install_status (app : App) : string :=
  if STEAMCMD_INSTALLED app then "SteamCMD is installed and ready"
  else "SteamCMD is not installed".

(** [start_download] *)
Definition start_download (username password game_input : string)
           (anonymous : bool) (shell : string -> RunResult)
           (env : DownloadEnv) (app : App) : App * Outcome string :=
  if negb (STEAMCMD_INSTALLED app) then
    (app, Returned "SteamCMD not installed. Please install it first.")
  else if falsy (_extract_game_id game_input) then
    (app, Returned
            "Invalid game ID or URL. Please provide a valid Steam app ID or URL.")
  else
    let (login_success, login_message) :=
      login shell (STEAMCMD_EXE env) username password anonymous in
    if negb login_success then (app, Returned login_message)
    else
      let (self, result) :=
        download_game game_input username password anonymous env
                      (downloader app) in
      (mkApp self (STEAMCMD_INSTALLED app),
       match result with
       | Returned (_, message) => Returned message
       | Raised msg => Raised msg
       end).

(** [status.upper()] *)
Definition Status_upper (s : Status) : string :=
  match s with
  | idle => "IDLE"
  | preparing => "PREPARING"
  | downloading => "DOWNLOADING"
  | completed => "COMPLETED"
  | error => "ERROR"
  | cancelled => "CANCELLED"
  end.

(** The loop over the links in [update_status]. *)
Fixpoint link_lines (links : list Link) : string :=
  match links with
  | [] => EmptyString
  | link :: rest =>
      "- " ++ name link ++ ": " ++ url link ++ nl ++ link_lines rest
  end.

(** [update_status]; [fmt n x] is the text of [x] with [n] digits after
    the point (the format [.nf]), [now] what [datetime.now()] returns. *)
Definition update_status (fmt : nat -> spec_float -> string) (now : datetime)
           (app : App)
  : string :=
  let status := get_download_status now (downloader app) in
  if Status_eqb (r_status status) idle then "No active downloads"
  else
    let output := "Status: " ++ Status_upper (r_status status) ++ nl in
    let output :=
      output ++ "Game ID: " ++ format_game_id (r_game_id status) ++ nl in
    let output :=
      output ++ "Progress: " ++ fmt 1%nat (r_progress status) ++ "%" ++ nl in
    let output :=
      output ++ "Size: " ++ fmt 2%nat (r_current_size status) ++ " MB / "
      ++ fmt 2%nat (r_total_size status) ++ " MB" ++ nl in
    let output :=
      output ++ "Elapsed Time: " ++ r_elapsed_time status ++ nl in
    let output :=
      output ++ "Remaining Time: " ++ r_remaining_time status ++ nl in
    if Status_eqb (r_status status) completed
       && negb (match r_public_links status with [] => true | _ => false end)
    then output ++ nl ++ "Download Complete! Public Links:" ++ nl
         ++ link_lines (r_public_links status)
    else output.

(** [get_progress] *)
Definition get_progress (app : App) : spec_float :=
  progress (current_download (downloader app)).

(** [cancel_current_download] *)
Definition cancel_current_download (app : App) : App * string :=
  let (self, cancelled) := cancel_download (downloader app) in
  (mkApp self (STEAMCMD_INSTALLED app),
   if cancelled then "Download cancelled"
   else "No active download to cancel").

(* ================================================================== *)
(** * Vocabulary of the properties *)

(** ** Strings and matches *)

(** The longest prefix of characters in a class, and what follows. *)
Fixpoint take_while (p : ascii -> bool) (s : string) : string :=
  match s with
  | String c s' => if p c then String c (take_while p s') else EmptyString
  | EmptyString => EmptyString
  end.

Fixpoint drop_while (p : ascii -> bool) (s : string) : string :=
  match s with
  | String c s' => if p c then drop_while p s' else s
  | EmptyString => EmptyString
  end.

Definition first_is (p : ascii -> bool) (s : string) : bool :=
  match s with
  | String c _ => p c
  | EmptyString => false
  end.

Fixpoint has_char (c : ascii) (s : string) : bool :=
  match s with
  | EmptyString => false
  | String c' s' => Ascii.eqb c c' || has_char c s'
  end.

(** [lang r s caps]: the pattern [r] matches exactly the text [s] and
    its groups capture [caps] (the group closed last comes first). *)
Inductive lang : Re.regex -> string -> Re.captures -> Prop :=
| lang_lit c : lang (Re.Lit c) (String c EmptyString) []
| lang_class p c : p c = true -> lang (Re.Class p) (String c EmptyString) []
| lang_cat r1 r2 s1 s2 c1 c2 :
    lang r1 s1 c1 -> lang r2 s2 c2 ->
    lang (Re.Cat r1 r2) (s1 ++ s2) (c2 ++ c1)%list
| lang_opt_some r s c : lang r s c -> lang (Re.Opt r) s c
| lang_opt_none r : lang (Re.Opt r) EmptyString []
| lang_star p s : Str.all p s = true -> lang (Re.Star p) s []
| lang_plus p s :
    s <> EmptyString -> Str.all p s = true -> lang (Re.Plus p) s []
| lang_group n r s c : lang r s c -> lang (Re.Group n r) s ((n, s) :: c).

(** The shape of a decimal number: digits, then possibly a dot and
    further digits. *)
Definition is_number (s : string) : Prop :=
  exists int dot frac,
    s = (int ++ dot ++ frac)%string
    /\ int <> EmptyString /\ Str.all Chars.is_decimal int = true
    /\ (dot = EmptyString \/ dot = ".")
    /\ Str.all Chars.is_decimal frac = true.

(** The text of a decimal number: the digits [int], then, when
    [dotted], a dot and the digits [frac]. *)
Definition number_text (int frac : string) (dotted : bool) : string :=
  (int ++ if dotted then "." ++ frac else EmptyString)%string.

Definition no_decimal (c : ascii) : bool := negb (Chars.is_decimal c).

Definition is_unit_word (s : string) : Prop :=
  s <> EmptyString /\ Str.all Chars.is_word s = true.

(** No match of [r] in [s] begins before the end of the prefix
    [pre]. *)
Definition leftmost (r : Re.regex) (pre s : string) : Prop :=
  forall pre1 rest1,
    s = (pre1 ++ rest1)%string ->
    (String.length pre1 < String.length pre)%nat ->
    Re.match_at r rest1 = None.

(** The size pattern without its last word. *)
Definition sizes_head : Re.regex :=
  Re.Cat (Re.Group 1 Re.number)
    (Re.Cat (Re.Lit " ")
       (Re.Cat (Re.Group 2 (Re.Plus Chars.is_word))
          (Re.lits " / " (Re.Cat (Re.Group 3 Re.number) (Re.Lit " "))))).

(** The pattern app/<digits> occurs in [s] right after the prefix
    [pre]. *)
Definition app_occurs_at (pre s : string) : Prop :=
  exists c rest,
    s = (pre ++ "app/" ++ String c rest)%string /\ Chars.is_decimal c = true.

(** ** Progress lines *)

(** The double 1024.0. *)
Definition f1024 : spec_float := S754_finite false 4503599627370496 (-42).

(** The normalisation to megabytes of a value given with a unit: a KB
    value divided by 1024, a GB value multiplied by 1024 (both rounded
    to the nearest double), a value with any other unit unchanged. *)
Definition megabytes (value : spec_float) (unit : string) (mb : spec_float)
  : Prop :=
  (unit = "KB" -> mb = SFdiv 53 1024 value f1024)
  /\ (unit = "GB" -> mb = SFmul 53 1024 value f1024)
  /\ (unit <> "KB" -> unit <> "GB" -> mb = value).

(** The number a run of decimal digits stands for. *)
Fixpoint digits_value (s : string) : Z :=
  match s with
  | EmptyString => 0
  | String c s' =>
      Chars.digit_value c * 10 ^ Z.of_nat (String.length s') + digits_value s'
  end.

Definition pow10 (n : nat) : positive := Z.to_pos (10 ^ Z.of_nat n).

(** The double nearest to the decimal numeral with the digits [int]
    before the point and the digits [frac] after it. *)
Definition decimal (int frac : string) : spec_float :=
  Float.of_ratio (digits_value (int ++ frac)) (pow10 (String.length frac)).

(** The digits of a numeral before its point, and those after it. *)
Definition before_point (s : string) : string :=
  take_while Chars.is_decimal s.

Definition after_point (s : string) : string :=
  match drop_while Chars.is_decimal s with
  | String _ rest => rest
  | EmptyString => EmptyString
  end.

(** The double nearest to the number a numeral stands for. *)
Definition numeral (s : string) : spec_float :=
  decimal (before_point s) (after_point s).





(** The number of days of a duration of [n] seconds is in the range of
    [timedelta]. *)
Definition days_in_range (n : Z) : Prop :=
  -999999999 <= n / 86400 <= 999999999.

Definition known_unit (unit : string) : Prop :=
  unit = "KB" \/ unit = "MB" \/ unit = "GB".

Definition has_success (line : string) : bool := Str.contains "Success!" line.

Definition has_failure (line : string) : bool :=
  Str.contains "ERROR!" line || Str.contains "Failed" line.

(** A line without success or failure marker. *)
Definition no_marker (ev : LineEvent) : Prop :=
  has_success (line_text ev) = false /\ has_failure (line_text ev) = false.



(** The downloader once a line is logged and parsed, before the
    markers are looked at. *)
Definition parsed (ev : LineEvent) (self : SteamCMDDownloader)
  : SteamCMDDownloader :=
  with_download
    (fun d => fst (parse_line (line_now ev) (line_text ev)
                              (log_append (Str.strip (line_text ev)) d)))
    self.

(** What the markers of a line do. *)
Definition after_markers (ev : LineEvent) (self : SteamCMDDownloader)
  : SteamCMDDownloader :=
  if has_success (line_text ev) then
    _create_public_links
      (line_publish ev)
      (with_download (set_progress (Float.of_Z 100))
                     (with_download (set_status completed) self))
  else if has_failure (line_text ev) then with_download (set_status error) self
  else self.

(** The exception that leaves the parser on a line, if one does. *)
Definition parser_raises (ev : LineEvent) (self : SteamCMDDownloader)
  : option Exn :=
  snd (parse_line (line_now ev) (line_text ev) (current_download self)).

(** ** Sessions and processes *)

Definition terminal (s : Status) : Prop :=
  s = completed \/ s = error \/ s = cancelled.

Definition live_process (self : SteamCMDDownloader) : Prop :=
  exists p, process self = Some p /\ returncode p = None.

(** No child process is live: none was started, or the one that was
    started has exited. *)
Definition no_live_process (self : SteamCMDDownloader) : Prop :=
  process self = None
  \/ exists p rc, process self = Some p /\ returncode p = Some rc.

(** ** Histories of a downloader *)

(** What can happen to a downloader: the requests of the control
    surface that change it, the monitor thread handling a line or
    reaching the end of the stream, and the child process exiting.  A
    line on which the parser raises leaves the state the parser had
    reached; the thread handles no line after it, so the histories of
    the program are among those of [run]. *)
Inductive Op : Type :=
| OpDownload (game_input username password : string) (anonymous : bool)
             (env : DownloadEnv)
| OpCancel
| OpLine (ev : LineEvent)
| OpEnd (rc : Z)
| OpExit (rc : Z).

Definition apply_op (self : SteamCMDDownloader) (op : Op)
  : SteamCMDDownloader :=
  match op with
  | OpDownload game_input username password anonymous env =>
      fst (download_game game_input username password anonymous env self)
  | OpCancel => fst (cancel_download self)
  | OpLine ev =>
      match process self with
      | Some _ => fst (monitor_line ev self)
      | None => self
      end
  | OpEnd rc => fst (monitor_end rc self)
  | OpExit rc =>
      match process self with
      | Some p => set_process (Some (wait rc p)) self
      | None => self
      end
  end.

(** The state a fresh downloader reaches through a sequence of
    operations. *)
Definition run (ops : list Op) : SteamCMDDownloader :=
  fold_left apply_op ops __init__.

Definition is_success_op (op : Op) : bool :=
  match op with
  | OpLine ev => has_success (line_text ev)
  | _ => false
  end.

(** ** Sample data *)

(** The one-character string U+00B2, superscript two. *)
Definition superscript_two : string := String "178"%char EmptyString.

Definition sample_env : DownloadEnv :=
  mkDownloadEnv "/srv/steamcmd/steamcmd.sh" "/srv/games"
                (Time.datetime_at 1000000) None None None.

(** An environment in which the working directory cannot be created. *)
Definition no_games_dir : DownloadEnv :=
  mkDownloadEnv "/srv/steamcmd/steamcmd.sh" "/srv/games"
                (Time.datetime_at 90000000)
                (Some "[Errno 13] Permission denied: '/srv/games/app_440'")
                None None.

(** A session started at [t0], nothing transferred yet. *)
Definition session_at (t0 : datetime) : Download :=
  mkDownload (Some "730") Float.zero downloading (Some t0)
             Float.zero Float.zero Float.zero None [].

(** A downloader whose child process for app 730 has just been spawned. *)
Definition started : SteamCMDDownloader :=
  fst (download_game "730" "user" "secret" true sample_env __init__).

Definition quiet_line : LineEvent :=
  mkLine "Update state (0x61) downloading, progress: 12.50
" (Time.datetime_at 5000000) (PublishOk None).

Definition success_line : LineEvent :=
  mkLine "Success! App '730' fully installed.
" (Time.datetime_at 60000000) (PublishOk None).

Definition failure_line : LineEvent :=
  mkLine "ERROR! Failed to install app '730' (Disk write failure)
" (Time.datetime_at 61000000) (PublishOk None).

Definition percent_line : LineEvent :=
  mkLine " Update state (0x5) verifying install, progress: 50%
" (Time.datetime_at 61000000) (PublishOk None).

(** A size expression whose remaining time is beyond the range of
    [timedelta], without a marker and with the success marker. *)
Definition overflow_line : LineEvent :=
  mkLine "1 MB / 100000000000000 MB
" (Time.datetime_at 60000000) (PublishOk None).

Definition success_overflow_line : LineEvent :=
  mkLine "Success! 1 MB / 100000000000000 MB
" (Time.datetime_at 60000000) (PublishOk None).

(** The started downloader after a line with a failure marker. *)
Definition failed_session : SteamCMDDownloader :=
  fst (monitor_line failure_line started).

(** ** Further vocabulary *)

Definition not_space (c : ascii) : bool := negb (Chars.is_space c).

(** A text without whitespace. *)
Definition no_space (s : string) : Prop := Str.all not_space s = true.

(** The last character of a text is in the class. *)
Fixpoint last_is (p : ascii -> bool) (s : string) : bool :=
  match s with
  | EmptyString => false
  | String c EmptyString => p c
  | String _ s' => last_is p s'
  end.

(** [l] is the beginning of [l']. *)
Definition extends {A} (l l' : list A) : Prop := exists more, l' = (l ++ more)%list.

Definition is_download_op (op : Op) : bool :=
  match op with
  | OpDownload _ _ _ _ _ => true
  | _ => false
  end.

(** The four metrics that measure progress are not negative (and so
    not a NaN, which compares with nothing). *)
Definition metrics_nonneg (d : Download) : Prop :=
  Float.geb (progress d) Float.zero = true
  /\ Float.geb (current_size d) Float.zero = true
  /\ Float.geb (total_size d) Float.zero = true
  /\ Float.geb (speed d) Float.zero = true.

(** The links are absent, or the pair the publisher writes: the
    directory and, under it, the manifest. *)
Definition links_well_formed (links : list Link) : Prop :=
  links = []
  \/ exists public_url,
      links = [ mkLink "Game Files Directory" public_url;
                mkLink "Game Files Manifest" (public_url ++ "/manifest.txt") ].

(** All the file paths of a walk, a line each, nothing left out. *)
Fixpoint all_paths (walk : list WalkEntry) : string :=
  match walk with
  | [] => EmptyString
  | entry :: rest =>
      fold_right (fun file acc => path_join (rel_path entry) file ++ nl ++ acc)
                 (all_paths rest) (files entry)
  end.

(** A walk as [os.walk] and [os.path.relpath] produce it: no directory
    has an empty relative path and no file name starts with a slash. *)
Definition walk_well_formed (walk : list WalkEntry) : Prop :=
  Forall (fun entry =>
            rel_path entry <> EmptyString
            /\ Forall (fun file => prefix "/" file = false) (files entry))
         walk.

(** A shell on which every run of SteamCMD succeeds quietly. *)
Definition quiet_shell (command : string) : RunResult :=
  RunOutput "Steam Console Client (c) Valve Corporation" EmptyString.

(** A shell on which every run reports a login failure. *)
Definition refusing_shell (command : string) : RunResult :=
  RunOutput "Login Failure: Invalid Password" EmptyString.

(** An environment in which SteamCMD cannot be started. *)
Definition no_steamcmd : DownloadEnv :=
  mkDownloadEnv "/srv/steamcmd/steamcmd.sh" "/srv/games"
                (Time.datetime_at 90000000) None
                (Some "[Errno 2] No such file or directory") None.

(** The log entries one output line gives rise to: the line without
    surrounding whitespace and, when the line carries the success
    marker and the publication raises, the report of that failure. *)
Definition line_entries (ev : LineEvent) : list string :=
  Str.strip (line_text ev)
  :: match line_publish ev with
     | PublishRaises msg =>
         if has_success (line_text ev)
         then ["Failed to create public links: " ++ msg]
         else []
     | PublishOk _ => []
     end.

(** The status the markers of a line call for. *)
Definition marker_status (ev : LineEvent) : Status :=
  if has_success (line_text ev) then completed else error.

(** A line with the success marker whose publication raises. *)
Definition unpublished_line : LineEvent :=
  mkLine "Success! App '730' fully installed.
" (Time.datetime_at 60000000) (PublishRaises "[Errno 17] File exists").

(** A line with both markers. *)
Definition mixed_line : LineEvent :=
  mkLine "Success! (after ERROR! retry)
" (Time.datetime_at 62000000) (PublishOk None).

(** A character of a decimal number: a digit or the dot. *)
Definition number_char (c : ascii) : bool :=
  Chars.is_decimal c || Ascii.eqb c ".".

(** The characters a printed integer can start with. *)
Definition digit_or_minus (c : ascii) : bool :=
  Chars.is_decimal c || Ascii.eqb c "-".

(** The text of a duration without its microseconds. *)
Definition str_whole (days seconds : Z) : string :=
  let mm := seconds / 60 in
  let ss := seconds mod 60 in
  let hh := mm / 60 in
  let mm := mm mod 60 in
  let s := Str.of_Z hh ++ ":" ++ Time.pad 2 mm ++ ":" ++ Time.pad 2 ss in
  if days =? 0 then s
  else Str.of_Z days ++ " day"
       ++ (if Z.abs days =? 1 then "" else "s") ++ ", " ++ s.

(** An installation during which the archive cannot be fetched. *)
Definition offline : InstallEnv :=
  mkInstallEnv (Some "ConnectionError") None true.

(** A game directory with the manifest, an executable and one
    subdirectory. *)
Definition sample_walk : list WalkEntry :=
  [ mkWalk "." ["bin"] ["manifest.txt"; "game.exe"];
    mkWalk "bin" [] ["data.pak"] ].

(** A number format for the examples: the whole part only. *)
Definition whole_part (n : nat) (x : spec_float) : string :=
  match Float.to_int x with
  | Ok z => Str.of_Z z
  | Raise _ => "nan"
  end.

(** The application right after a start with SteamCMD in place. *)
Definition installed_app : App := mkApp __init__ true.

(* ================================================================== *)
(** * Properties *)

(** ** Strings and the matcher *)

Section StringFacts.

Variable p : ascii -> bool.

Lemma take_drop (s : string) : (take_while p s ++ drop_while p s)%string = s.
Proof.
  induction s as [|c s IH]; simpl; [reflexivity|].
  destruct (p c); simpl; [now rewrite IH | reflexivity].
Qed.

Lemma all_take_while (s : string) : Str.all p (take_while p s) = true.
Proof.
  induction s as [|c s IH]; simpl; [reflexivity|].
  destruct (p c) eqn:E; simpl; [now rewrite E | reflexivity].
Qed.

Lemma first_drop_while (s : string) : first_is p (drop_while p s) = false.
Proof.
  induction s as [|c s IH]; simpl; [reflexivity|].
  destruct (p c) eqn:E; simpl; [exact IH | exact E].
Qed.

Lemma all_app (a b : string) :
  Str.all p (a ++ b) = Str.all p a && Str.all p b.
Proof.
  induction a as [|c a IH]; simpl; [reflexivity|].
  now rewrite IH, andb_assoc.
Qed.

Lemma drop_while_app (d post : string) :
  Str.all p d = true -> first_is p post = false ->
  drop_while p (d ++ post) = post.
Proof.
  induction d as [|c d IH]; simpl; intros Hd Hpost.
  - destruct post as [|c post]; simpl in *; [reflexivity|].
    now rewrite Hpost.
  - apply andb_true_iff in Hd as [Hc Hd]. rewrite Hc. now apply IH.
Qed.

(** A repetition followed by a continuation that cannot fail stops after
    the longest run. *)
Lemma star_from_total {A} (f : string -> A) (s : string) :
  Re.star_from p s (fun rest => Some (f rest)) = Some (f (drop_while p s)).
Proof.
  induction s as [|c s IH]; simpl; [reflexivity|].
  destruct (p c); [now rewrite IH | reflexivity].
Qed.

End StringFacts.

Lemma string_length_app (a b : string) :
  String.length (a ++ b) = (String.length a + String.length b)%nat.
Proof. induction a as [|c a IH]; simpl; [reflexivity | now rewrite IH]. Qed.

Lemma substring_prefix (a b : string) :
  substring 0 (String.length a) (a ++ b) = a.
Proof.
  induction a as [|c a IH]; simpl.
  - destruct b; reflexivity.
  - now rewrite IH.
Qed.

Lemma consumed_app (a b : string) : Str.consumed (a ++ b) b = a.
Proof.
  unfold Str.consumed. rewrite string_length_app.
  replace (String.length a + String.length b - String.length b)%nat
    with (String.length a) by lia.
  apply substring_prefix.
Qed.

Lemma app_assoc_s (a b c : string) : ((a ++ b) ++ c = a ++ (b ++ c))%string.
Proof. induction a as [|x a IH]; simpl; [reflexivity | now rewrite IH]. Qed.

(** ** Identifier resolution *)

Lemma match_at_app_id (s : string) :
  Re.match_at Re.app_id s =
  match s with
  | String "a" (String "p" (String "p" (String "/" (String c rest)))) =>
      if Chars.is_decimal c
      then Some [(1%nat, String c (take_while Chars.is_decimal rest))]
      else None
  | _ => None
  end.
Proof.
  unfold Re.match_at, Re.app_id. cbn [Re.lits Re.match_here].
  repeat (let c := fresh "c" in
          destruct s as [|c s]; [reflexivity|];
          match goal with
          | |- context [Ascii.eqb ?a c] =>
              destruct (Ascii.eqb_spec a c) as [<-|Hne]
          end;
          [| repeat (destruct c as [[] [] [] [] [] [] [] []];
                     try reflexivity; try congruence)]).
  destruct s as [|c s]; [reflexivity|].
  destruct (Chars.is_decimal c) eqn:Hc; [|reflexivity].
  rewrite (star_from_total Chars.is_decimal
             (fun rest => [(1%nat, Str.consumed (String c s) rest)])).
  do 3 f_equal.
  rewrite <- (take_drop Chars.is_decimal s) at 1.
  change (String c (take_while Chars.is_decimal s
                    ++ drop_while Chars.is_decimal s))%string
    with (String c (take_while Chars.is_decimal s)
          ++ drop_while Chars.is_decimal s)%string.
  apply consumed_app.
Qed.

Lemma match_at_app_id_some (s : string) (caps : Re.captures) :
  Re.match_at Re.app_id s = Some caps ->
  exists d post,
    s = ("app/" ++ d ++ post)%string /\ d <> EmptyString
    /\ Str.all Chars.is_decimal d = true
    /\ first_is Chars.is_decimal post = false
    /\ caps = [(1%nat, d)].
Proof.
  rewrite match_at_app_id. intros H.
  destruct s as [|c1 s]; [discriminate|].
  destruct (Ascii.eqb_spec c1 "a") as [->|N1];
    [|destruct c1 as [[] [] [] [] [] [] [] []]; try discriminate; congruence].
  destruct s as [|c2 s]; [discriminate|].
  destruct (Ascii.eqb_spec c2 "p") as [->|N2];
    [|destruct c2 as [[] [] [] [] [] [] [] []]; try discriminate; congruence].
  destruct s as [|c3 s]; [discriminate|].
  destruct (Ascii.eqb_spec c3 "p") as [->|N3];
    [|destruct c3 as [[] [] [] [] [] [] [] []]; try discriminate; congruence].
  destruct s as [|c4 s]; [discriminate|].
  destruct (Ascii.eqb_spec c4 "/") as [->|N4];
    [|destruct c4 as [[] [] [] [] [] [] [] []]; try discriminate; congruence].
  destruct s as [|c rest]; [discriminate|].
  destruct (Chars.is_decimal c) eqn:Hc; [|discriminate].
  injection H as <-.
  exists (String c (take_while Chars.is_decimal rest)),
         (drop_while Chars.is_decimal rest).
  repeat split.
  - simpl. now rewrite take_drop.
  - discriminate.
  - simpl. now rewrite Hc, all_take_while.
  - apply first_drop_while.
Qed.

Lemma match_at_app_id_none (s : string) :
  Re.match_at Re.app_id s = None -> ~ app_occurs_at EmptyString s.
Proof.
  rewrite match_at_app_id. intros H (c & rest & -> & Hc).
  simpl in H. now rewrite Hc in H.
Qed.

Lemma app_occurs_at_cons (x y : ascii) (pre s : string) :
  app_occurs_at (String x pre) (String y s) -> app_occurs_at pre s.
Proof.
  intros (c & rest & E & Hc). simpl in E. injection E as _ E.
  now exists c, rest.
Qed.

Lemma app_occurs_at_empty (pre : string) : ~ app_occurs_at pre EmptyString.
Proof.
  intros (c & rest & E & _). destruct pre; simpl in E; discriminate.
Qed.

(** A successful search found the leftmost occurrence and captured its
    longest run of digits. *)
Lemma search_app_id_some (s : string) (caps : Re.captures) :
  Re.search Re.app_id s = Some caps ->
  exists pre d post,
    s = (pre ++ "app/" ++ d ++ post)%string /\ d <> EmptyString
    /\ Str.all Chars.is_decimal d = true
    /\ first_is Chars.is_decimal post = false
    /\ caps = [(1%nat, d)]
    /\ forall pre', app_occurs_at pre' s ->
                    (String.length pre <= String.length pre')%nat.
Proof.
  induction s as [|c s IH]; simpl.
  - destruct (Re.match_at Re.app_id "") eqn:E; [|discriminate].
    rewrite match_at_app_id in E. discriminate.
  - destruct (Re.match_at Re.app_id (String c s)) as [m|] eqn:E.
    + intros H. injection H as <-.
      destruct (match_at_app_id_some _ _ E) as (d & post & Hs & Hd).
      exists EmptyString, d, post.
      split; [exact Hs|]. repeat split; try apply Hd. intros; simpl; lia.
    + intros H.
      destruct (IH H) as (pre & d & post & Hs & Hd & Ha & Hp & Hc & Hl).
      exists (String c pre), d, post.
      split; [simpl; now f_equal|]. repeat split; trivial.
      intros [|x pre'] Hocc.
      * exfalso. exact (match_at_app_id_none _ E Hocc).
      * simpl. apply le_n_S, Hl.
        exact (app_occurs_at_cons _ _ _ _ Hocc).
Qed.

Lemma search_app_id_none (s : string) :
  Re.search Re.app_id s = None -> forall pre, ~ app_occurs_at pre s.
Proof.
  induction s as [|c s IH]; simpl.
  - intros _ pre. apply app_occurs_at_empty.
  - destruct (Re.match_at Re.app_id (String c s)) eqn:E; [discriminate|].
    intros H [|x pre] Hocc.
    + exact (match_at_app_id_none _ E Hocc).
    + exact (IH H pre (app_occurs_at_cons _ _ _ _ Hocc)).
Qed.



Lemma isdigit_all (s : string) :
  Str.isdigit s = true <->
  s <> EmptyString /\ Str.all Chars.is_digit s = true.
Proof.
  destruct s; simpl; split.
  - discriminate.
  - intros [H _]. congruence.
  - intros H. split; [discriminate | exact H].
  - intros [_ H]. exact H.
Qed.




(** The two notions of digit differ on the superscript digits, which
    [str.isdigit] accepts and [\d] does not: superscript two on its own
    resolves to itself, and after app/ it is rejected. *)
Example extract_game_id_superscript_digit :
  Str.isdigit superscript_two = true
  /\ Str.all Chars.is_decimal superscript_two = false
  /\ (forall pre, ~ app_occurs_at pre superscript_two)
  /\ _extract_game_id superscript_two = Some superscript_two
  /\ _extract_game_id ("app/" ++ superscript_two) = None
  /\ _extract_game_id ("app/2") = Some "2".
Proof.
  repeat split. apply search_app_id_none. reflexivity.
Qed.

(** ** Download request with an unparseable identifier *)



(** ** Cancellation *)

(** C10. Without a live child process a cancellation request returns
    False and changes nothing; the status in particular stays what it
    was. *)
Theorem cancel_download_no_live_process (self : SteamCMDDownloader) :
  no_live_process self ->
  cancel_download self = (self, false)
  /\ status (current_download (fst (cancel_download self)))
     = status (current_download self).
Proof.
  intros H.
  assert (E : cancel_download self = (self, false)).
  { unfold cancel_download.
    destruct H as [-> | (p & rc & -> & ->)]; reflexivity. }
  now rewrite E.
Qed.

Lemma cancel_download_no_live_process_witness :
  cancel_download __init__ = (__init__, false)
  /\ status (current_download (fst (cancel_download __init__)))
     = status (current_download __init__).
Proof.
  apply cancel_download_no_live_process. left. reflexivity.
Defined.

(** ** Monitor loop *)

Lemma update_sizes_frame (now : datetime) (cur tot : spec_float)
      (d : Download) :
  let d' := fst (update_sizes now cur tot d) in
  game_id d' = game_id d /\ status d' = status d
  /\ start_time d' = start_time d /\ log d' = log d
  /\ progress d' = progress d.
Proof.
  destruct d as [g pr st [t0|] c t sp r l]; unfold update_sizes;
    cbn [start_time set_sizes]; [|now cbn].
  destruct (Float.gtb _ _); [|now cbn].
  cbn [speed set_speed]. destruct (Float.gtb _ _); [|now cbn].
  destruct (Float.to_int _); [|now cbn].
  destruct (Time.timedelta _); now cbn.
Qed.

(** Whether the tail of the parser raises depends on the start time of
    the session only. *)
Lemma update_sizes_snd (now : datetime) (cur tot : spec_float)
      (d1 d2 : Download) :
  start_time d1 = start_time d2 ->
  snd (update_sizes now cur tot d1) = snd (update_sizes now cur tot d2).
Proof.
  destruct d1 as [g1 pr1 st1 t1 c1 tt1 sp1 r1 l1].
  destruct d2 as [g2 pr2 st2 t2 c2 tt2 sp2 r2 l2].
  cbn [start_time]. intros <-. unfold update_sizes.
  cbn [start_time set_sizes]. destruct t1 as [t0|]; [|reflexivity].
  destruct (Float.gtb _ _); [|reflexivity].
  cbn [speed set_speed]. destruct (Float.gtb _ _); [|reflexivity].
  destruct (Float.to_int _); [|reflexivity].
  destruct (Time.timedelta _); reflexivity.
Qed.

(** The parser touches neither identity, status, start time nor log. *)
Lemma parse_line_frame (now : datetime) (line : string) (d : Download) :
  let d' := fst (parse_line now line d) in
  game_id d' = game_id d /\ status d' = status d
  /\ start_time d' = start_time d /\ log d' = log d.
Proof.
  unfold parse_line.
  destruct (Re.search Re.sizes line).
  - destruct (update_sizes_frame now
                (to_MB (Float.of_string (Re.group 1 c)) (Re.group 2 c))
                (to_MB (Float.of_string (Re.group 3 c)) (Re.group 4 c))
                match Re.search Re.percentage line with
                | Some m => set_progress (Float.of_string (Re.group 1 m)) d
                | None => d
                end) as (H1 & H2 & H3 & H4 & _).
    cbv zeta. rewrite H1, H2, H3, H4.
    destruct (Re.search Re.percentage line); now cbn.
  - destruct (Re.search Re.percentage line); now cbn.
Qed.

Lemma parse_line_snd (now : datetime) (line : string) (d1 d2 : Download) :
  start_time d1 = start_time d2 ->
  snd (parse_line now line d1) = snd (parse_line now line d2).
Proof.
  intros H. unfold parse_line.
  destruct (Re.search Re.sizes line); [|reflexivity].
  apply update_sizes_snd.
  destruct (Re.search Re.percentage line); exact H.
Qed.

(** A line in which the size pattern does not match raises nothing. *)
Lemma parse_line_returns (now : datetime) (line : string) (d : Download) :
  Re.search Re.sizes line = None -> snd (parse_line now line d) = None.
Proof. intros H. unfold parse_line. now rewrite H. Qed.

(** The two ways a line is handled: the parser returns and the markers
    are looked at, or the parser raises and they are not. *)
Lemma monitor_line_cases (ev : LineEvent) (self : SteamCMDDownloader) :
  snd (monitor_line ev self) = parser_raises ev self
  /\ fst (monitor_line ev self)
     = match parser_raises ev self with
       | None => after_markers ev (parsed ev self)
       | Some _ => parsed ev self
       end.
Proof.
  unfold parser_raises.
  rewrite (parse_line_snd (line_now ev) (line_text ev) (current_download self)
             (log_append (Str.strip (line_text ev)) (current_download self)))
    by reflexivity.
  unfold monitor_line, _parse_progress, parsed, after_markers, has_success,
    has_failure, with_download.
  cbn [current_download process public_links publisher_calls].
  destruct (parse_line _ _ _) as [d [e|]]; cbn [fst snd]; [now split|].
  destruct (Str.contains "Success!" (line_text ev)); [now split|].
  destruct (_ || _); now split.
Qed.

Lemma monitor_line_returned (ev : LineEvent) (self : SteamCMDDownloader) :
  snd (monitor_line ev self) = None ->
  fst (monitor_line ev self) = after_markers ev (parsed ev self).
Proof.
  destruct (monitor_line_cases ev self) as [E1 E2]. rewrite E1 in *.
  intros H. now rewrite E2, H.
Qed.

Lemma monitor_line_raised (ev : LineEvent) (self : SteamCMDDownloader)
      (e : Exn) :
  snd (monitor_line ev self) = Some e ->
  fst (monitor_line ev self) = parsed ev self.
Proof.
  destruct (monitor_line_cases ev self) as [E1 E2]. rewrite E1 in *.
  intros H. now rewrite E2, H.
Qed.

Lemma parsed_frame (ev : LineEvent) (self : SteamCMDDownloader) :
  status (current_download (parsed ev self)) = status (current_download self)
  /\ log (current_download (parsed ev self))
     = (log (current_download self) ++ [Str.strip (line_text ev)])%list
  /\ game_id (current_download (parsed ev self))
     = game_id (current_download self)
  /\ start_time (current_download (parsed ev self))
     = start_time (current_download self)
  /\ process (parsed ev self) = process self
  /\ public_links (parsed ev self) = public_links self
  /\ publisher_calls (parsed ev self) = publisher_calls self.
Proof.
  unfold parsed, with_download.
  cbn [current_download process public_links publisher_calls].
  destruct (parse_line_frame (line_now ev) (line_text ev)
              (log_append (Str.strip (line_text ev)) (current_download self)))
    as (H1 & H2 & H3 & H4).
  rewrite H1, H2, H3, H4. now cbn.
Qed.

Lemma after_markers_none (ev : LineEvent) (self : SteamCMDDownloader) :
  no_marker ev -> after_markers ev self = self.
Proof. intros [Hs Hf]. unfold after_markers. now rewrite Hs, Hf. Qed.

(** A line without marker, whether the parser raises on it or not. *)
Lemma monitor_line_no_marker (ev : LineEvent) (self : SteamCMDDownloader) :
  no_marker ev ->
  let self' := fst (monitor_line ev self) in
  status (current_download self') = status (current_download self)
  /\ log (current_download self')
     = (log (current_download self) ++ [Str.strip (line_text ev)])%list
  /\ process self' = process self
  /\ public_links self' = public_links self
  /\ publisher_calls self' = publisher_calls self.
Proof.
  intros Hno. cbv zeta.
  destruct (monitor_line_cases ev self) as [_ ->].
  destruct (parsed_frame ev self) as (H1 & H2 & _ & _ & H3 & H4 & H5).
  destruct (parser_raises ev self);
    [|rewrite (after_markers_none _ _ Hno)]; repeat split; assumption.
Qed.

(** The loop unfolded by one line. *)
Lemma monitor_lines_cons (ev : LineEvent) (evs : list LineEvent)
      (self : SteamCMDDownloader) :
  monitor_lines (ev :: evs) self
  = match snd (monitor_line ev self) with
    | None => monitor_lines evs (fst (monitor_line ev self))
    | Some e => (fst (monitor_line ev self), Some e)
    end.
Proof.
  cbn [monitor_lines]. destruct (monitor_line ev self) as [s [e|]]; reflexivity.
Qed.

(** A loop that ends without exception handled its first line without
    exception, and the lines after it as well. *)
Lemma monitor_lines_cons_returned (ev : LineEvent) (evs : list LineEvent)
      (self : SteamCMDDownloader) :
  snd (monitor_lines (ev :: evs) self) = None ->
  snd (monitor_line ev self) = None
  /\ monitor_lines (ev :: evs) self
     = monitor_lines evs (fst (monitor_line ev self)).
Proof.
  rewrite monitor_lines_cons.
  destruct (snd (monitor_line ev self)); [discriminate|]. now split.
Qed.

Lemma monitor_lines_app (evs1 evs2 : list LineEvent)
      (self : SteamCMDDownloader) :
  monitor_lines (evs1 ++ evs2) self
  = match snd (monitor_lines evs1 self) with
    | None => monitor_lines evs2 (fst (monitor_lines evs1 self))
    | Some e => (fst (monitor_lines evs1 self), Some e)
    end.
Proof.
  revert self. induction evs1 as [|ev evs1 IH]; intros self; [reflexivity|].
  cbn [app]. rewrite !monitor_lines_cons.
  destruct (snd (monitor_line ev self)); [reflexivity|]. apply IH.
Qed.

(** Lines without marker: the status stays, and the log takes the lines
    the loop has reached, all of them when no exception ends it. *)
Lemma monitor_lines_no_marker (evs : list LineEvent)
      (self : SteamCMDDownloader) :
  Forall no_marker evs ->
  let self' := fst (monitor_lines evs self) in
  status (current_download self') = status (current_download self)
  /\ (snd (monitor_lines evs self) = None ->
      log (current_download self')
      = (log (current_download self)
         ++ map (fun ev => Str.strip (line_text ev)) evs)%list)
  /\ process self' = process self
  /\ public_links self' = public_links self
  /\ publisher_calls self' = publisher_calls self.
Proof.
  intros H. revert self. induction H as [|ev evs Hev _ IH]; intros self.
  - cbn. rewrite app_nil_r. repeat split.
  - cbv zeta. rewrite monitor_lines_cons.
    destruct (monitor_line_no_marker ev self Hev) as (A1 & A2 & A3 & A4 & A5).
    destruct (snd (monitor_line ev self)) eqn:E.
    + cbn [fst snd]. repeat split; try assumption. discriminate.
    + destruct (IH (fst (monitor_line ev self))) as (B1 & B2 & B3 & B4 & B5).
      cbv zeta in *.
      rewrite B1, B3, B4, B5, A1, A3, A4, A5. repeat split.
      intros Hn. rewrite (B2 Hn), A2. cbn [map]. now rewrite <- app_assoc.
Qed.

(** The monitor loop on a run that starts in status downloading and
    sees no success or failure marker, as long as no exception leaves
    the parser: the status is still downloading when the child exits,
    the run ends in status error, and the session log is the log before
    the run, the lines of the run (stripped), and last the entry Process
    ended unexpectedly, which contains the word unexpected. *)
Lemma monitor_exit_without_marker
      (evs : list LineEvent) (rc : Z) (self : SteamCMDDownloader) :
  process self <> None ->
  status (current_download self) = downloading ->
  Forall no_marker evs ->
  snd (monitor_lines evs self) = None ->
  status (current_download (fst (monitor_lines evs self))) = downloading
  /\ exists self',
      _monitor_download_progress evs rc self = (self', None)
      /\ status (current_download self') = error
      /\ log (current_download self')
         = (log (current_download self)
            ++ map (fun ev => Str.strip (line_text ev)) evs
            ++ ["Process ended unexpectedly"])%list
      /\ Str.contains "unexpected" "Process ended unexpectedly" = true.
Proof.
  intros Hp Hst Hno Hret.
  destruct (monitor_lines_no_marker evs self Hno) as (A1 & A2 & A3 & _).
  cbv zeta in *. specialize (A2 Hret). split; [congruence|].
  unfold _monitor_download_progress, monitor_end.
  destruct (process self) as [p|] eqn:Ep; [|congruence].
  destruct (monitor_lines evs self) as [final raised]. cbn [fst snd] in *.
  subst raised. rewrite A3.
  cbn [set_process current_download].
  rewrite A1, Hst. cbn [Status_eqb].
  eexists. split; [reflexivity|].
  cbn. rewrite A2, <- app_assoc. repeat split.
Qed.

Lemma monitor_exit_without_marker_example :
  status (current_download (fst (monitor_lines [quiet_line] started)))
  = downloading
  /\ exists self',
      _monitor_download_progress [quiet_line] 1 started = (self', None)
      /\ status (current_download self') = error
      /\ log (current_download self')
         = (log (current_download started)
            ++ map (fun ev => Str.strip (line_text ev)) [quiet_line]
            ++ ["Process ended unexpectedly"])%list
      /\ Str.contains "unexpected" "Process ended unexpectedly" = true.
Proof.
  apply monitor_exit_without_marker.
  - discriminate.
  - reflexivity.
  - repeat constructor.
  - reflexivity.
Defined.

(** C7 fails in the code on a run in which the parser raises.  The
    child writes the line 1 MB / 100000000000000 MB, then a progress
    line, and exits; the run starts in status downloading and no line
    carries a marker.  The remaining time of the first line is beyond
    the range of timedelta: OverflowError leaves the parser and ends the
    monitor thread.  The status is downloading for good, the second line
    is not logged and no entry with the word unexpected is appended. *)
Theorem monitor_exit_after_parser_exception :
  process started <> None
  /\ status (current_download started) = downloading
  /\ Forall no_marker [overflow_line; quiet_line]
  /\ exists self',
      _monitor_download_progress [overflow_line; quiet_line] 0 started
      = (self', Some OverflowError)
      /\ status (current_download self') = downloading
      /\ status (current_download self') <> error
      /\ log (current_download self') = ["1 MB / 100000000000000 MB"]
      /\ Forall (fun entry => Str.contains "unexpected" entry = false)
                (log (current_download self'))
      /\ process self' = process started.
Proof.
  split; [discriminate|]. split; [reflexivity|].
  split; [repeat constructor|].
  eexists. split; [vm_compute; reflexivity|].
  split; [reflexivity|]. split; [discriminate|]. split; [reflexivity|].
  split; [repeat constructor | reflexivity].
Qed.

(** *** Success marker *)


Lemma after_markers_success (ev : LineEvent) (self : SteamCMDDownloader) :
  has_success (line_text ev) = true ->
  let self' := after_markers ev self in
  status (current_download self') = completed
  /\ progress (current_download self') = Float.of_Z 100
  /\ publisher_calls self' = S (publisher_calls self).
Proof.
  intros Hs. unfold after_markers. rewrite Hs. cbv zeta.
  unfold _create_public_links. destruct (line_publish ev); now cbn.
Qed.

Lemma monitor_line_success (ev : LineEvent) (self : SteamCMDDownloader) :
  has_success (line_text ev) = true ->
  snd (monitor_line ev self) = None ->
  let self' := fst (monitor_line ev self) in
  status (current_download self') = completed
  /\ progress (current_download self') = Float.of_Z 100
  /\ publisher_calls self' = S (publisher_calls self).
Proof.
  intros Hs Hret. cbv zeta. rewrite (monitor_line_returned _ _ Hret).
  destruct (after_markers_success ev (parsed ev self) Hs) as (A & B & C).
  destruct (parsed_frame ev self) as (_ & _ & _ & _ & _ & _ & D).
  cbv zeta in *. now rewrite A, B, C, D.
Qed.


Lemma after_markers_process (ev : LineEvent) (self : SteamCMDDownloader) :
  process (after_markers ev self) = process self.
Proof.
  unfold after_markers.
  destruct (has_success (line_text ev)).
  - unfold _create_public_links. destruct (line_publish ev); reflexivity.
  - destruct (has_failure _); reflexivity.
Qed.



Lemma monitor_line_process (ev : LineEvent) (self : SteamCMDDownloader) :
  process (fst (monitor_line ev self)) = process self.
Proof.
  destruct (monitor_line_cases ev self) as [_ ->].
  destruct (parsed_frame ev self) as (_ & _ & _ & _ & H & _).
  destruct (parser_raises ev self); [|rewrite after_markers_process]; exact H.
Qed.

Lemma monitor_lines_process (evs : list LineEvent)
      (self : SteamCMDDownloader) :
  process (fst (monitor_lines evs self)) = process self.
Proof.
  revert self. induction evs as [|ev evs IH]; intros self; [reflexivity|].
  rewrite monitor_lines_cons.
  destruct (snd (monitor_line ev self)); cbn [fst];
    [|rewrite IH]; apply monitor_line_process.
Qed.


Lemma monitor_end_frame (rc : Z) (self : SteamCMDDownloader) :
  let self' := fst (monitor_end rc self) in
  publisher_calls self' = publisher_calls self
  /\ public_links self' = public_links self
  /\ progress (current_download self') = progress (current_download self)
  /\ (status (current_download self) <> downloading ->
      status (current_download self') = status (current_download self)).
Proof.
  unfold monitor_end. destruct (process self); [|now cbn].
  cbn [set_process current_download].
  destruct (Status_eqb (status (current_download self)) downloading) eqn:E;
    cbn; repeat split; trivial.
  intros N. destruct (status (current_download self)); cbn in E;
    congruence.
Qed.

Lemma monitor_end_returns (rc : Z) (self : SteamCMDDownloader) :
  process self <> None -> snd (monitor_end rc self) = None.
Proof.
  unfold monitor_end. destruct (process self); [|congruence]. intros _.
  cbn [set_process current_download]. now destruct (Status_eqb _ _).
Qed.

(** A run of the monitor that ends without exception: its loop did, and
    the state is that of the step after the loop. *)
Lemma monitor_returned (evs : list LineEvent) (rc : Z)
      (self self' : SteamCMDDownloader) :
  _monitor_download_progress evs rc self = (self', None) ->
  process self <> None
  /\ snd (monitor_lines evs self) = None
  /\ self' = fst (monitor_end rc (fst (monitor_lines evs self))).
Proof.
  unfold _monitor_download_progress. destruct (process self); [|discriminate].
  destruct (monitor_lines evs self) as [s [e|]]; [discriminate|].
  cbn [fst snd]. intros H. rewrite H. now repeat split.
Qed.





(** ** Terminal statuses *)

(** C1, as the code has it.  With a status of completed, error or
    cancelled: a line without success or failure marker leaves the
    status as it is, so does a line on which the parser raises, so does
    the end of the monitor loop, and so does a cancellation request when
    no child process is live.  A line with a marker on which the parser
    does not raise sets the status of its marker and a cancellation
    request with a live child process sets cancelled, whatever the
    status was. *)
Theorem terminal_status_kept (self : SteamCMDDownloader) :
  terminal (status (current_download self)) ->
  (forall ev, no_marker ev ->
     status (current_download (fst (monitor_line ev self)))
     = status (current_download self))
  /\ (forall ev e, snd (monitor_line ev self) = Some e ->
        status (current_download (fst (monitor_line ev self)))
        = status (current_download self))
  /\ (forall rc,
        status (current_download (fst (monitor_end rc self)))
        = status (current_download self))
  /\ (no_live_process self ->
      status (current_download (fst (cancel_download self)))
      = status (current_download self))
  /\ (forall ev, has_success (line_text ev) = true ->
        snd (monitor_line ev self) = None ->
        status (current_download (fst (monitor_line ev self))) = completed)
  /\ (forall ev, has_success (line_text ev) = false ->
        has_failure (line_text ev) = true ->
        snd (monitor_line ev self) = None ->
        status (current_download (fst (monitor_line ev self))) = error)
  /\ (live_process self ->
      status (current_download (fst (cancel_download self))) = cancelled).
Proof.
  intros Ht.
  split; [|split; [|split; [|split; [|split; [|split]]]]].
  - intros ev Hno. apply (monitor_line_no_marker ev self Hno).
  - intros ev e H. rewrite (monitor_line_raised _ _ _ H).
    apply (parsed_frame ev self).
  - intros rc. apply (monitor_end_frame rc self).
    destruct Ht as [-> | [-> | ->]]; discriminate.
  - intros H. unfold cancel_download.
    destruct H as [Hp | (p & rc & Hp & Hr)]; rewrite Hp;
      [|rewrite Hr]; reflexivity.
  - intros ev H Hret. apply (monitor_line_success ev self H Hret).
  - intros ev Hs Hf Hret. rewrite (monitor_line_returned _ _ Hret).
    unfold after_markers. rewrite Hs, Hf. reflexivity.
  - intros (p & Hp & Hr). unfold cancel_download. now rewrite Hp, Hr.
Qed.

Lemma terminal_status_kept_witness :
  status (current_download (fst (monitor_line quiet_line failed_session)))
  = error
  /\ status (current_download
               (fst (monitor_line success_overflow_line failed_session)))
     = error
  /\ status (current_download
               (fst (cancel_download (fst (monitor_line failure_line __init__)))))
     = error.
Proof.
  split; [|split].
  - apply (proj1 (terminal_status_kept failed_session
                    (or_intror (or_introl eq_refl)))).
    repeat constructor.
  - apply (proj1 (proj2 (terminal_status_kept failed_session
                           (or_intror (or_introl eq_refl)))))
      with (e := OverflowError).
    reflexivity.
  - apply (proj1 (proj2 (proj2 (proj2 (terminal_status_kept
                                  (fst (monitor_line failure_line __init__))
                                  (or_intror (or_introl eq_refl))))))).
    left. reflexivity.
Defined.

(** C1 as stated fails: with status error and the child still running,
    a cancellation request changes the status to cancelled, and a later
    line with the success marker changes it to completed. *)
Lemma terminal_status_counterexample :
  terminal (status (current_download failed_session))
  /\ live_process failed_session
  /\ status (current_download (fst (cancel_download failed_session)))
     = cancelled
  /\ status (current_download (fst (cancel_download failed_session)))
     <> status (current_download failed_session)
  /\ status (current_download
               (fst (monitor_line success_line failed_session)))
     = completed
  /\ status (current_download
               (fst (monitor_line success_line failed_session)))
     <> status (current_download failed_session).
Proof.
  split; [right; left; reflexivity|].
  split; [eexists; split; reflexivity|].
  repeat split; discriminate.
Qed.

(** ** Published links *)

Lemma download_game_links (game_input username password : string)
      (anonymous : bool) (env : DownloadEnv) (self : SteamCMDDownloader) :
  public_links
    (fst (download_game game_input username password anonymous env self))
  = public_links self.
Proof.
  unfold download_game.
  destruct (falsy _); [reflexivity|].
  destruct (makedirs_error env); [reflexivity|].
  destruct (popen_error env); [reflexivity|].
  destruct (thread_error env); reflexivity.
Qed.

Lemma monitor_line_links (ev : LineEvent) (self : SteamCMDDownloader) :
  has_success (line_text ev) = false ->
  public_links (fst (monitor_line ev self)) = public_links self.
Proof.
  intros Hs. destruct (monitor_line_cases ev self) as [_ ->].
  destruct (parsed_frame ev self) as (_ & _ & _ & _ & _ & H & _).
  destruct (parser_raises ev self); [exact H|].
  unfold after_markers. rewrite Hs. now destruct (has_failure _).
Qed.

Lemma apply_op_links (self : SteamCMDDownloader) (op : Op) :
  is_success_op op = false ->
  public_links (apply_op self op) = public_links self.
Proof.
  destruct op as [g u pw a env | | ev | rc | rc]; cbn [apply_op is_success_op].
  - intros _. apply download_game_links.
  - intros _. unfold cancel_download.
    destruct (process self) as [p|]; [|reflexivity].
    destruct (returncode p); reflexivity.
  - intros Hs. destruct (process self); [|reflexivity].
    now apply monitor_line_links.
  - intros _. apply (monitor_end_frame rc self).
  - intros _. destruct (process self); reflexivity.
Qed.

Lemma fold_apply_op_links (ops : list Op) (self : SteamCMDDownloader) :
  forallb (fun op => negb (is_success_op op)) ops = true ->
  public_links (fold_left apply_op ops self) = public_links self.
Proof.
  revert self. induction ops as [|op ops IH]; intros self; [reflexivity|].
  cbn [forallb fold_left]. intros H. apply andb_true_iff in H as [H1 H2].
  rewrite IH by exact H2. apply apply_op_links.
  now apply negb_true_iff.
Qed.

(** What the code does with the links.  The status report exposes the
    links the downloader holds.  They are empty as long as the monitor
    loop has handled no line with the success marker, and no operation
    other than the handling of such a line changes them: a download
    request resets the session and leaves the links in place. *)
Theorem published_links_kept :
  (forall now self,
      r_public_links (get_download_status now self) = public_links self)
  /\ (forall ops,
         forallb (fun op => negb (is_success_op op)) ops = true ->
         public_links (run ops) = [])
  /\ (forall self op,
         is_success_op op = false ->
         public_links (apply_op self op) = public_links self)
  /\ (forall game_input username password anonymous env self,
         public_links
           (fst (download_game game_input username password anonymous env
                               self))
         = public_links self).
Proof.
  repeat split.
  - intros ops H. unfold run. now rewrite fold_apply_op_links.
  - exact apply_op_links.
  - exact download_game_links.
Qed.

Lemma published_links_kept_example :
  public_links (run [OpDownload "730" "user" "secret" true sample_env;
                     OpLine quiet_line; OpCancel]) = []
  /\ public_links (apply_op started OpCancel) = public_links started.
Proof.
  split.
  - apply (proj1 (proj2 published_links_kept)). reflexivity.
  - apply (proj1 (proj2 (proj2 published_links_kept))). reflexivity.
Defined.

(** C2.  The reset of a download request misses the links.  After a
    completed download of app 730, a download request for app 440
    leaves the session in status downloading (in status preparing when
    the working directory cannot be created) while the status report
    still exposes the two links of app 730. *)
Theorem stale_links_after_new_download :
  let after :=
    run [OpDownload "730" "user" "secret" true sample_env;
         OpLine success_line;
         OpDownload "440" "user" "secret" true sample_env] in
  let stuck :=
    run [OpDownload "730" "user" "secret" true sample_env;
         OpLine success_line;
         OpDownload "440" "user" "secret" true no_games_dir] in
  let now := Time.datetime_at 95000000 in
  r_status (get_download_status now after) = downloading
  /\ r_game_id (get_download_status now after) = Some "440"
  /\ r_public_links (get_download_status now after)
     = [ mkLink "Game Files Directory"
                "http://localhost:7860/public/app_730";
         mkLink "Game Files Manifest"
                "http://localhost:7860/public/app_730/manifest.txt" ]
  /\ r_status (get_download_status now stuck) = preparing
  /\ r_public_links (get_download_status now stuck) <> [].
Proof. vm_compute. repeat split. discriminate. Qed.

(** ** What a match means *)

Lemma star_from_sound {A} (p : ascii -> bool) (s : string)
      (k : string -> option A) (res : A) :
  Re.star_from p s k = Some res ->
  exists s1 s2, s = (s1 ++ s2)%string /\ Str.all p s1 = true
                /\ k s2 = Some res.
Proof.
  induction s as [|c s IH]; simpl.
  - intros H. now exists EmptyString, EmptyString.
  - destruct (p c) eqn:Hc.
    + destruct (Re.star_from p s k) as [r|] eqn:E.
      * intros H. injection H as ->.
        destruct (IH eq_refl) as (s1 & s2 & -> & Ha & Hk).
        exists (String c s1), s2. simpl. now rewrite Hc, Ha.
      * intros H. now exists EmptyString, (String c s).
    + intros H. now exists EmptyString, (String c s).
Qed.

(** Whatever the matcher accepts is a match: the text it consumed is in
    the language of the pattern, with the captures it recorded. *)
Lemma match_here_sound (r : Re.regex) :
  forall s caps k res,
    Re.match_here r s caps k = Some res ->
    exists s1 s2 c1,
      s = (s1 ++ s2)%string /\ lang r s1 c1
      /\ k s2 (c1 ++ caps)%list = Some res.
Proof.
  induction r as [c | p | r1 IH1 r2 IH2 | r IH | p | p | n r IH];
    intros s caps k res; cbn [Re.match_here].
  - destruct s as [|c' s]; [discriminate|].
    destruct (Ascii.eqb_spec c c') as [<-|]; [|discriminate].
    intros H. exists (String c EmptyString), s, []. repeat split; trivial.
    constructor.
  - destruct s as [|c' s]; [discriminate|].
    destruct (p c') eqn:Hc; [|discriminate].
    intros H. exists (String c' EmptyString), s, []. repeat split; trivial.
    now constructor.
  - intros H. apply IH1 in H as (s1 & s2 & c1 & -> & L1 & H).
    apply IH2 in H as (s3 & s4 & c2 & -> & L2 & H).
    exists (s1 ++ s3)%string, s4, (c2 ++ c1)%list.
    rewrite app_assoc_s, <- app_assoc. repeat split; trivial.
    now constructor.
  - destruct (Re.match_here r s caps k) as [res'|] eqn:E.
    + intros H. injection H as ->.
      apply IH in E as (s1 & s2 & c1 & -> & L & H).
      exists s1, s2, c1. repeat split; trivial. now constructor.
    + intros H. exists EmptyString, s, []. repeat split; trivial.
      apply lang_opt_none.
  - intros H. apply star_from_sound in H as (s1 & s2 & -> & Ha & H).
    exists s1, s2, []. repeat split; trivial. now constructor.
  - destruct s as [|c' s]; [discriminate|].
    destruct (p c') eqn:Hc; [|discriminate].
    intros H. apply star_from_sound in H as (s1 & s2 & -> & Ha & H).
    exists (String c' s1), s2, []. repeat split; trivial.
    constructor; [discriminate|]. simpl. now rewrite Hc.
  - intros H. apply IH in H as (s1 & s2 & c1 & -> & L & H).
    rewrite consumed_app in H.
    exists s1, s2, ((n, s1) :: c1). repeat split; trivial.
    now constructor.
Qed.

(** A successful search found a match somewhere in the line. *)
Lemma search_sound (r : Re.regex) (s : string) (m : Re.captures) :
  Re.search r s = Some m ->
  exists pre txt post, s = (pre ++ txt ++ post)%string /\ lang r txt m.
Proof.
  induction s as [|c s IH]; cbn [Re.search].
  - destruct (Re.match_at r "") as [m'|] eqn:E; [|discriminate].
    intros H. injection H as ->. unfold Re.match_at in E.
    apply match_here_sound in E as (s1 & s2 & c1 & Hs & L & H).
    injection H as <-. rewrite app_nil_r.
    exists EmptyString, s1, s2. now split.
  - destruct (Re.match_at r (String c s)) as [m'|] eqn:E.
    + intros H. injection H as ->. unfold Re.match_at in E.
      apply match_here_sound in E as (s1 & s2 & c1 & Hs & L & H).
      injection H as <-. rewrite app_nil_r.
      exists EmptyString, s1, s2. now split.
    + intros H. destruct (IH H) as (pre & txt & post & -> & L).
      exists (String c pre), txt, post. now split.
Qed.

Lemma lang_number (s : string) (c : Re.captures) :
  lang Re.number s c -> is_number s /\ c = [].
Proof.
  unfold Re.number. intros H.
  inversion H as [ | | r1 r2 s1 s2 c1 c2 L1 L2 | | | | | ]; subst.
  inversion L1; subst.
  inversion L2 as [ | | r1 r2 s3 s4 c3 c4 L3 L4 | | | | | ]; subst.
  inversion L4; subst.
  inversion L3 as [ | | | r s c L5 | | | | ]; subst.
  - inversion L5; subst. split; [|reflexivity].
    exists s1, ".", s4. repeat split; trivial. now right.
  - split; [|reflexivity].
    exists s1, EmptyString, s4. repeat split; trivial. now left.
Qed.

(** A match of the percentage pattern is a number followed by a percent
    sign; group 1 is the number. *)
Lemma lang_percentage (s : string) (m : Re.captures) :
  lang Re.percentage s m ->
  exists num, s = (num ++ "%")%string /\ is_number num /\ m = [(1%nat, num)].
Proof.
  unfold Re.percentage. intros H.
  inversion H as [ | | r1 r2 s1 s2 c1 c2 L1 L2 | | | | | ]; subst.
  inversion L2; subst.
  inversion L1 as [ | | | | | | | n r s c L3 ]; subst.
  apply lang_number in L3 as [Hn ->].
  exists s1. repeat split; trivial.
Qed.

(** A match of the size pattern is number, space, word, space, slash,
    space, number, space, word; the groups are these four parts. *)
Lemma lang_sizes (s : string) (m : Re.captures) :
  lang Re.sizes s m ->
  exists n1 u1 n2 u2,
    s = (n1 ++ " " ++ u1 ++ " / " ++ n2 ++ " " ++ u2)%string
    /\ is_number n1 /\ is_unit_word u1 /\ is_number n2 /\ is_unit_word u2
    /\ m = [(4%nat, u2); (3%nat, n2); (2%nat, u1); (1%nat, n1)].
Proof.
  unfold Re.sizes. cbn [Re.lits]. intros H.
  repeat match goal with
         | L : lang (Re.Cat _ _) _ _ |- _ => inversion L; subst; clear L
         | L : lang (Re.Lit _) _ _ |- _ => inversion L; subst; clear L
         | L : lang (Re.Group _ _) _ _ |- _ => inversion L; subst; clear L
         | L : lang (Re.Plus _) _ _ |- _ => inversion L; subst; clear L
         | L : lang Re.number _ _ |- _ => apply lang_number in L as [? ->]
         end.
  match goal with
  | |- exists n1 u1 n2 u2,
        (?a ++ " " ++ ?b ++ _ ++ _ ++ _ ++ ?c ++ " " ++ ?d)%string = _ /\ _ =>
      exists a, b, c, d
  end.
  repeat split; trivial.
Qed.

Lemma has_char_app (c : ascii) (a b : string) :
  has_char c (a ++ b) = has_char c a || has_char c b.
Proof.
  induction a as [|x a IH]; simpl; [reflexivity|].
  now rewrite IH, orb_assoc.
Qed.

(** A line without percent sign has no percentage, a line without slash
    has no size expression. *)
Lemma no_percent_sign (line : string) :
  has_char "%" line = false -> Re.search Re.percentage line = None.
Proof.
  intros H. destruct (Re.search Re.percentage line) as [m|] eqn:E;
    [|reflexivity].
  apply search_sound in E as (pre & txt & post & -> & L).
  apply lang_percentage in L as (num & -> & _).
  rewrite !has_char_app in H. cbn in H.
  rewrite !orb_true_r in H. discriminate.
Qed.

Lemma no_slash (line : string) :
  has_char "/" line = false -> Re.search Re.sizes line = None.
Proof.
  intros H. destruct (Re.search Re.sizes line) as [m|] eqn:E; [|reflexivity].
  apply search_sound in E as (pre & txt & post & -> & L).
  apply lang_sizes in L as (n1 & u1 & n2 & u2 & -> & _).
  rewrite !has_char_app in H. cbn in H.
  rewrite !orb_true_r in H. discriminate.
Qed.

(** ** Size expressions the matcher finds *)

Lemma star_from_greedy {A} (p : ascii -> bool) (d rest : string)
      (k : string -> option A) (res : A) :
  Str.all p d = true -> first_is p rest = false -> k rest = Some res ->
  Re.star_from p (d ++ rest) k = Some res.
Proof.
  intros Hd Hr Hk. induction d as [|c d IH]; simpl in *.
  - destruct rest as [|c rest]; simpl in *; [exact Hk|]. now rewrite Hr.
  - apply andb_true_iff in Hd as [Hc Hd]. rewrite Hc. now rewrite IH.
Qed.

Lemma plus_greedy (p : ascii -> bool) (d rest : string) caps k res :
  d <> EmptyString -> Str.all p d = true -> first_is p rest = false ->
  k rest caps = Some res ->
  Re.match_here (Re.Plus p) (d ++ rest) caps k = Some res.
Proof.
  intros Hne Hd Hr Hk. destruct d as [|c d]; [congruence|].
  simpl in *. apply andb_true_iff in Hd as [Hc Hd]. rewrite Hc.
  now apply (star_from_greedy p d rest (fun s => k s caps)).
Qed.

Lemma match_here_cat r1 r2 s caps k :
  Re.match_here (Re.Cat r1 r2) s caps k
  = Re.match_here r1 s caps (fun s1 caps1 => Re.match_here r2 s1 caps1 k).
Proof. reflexivity. Qed.

Lemma match_here_lit c s caps k :
  Re.match_here (Re.Lit c) (String c s) caps k = k s caps.
Proof. cbn [Re.match_here]. now rewrite Ascii.eqb_refl. Qed.

Lemma match_here_group n r s caps k :
  Re.match_here (Re.Group n r) s caps k
  = Re.match_here r s caps
      (fun s' caps' => k s' ((n, Str.consumed s s') :: caps')).
Proof. reflexivity. Qed.

Lemma number_greedy (int frac rest : string) (dotted : bool) caps k res :
  int <> EmptyString -> Str.all Chars.is_decimal int = true ->
  Str.all Chars.is_decimal frac = true ->
  (dotted = false -> frac = EmptyString) ->
  first_is Chars.is_decimal rest = false ->
  first_is (Ascii.eqb ".") rest = false ->
  k rest caps = Some res ->
  Re.match_here Re.number
    (int ++ (if dotted then "." ++ frac ++ rest else rest)) caps k
  = Some res.
Proof.
  intros Hne Hi Hf Hd Hr Hdot Hk. unfold Re.number.
  rewrite match_here_cat. apply plus_greedy; trivial.
  - destruct dotted; [reflexivity | exact Hr].
  - rewrite match_here_cat. destruct dotted.
    + change ("." ++ frac ++ rest)%string with (String "." (frac ++ rest)).
      cbn [Re.match_here]. rewrite Ascii.eqb_refl.
      now rewrite (star_from_greedy Chars.is_decimal frac rest
                     (fun s => k s caps) res).
    + destruct rest as [|c rest]; cbn [Re.match_here Re.star_from].
      * exact Hk.
      * cbn [first_is] in Hr, Hdot. rewrite Hdot, Hr. exact Hk.
Qed.

Lemma number_text_app (int frac : string) (dotted : bool) (rest : string) :
  (number_text int frac dotted ++ rest)%string
  = (int ++ (if dotted then "." ++ frac ++ rest else rest))%string.
Proof.
  unfold number_text. rewrite app_assoc_s. destruct dotted; [|reflexivity].
  now rewrite app_assoc_s.
Qed.

Lemma group_number_greedy (n : nat) (int frac rest : string) (dotted : bool)
      caps k res :
  int <> EmptyString -> Str.all Chars.is_decimal int = true ->
  Str.all Chars.is_decimal frac = true ->
  (dotted = false -> frac = EmptyString) ->
  k (String " " rest) ((n, number_text int frac dotted) :: caps) = Some res ->
  Re.match_here (Re.Group n Re.number)
    (number_text int frac dotted ++ String " " rest) caps k
  = Some res.
Proof.
  intros Hne Hi Hf Hd Hk. rewrite match_here_group.
  rewrite number_text_app.
  apply number_greedy; trivial.
  rewrite <- number_text_app, consumed_app. exact Hk.
Qed.

Lemma group_word_greedy (n : nat) (u rest : string) caps k res :
  u <> EmptyString -> Str.all Chars.is_word u = true ->
  first_is Chars.is_word rest = false ->
  k rest ((n, u) :: caps) = Some res ->
  Re.match_here (Re.Group n (Re.Plus Chars.is_word)) (u ++ rest) caps k
  = Some res.
Proof.
  intros Hne Hu Hr Hk. rewrite match_here_group.
  apply plus_greedy; trivial. now rewrite consumed_app.
Qed.

(** A size expression written as the spec has it, at the start of the
    text and not followed by a word character, is matched with its four
    parts as groups. *)
Lemma match_at_sizes_found
      (int1 frac1 int2 frac2 u1 u2 post : string) (dot1 dot2 : bool) :
  int1 <> EmptyString -> Str.all Chars.is_decimal int1 = true ->
  Str.all Chars.is_decimal frac1 = true ->
  (dot1 = false -> frac1 = EmptyString) ->
  int2 <> EmptyString -> Str.all Chars.is_decimal int2 = true ->
  Str.all Chars.is_decimal frac2 = true ->
  (dot2 = false -> frac2 = EmptyString) ->
  is_unit_word u1 -> is_unit_word u2 ->
  first_is Chars.is_word post = false ->
  Re.match_at Re.sizes
    (number_text int1 frac1 dot1 ++ " " ++ u1 ++ " / "
     ++ number_text int2 frac2 dot2 ++ " " ++ u2 ++ post)
  = Some [(4%nat, u2); (3%nat, number_text int2 frac2 dot2);
          (2%nat, u1); (1%nat, number_text int1 frac1 dot1)].
Proof.
  intros N1 I1 F1 D1 N2 I2 F2 D2 [U1 W1] [U2 W2] Hp.
  unfold Re.match_at, Re.sizes. cbn [Re.lits].
  rewrite match_here_cat.
  change (" " ++ u1 ++ " / " ++ number_text int2 frac2 dot2 ++ " " ++ u2
          ++ post)%string
    with (String " " (u1 ++ String " " (String "/" (String " "
            (number_text int2 frac2 dot2 ++ String " " (u2 ++ post)))))).
  apply group_number_greedy; trivial.
  rewrite match_here_cat, match_here_lit, match_here_cat.
  apply group_word_greedy; trivial.
  rewrite !match_here_cat, !match_here_lit.
  apply group_number_greedy; trivial.
  change (Re.match_here
            (Re.Cat (Re.Lit " ") (Re.Group 4 (Re.Plus Chars.is_word)))
            (String " " (u2 ++ post))
            [(3%nat, number_text int2 frac2 dot2); (2%nat, u1);
             (1%nat, number_text int1 frac1 dot1)]
            (fun _ caps => Some caps)
          = Some [(4%nat, u2); (3%nat, number_text int2 frac2 dot2);
                  (2%nat, u1); (1%nat, number_text int1 frac1 dot1)]).
  rewrite match_here_cat, match_here_lit.
  now apply group_word_greedy.
Qed.

Lemma match_at_sizes_no_decimal (c : ascii) (s : string) :
  Chars.is_decimal c = false -> Re.match_at Re.sizes (String c s) = None.
Proof.
  intros H. unfold Re.match_at, Re.sizes, Re.number.
  rewrite match_here_cat, match_here_group, match_here_cat.
  cbn [Re.match_here]. now rewrite H.
Qed.

Lemma search_sizes_skip (pre s : string) :
  Str.all no_decimal pre = true ->
  Re.search Re.sizes (pre ++ s) = Re.search Re.sizes s.
Proof.
  induction pre as [|c pre IH]; [reflexivity|].
  cbn [Str.all]. intros H. apply andb_true_iff in H as [Hc Hp].
  change (String c pre ++ s)%string with (String c (pre ++ s)).
  cbn [Re.search]. rewrite match_at_sizes_no_decimal.
  - now apply IH.
  - unfold no_decimal in Hc. now apply negb_true_iff.
Qed.

Lemma known_unit_word (u : string) : known_unit u -> is_unit_word u.
Proof. intros [-> | [-> | ->]]; split; (discriminate || reflexivity). Qed.

(** A size expression after a text without digits is what the search
    returns. *)
Lemma search_sizes_found
      (pre int1 frac1 int2 frac2 u1 u2 post : string) (dot1 dot2 : bool) :
  Str.all no_decimal pre = true ->
  int1 <> EmptyString -> Str.all Chars.is_decimal int1 = true ->
  Str.all Chars.is_decimal frac1 = true ->
  (dot1 = false -> frac1 = EmptyString) ->
  int2 <> EmptyString -> Str.all Chars.is_decimal int2 = true ->
  Str.all Chars.is_decimal frac2 = true ->
  (dot2 = false -> frac2 = EmptyString) ->
  is_unit_word u1 -> is_unit_word u2 ->
  first_is Chars.is_word post = false ->
  Re.search Re.sizes
    (pre ++ number_text int1 frac1 dot1 ++ " " ++ u1 ++ " / "
     ++ number_text int2 frac2 dot2 ++ " " ++ u2 ++ post)
  = Some [(4%nat, u2); (3%nat, number_text int2 frac2 dot2);
          (2%nat, u1); (1%nat, number_text int1 frac1 dot1)].
Proof.
  intros Hpre N1 I1 F1 D1 N2 I2 F2 D2 W1 W2 Hp.
  rewrite search_sizes_skip by exact Hpre.
  pose proof (match_at_sizes_found int1 frac1 int2 frac2 u1 u2 post
                dot1 dot2 N1 I1 F1 D1 N2 I2 F2 D2 W1 W2 Hp) as H.
  destruct (number_text int1 frac1 dot1 ++ " " ++ u1 ++ " / "
            ++ number_text int2 frac2 dot2 ++ " " ++ u2 ++ post)%string;
    cbn [Re.search]; now rewrite H.
Qed.

(** ** Numbers *)

Lemma of_Z_1024 : Float.of_Z 1024 = f1024.
Proof. reflexivity. Qed.

Lemma is_decimal_not_dot (c : ascii) :
  Chars.is_decimal c = true -> Ascii.eqb c "." = false.
Proof.
  intros H. destruct (Ascii.eqb_spec c "."); [|reflexivity].
  subst. discriminate.
Qed.

Lemma pow10_succ (n : nat) : pow10 (S n) = (10 * pow10 n)%positive.
Proof.
  unfold pow10. rewrite Nat2Z.inj_succ, Z.pow_succ_r by lia.
  assert (0 < 10 ^ Z.of_nat n) by (apply Z.pow_pos_nonneg; lia).
  now rewrite Z2Pos.inj_mul by lia.
Qed.

Lemma pow10_Z (n : nat) : Zpos (pow10 n) = 10 ^ Z.of_nat n.
Proof.
  unfold pow10. apply Z2Pos.id. apply Z.pow_pos_nonneg; lia.
Qed.

Lemma append_empty_r (s : string) : (s ++ "")%string = s.
Proof. induction s as [|c s IH]; simpl; [reflexivity | now rewrite IH]. Qed.

(** Reading a run of digits: the value read so far moves up by as many
    places and the digits are added; past the point the scale follows. *)
Lemma scan_digits (s rest : string) (fr : bool) (acc : Z) (sc : positive) :
  Str.all Chars.is_decimal s = true ->
  Float.scan (s ++ rest) fr acc sc
  = Float.scan rest fr
      (acc * 10 ^ Z.of_nat (String.length s) + digits_value s)
      (if fr then (sc * pow10 (String.length s))%positive else sc).
Proof.
  revert acc sc. induction s as [|c s IH]; intros acc sc H.
  - cbn [append String.length digits_value]. f_equal; [cbn; lia|].
    destruct fr; [|reflexivity]. unfold pow10. cbn. lia.
  - cbn [Str.all] in H. apply andb_true_iff in H as [Hc Hs].
    change (String c s ++ rest)%string with (String c (s ++ rest)).
    cbn [Float.scan]. rewrite (is_decimal_not_dot c Hc), (IH _ _ Hs).
    f_equal.
    + cbn [digits_value String.length].
      rewrite Nat2Z.inj_succ, Z.pow_succ_r by lia. ring.
    + destruct fr; [|reflexivity]. cbn [String.length].
      rewrite pow10_succ. lia.
Qed.

Lemma digits_value_app (a b : string) :
  digits_value (a ++ b)
  = digits_value a * 10 ^ Z.of_nat (String.length b) + digits_value b.
Proof.
  induction a as [|c a IH]; [cbn [append digits_value]; lia|].
  change (String c a ++ b)%string with (String c (a ++ b)).
  cbn [digits_value]. rewrite IH, string_length_app, Nat2Z.inj_add.
  rewrite Z.pow_add_r by lia. ring.
Qed.

Lemma take_while_all (p : ascii -> bool) (s : string) :
  Str.all p s = true -> take_while p s = s.
Proof.
  induction s as [|c s IH]; [reflexivity|]. cbn [Str.all take_while].
  intros H. apply andb_true_iff in H as [-> Hs]. now rewrite IH.
Qed.

Lemma drop_while_all (p : ascii -> bool) (s : string) :
  Str.all p s = true -> drop_while p s = EmptyString.
Proof.
  induction s as [|c s IH]; [reflexivity|]. cbn [Str.all drop_while].
  intros H. apply andb_true_iff in H as [-> Hs]. now apply IH.
Qed.

Lemma take_while_app (p : ascii -> bool) (d post : string) :
  Str.all p d = true -> first_is p post = false ->
  take_while p (d ++ post) = d.
Proof.
  induction d as [|c d IH]; simpl; intros Hd Hpost.
  - destruct post as [|c post]; simpl in *; [reflexivity|].
    now rewrite Hpost.
  - apply andb_true_iff in Hd as [Hc Hd]. rewrite Hc. now rewrite IH.
Qed.

(** [float] of a matched number is the double nearest to the number the
    numeral stands for. *)
Lemma of_string_numeral (s : string) :
  is_number s -> Float.of_string s = numeral s.
Proof.
  intros (int & dot & frac & -> & Hne & Hi & Hd & Hf).
  unfold Float.of_string, numeral, decimal, before_point, after_point.
  destruct Hd as [-> | ->].
  - cbn [append].
    assert (Ha : Str.all Chars.is_decimal (int ++ frac) = true)
      by (now rewrite all_app, Hi, Hf).
    rewrite (take_while_all _ _ Ha), (drop_while_all _ _ Ha).
    rewrite <- (append_empty_r (int ++ frac)) at 1.
    rewrite (scan_digits _ _ _ _ _ Ha). cbn [Float.scan].
    rewrite append_empty_r. f_equal; lia.
  - change ("." ++ frac)%string with (String "." frac).
    rewrite (take_while_app _ int (String "." frac) Hi eq_refl).
    rewrite (drop_while_app _ int (String "." frac) Hi eq_refl).
    rewrite (scan_digits _ _ _ _ _ Hi). cbn [Float.scan Ascii.eqb Bool.eqb].
    rewrite <- (append_empty_r frac) at 1.
    rewrite (scan_digits _ _ _ _ _ Hf). cbn [Float.scan].
    rewrite digits_value_app. f_equal; lia.
Qed.


Lemma timedelta_cases (n : Z) :
  (days_in_range n /\ Time.timedelta n = Ok n)
  \/ (~ days_in_range n /\ Time.timedelta n = Raise OverflowError).
Proof.
  unfold Time.timedelta, days_in_range.
  destruct (-999999999 <=? n / 86400) eqn:A;
    destruct (n / 86400 <=? 999999999) eqn:B; cbn [andb];
    [left | right | right | right]; split; trivial; lia.
Qed.

(** *** Rounding *)

Lemma shr_1_m (mrs : shr_record) :
  0 <= shr_m mrs -> shr_m (shr_1 mrs) = shr_m mrs / 2.
Proof.
  destruct mrs as [m r s]. cbn [shr_m]. intros H.
  destruct m as [|p|p]; [reflexivity| |lia].
  destruct p as [p|p|]; cbn [shr_1 shr_m].
  - apply Z.div_unique with (r := 1); lia.
  - apply Z.div_unique with (r := 0); lia.
  - reflexivity.
Qed.

Lemma iter_pos_shr_m (k : positive) :
  forall mrs, 0 <= shr_m mrs ->
              shr_m (iter_pos shr_1 k mrs) = shr_m mrs / 2 ^ Zpos k.
Proof.
  assert (P : forall j, 0 < 2 ^ Zpos j) by (intros; apply Z.pow_pos_nonneg; lia).
  induction k as [k IH|k IH|]; intros mrs H; cbn [iter_pos].
  - assert (H1 : 0 <= shr_m (shr_1 mrs))
      by (rewrite shr_1_m by exact H; apply Z.div_pos; lia).
    assert (H2 : 0 <= shr_m (iter_pos shr_1 k (shr_1 mrs)))
      by (rewrite IH by exact H1; apply Z.div_pos; [lia | apply P]).
    rewrite (IH _ H2), (IH _ H1), (shr_1_m _ H).
    pose proof (P k).
    rewrite !Z.div_div by lia. f_equal.
    replace (Zpos k~1) with (1 + Zpos k + Zpos k) by lia.
    rewrite !Z.pow_add_r by lia. change (2 ^ 1) with 2. ring.
  - assert (H2 : 0 <= shr_m (iter_pos shr_1 k mrs))
      by (rewrite IH by exact H; apply Z.div_pos; [lia | apply P]).
    rewrite (IH _ H2), (IH _ H).
    pose proof (P k).
    rewrite !Z.div_div by lia. f_equal.
    replace (Zpos k~0) with (Zpos k + Zpos k) by lia.
    rewrite !Z.pow_add_r by lia. ring.
  - apply shr_1_m, H.
Qed.

Lemma shr_m_of_loc (m : Z) (l : location) : shr_m (shr_record_of_loc m l) = m.
Proof. destruct l as [|[]]; reflexivity. Qed.

(** The shift that brings a mantissa to the precision: the exponent
    goes up to the one the format calls for and the mantissa loses that
    many bits. *)
Lemma shr_fexp_spec (m e : Z) (l : location) :
  0 <= m ->
  let e' := Z.max e (fexp Float.prec Float.emax (Zdigits2 m + e)) in
  snd (shr_fexp Float.prec Float.emax m e l) = e'
  /\ shr_m (fst (shr_fexp Float.prec Float.emax m e l)) = m / 2 ^ (e' - e).
Proof.
  intros H. cbv zeta. unfold shr_fexp, shr.
  set (f := fexp Float.prec Float.emax (Zdigits2 m + e)).
  destruct (f - e) as [|p|p] eqn:E; cbn [fst snd].
  - replace (Z.max e f - e) with 0 by lia.
    rewrite shr_m_of_loc, Z.div_1_r. split; [lia | reflexivity].
  - replace (Z.max e f - e) with (Zpos p) by lia.
    rewrite iter_pos_shr_m by (now rewrite shr_m_of_loc).
    rewrite shr_m_of_loc. split; [lia | reflexivity].
  - replace (Z.max e f - e) with 0 by lia.
    rewrite shr_m_of_loc, Z.div_1_r. split; [lia | reflexivity].
Qed.

Lemma round_nearest_even_bounds (m : Z) (l : location) :
  m <= round_nearest_even m l <= m + 1.
Proof.
  unfold round_nearest_even. destruct l as [|[]]; try lia.
  destruct (Z.even m); lia.
Qed.

Lemma digits2_size (p : positive) : digits2_pos p = Pos.size p.
Proof. induction p as [p IH|p IH|]; cbn; now rewrite ?IH. Qed.

Lemma Zdigits2_log2 (m : Z) : 0 < m -> Zdigits2 m = Z.log2 m + 1.
Proof.
  destruct m as [|p|p]; try lia. intros _. cbn [Zdigits2].
  rewrite digits2_size. destruct p; cbn; lia.
Qed.

Lemma Zdigits2_unique (m k : Z) :
  0 < k -> 2 ^ (k - 1) <= m < 2 ^ k -> Zdigits2 m = k.
Proof.
  intros Hk H.
  assert (0 < 2 ^ (k - 1)) by (apply Z.pow_pos_nonneg; lia).
  rewrite Zdigits2_log2 by lia.
  rewrite (Z.log2_unique m (k - 1)); [lia | lia |].
  replace (Z.succ (k - 1)) with k by lia. exact H.
Qed.

Lemma Zdigits2_bounds (m : Z) :
  0 < m -> 2 ^ (Zdigits2 m - 1) <= m < 2 ^ Zdigits2 m.
Proof.
  intros H. rewrite Zdigits2_log2 by exact H.
  replace (Z.log2 m + 1 - 1) with (Z.log2 m) by lia.
  replace (Z.log2 m + 1) with (Z.succ (Z.log2 m)) by lia.
  now apply Z.log2_spec.
Qed.

(** Rounding a mantissa that is not negative gives no NaN and no
    negative number. *)
Lemma round_nonneg (mx ex : Z) (lx : location) :
  0 <= mx ->
  Float.geb (binary_round_aux Float.prec Float.emax false mx ex lx) Float.zero
  = true.
Proof.
  intros H. unfold binary_round_aux.
  destruct (shr_fexp_spec mx ex lx H) as [_ M1].
  destruct (shr_fexp Float.prec Float.emax mx ex lx) as [mrs1 e1].
  cbn [fst snd] in M1.
  assert (H1 : 0 <= shr_m mrs1).
  { rewrite M1. apply Z.div_pos; [exact H|]. apply Z.pow_pos_nonneg; lia. }
  pose proof (round_nearest_even_bounds (shr_m mrs1) (loc_of_shr_record mrs1))
    as B.
  set (m2 := round_nearest_even (shr_m mrs1) (loc_of_shr_record mrs1)) in *.
  assert (H2 : 0 <= m2) by lia.
  destruct (shr_fexp_spec m2 e1 loc_Exact H2) as [_ M2].
  destruct (shr_fexp Float.prec Float.emax m2 e1 loc_Exact) as [mrs2 e2].
  cbn [fst snd] in M2.
  assert (H3 : 0 <= shr_m mrs2).
  { rewrite M2. apply Z.div_pos; [exact H2|]. apply Z.pow_pos_nonneg; lia. }
  destruct (shr_m mrs2) as [|p|p]; [reflexivity| |lia].
  destruct (e2 <=? Float.emax - Float.prec); reflexivity.
Qed.

(** Rounding a mantissa of 53 or 54 bits with an exponent far from the
    limits gives a finite number that is not zero. *)
Lemma round_normal (sx : bool) (mx ex : Z) (lx : location) :
  2 ^ 52 <= mx < 2 ^ 54 -> -1000 <= ex <= 900 ->
  exists m e,
    binary_round_aux Float.prec Float.emax sx mx ex lx = S754_finite sx m e.
Proof.
  intros Hm He. unfold binary_round_aux.
  assert (H : 0 <= mx) by lia.
  destruct (shr_fexp_spec mx ex lx H) as [E1 M1].
  destruct (shr_fexp Float.prec Float.emax mx ex lx) as [mrs1 e1].
  cbn [fst snd] in E1, M1. cbv zeta in E1, M1.
  assert (B1 : 2 ^ 52 <= shr_m mrs1 < 2 ^ 53 /\ e1 <= ex + 1).
  { rewrite M1. destruct (Z_lt_le_dec mx (2 ^ 53)) as [L|L].
    - rewrite (Zdigits2_unique mx 53) in * by lia.
      unfold fexp, emin, Float.prec, Float.emax in *.
      replace (Z.max ex (Z.max (53 + ex - 53) (3 - 1024 - 53)) - ex)
        with 0 by lia.
      rewrite Z.div_1_r. lia.
    - rewrite (Zdigits2_unique mx 54) in * by lia.
      unfold fexp, emin, Float.prec, Float.emax in *.
      replace (Z.max ex (Z.max (54 + ex - 53) (3 - 1024 - 53)) - ex)
        with 1 by lia.
      change (2 ^ 1) with 2. split; [|lia]. split.
      + apply Z.div_le_lower_bound; lia.
      + apply Z.div_lt_upper_bound; lia. }
  destruct B1 as [B1 Le1].
  pose proof (round_nearest_even_bounds (shr_m mrs1) (loc_of_shr_record mrs1))
    as B.
  set (m2 := round_nearest_even (shr_m mrs1) (loc_of_shr_record mrs1)) in *.
  assert (H2 : 0 <= m2) by lia.
  destruct (shr_fexp_spec m2 e1 loc_Exact H2) as [E2 M2].
  destruct (shr_fexp Float.prec Float.emax m2 e1 loc_Exact) as [mrs2 e2].
  cbn [fst snd] in E2, M2. cbv zeta in E2, M2.
  assert (B2 : 0 < shr_m mrs2 /\ e2 <= e1 + 1).
  { rewrite M2. destruct (Z_lt_le_dec m2 (2 ^ 53)) as [L|L].
    - rewrite (Zdigits2_unique m2 53) in * by lia.
      unfold fexp, emin, Float.prec, Float.emax in *.
      replace (Z.max e1 (Z.max (53 + e1 - 53) (3 - 1024 - 53)) - e1)
        with 0 by lia.
      rewrite Z.div_1_r. lia.
    - rewrite (Zdigits2_unique m2 54) in * by lia.
      unfold fexp, emin, Float.prec, Float.emax in *.
      replace (Z.max e1 (Z.max (54 + e1 - 53) (3 - 1024 - 53)) - e1)
        with 1 by lia.
      change (2 ^ 1) with 2. split; [|lia].
      apply Z.lt_le_trans with (2 ^ 52); [lia|].
      apply Z.div_le_lower_bound; lia. }
  destruct B2 as [B2 Le2].
  destruct (shr_m mrs2) as [|p|p]; try lia.
  replace (e2 <=? Float.emax - Float.prec) with true
    by (symmetry; apply Z.leb_le; unfold Float.emax, Float.prec; lia).
  now exists p, e2.
Qed.

(** The seconds of a positive duration between two dates: a finite
    positive double. *)
Lemma total_seconds_positive (us : Z) :
  0 < us <= Time.max_micros ->
  exists m e, Time.total_seconds us = S754_finite false m e.
Proof.
  intros [H0 H1]. destruct us as [|p|p]; try lia.
  unfold Time.total_seconds, Float.of_ratio, SFdiv_core_binary.
  change (Zdigits2 1000000) with 20.
  pose proof (Zdigits2_bounds (Zpos p) H0) as B.
  set (d1 := Zdigits2 (Zpos p)) in *.
  assert (D : 1 <= d1 <= 59).
  { split.
    - destruct (Z_lt_le_dec d1 1) as [L|L]; [|exact L]. exfalso.
      assert (2 ^ d1 <= 2 ^ 0)
        by (destruct (Z_lt_le_dec d1 0);
            [rewrite Z.pow_neg_r by lia; cbn; lia
            | apply Z.pow_le_mono_r; lia]).
      cbn in *. lia.
    - destruct (Z_lt_le_dec 59 d1) as [L|L]; [|exact L]. exfalso.
      assert (2 ^ 59 <= 2 ^ (d1 - 1)) by (apply Z.pow_le_mono_r; lia).
      unfold Time.max_micros in H1. change (2 ^ 59) with 576460752303423488 in *.
      lia. }
  unfold fexp, emin, Float.prec, Float.emax.
  replace (Z.min (Z.max (d1 + 0 - (20 + 0) - 53) (3 - 1024 - 53)) (0 - 0))
    with (d1 - 73) by lia.
  replace (0 - 0 - (d1 - 73)) with (73 - d1) by lia.
  destruct (73 - d1) as [|s|s] eqn:Es; try lia.
  rewrite Z.shiftl_mul_pow2 by lia. rewrite <- Es.
  assert (M : 2 ^ 72 <= Zpos p * 2 ^ (73 - d1) < 2 ^ 73).
  { assert (A1 : 2 ^ (d1 - 1) * 2 ^ (73 - d1) = 2 ^ 72)
      by (rewrite <- Z.pow_add_r by lia; f_equal; lia).
    assert (A2 : 2 ^ d1 * 2 ^ (73 - d1) = 2 ^ 73)
      by (rewrite <- Z.pow_add_r by lia; f_equal; lia).
    assert (P : 0 < 2 ^ (73 - d1)) by (apply Z.pow_pos_nonneg; lia).
    rewrite <- A1, <- A2. split.
    - apply Z.mul_le_mono_nonneg_r; lia.
    - apply Z.mul_lt_mono_pos_r; lia. }
  set (m' := Zpos p * 2 ^ (73 - d1)) in *.
  assert (Q : fst (Z.div_eucl m' 1000000) = m' / 1000000) by reflexivity.
  destruct (Z.div_eucl m' 1000000) as [q r]. cbn [fst] in Q. subst q.
  fold Float.prec Float.emax.
  apply round_normal; [|lia].
  change (2 ^ 72) with 4722366482869645213696 in M.
  change (2 ^ 73) with 9444732965739290427392 in M.
  change (2 ^ 52) with 4503599627370496.
  change (2 ^ 54) with 18014398509481984.
  split.
  - apply Z.div_le_lower_bound; lia.
  - apply Z.div_lt_upper_bound; lia.
Qed.

Lemma round_negative_not_gt (mx ex : Z) (lx : location) :
  Float.gtb (binary_round_aux Float.prec Float.emax true mx ex lx) Float.zero
  = false.
Proof.
  unfold binary_round_aux.
  destruct (shr_fexp Float.prec Float.emax mx ex lx) as [mrs1 e1].
  destruct (shr_fexp _ _ _ _ _) as [mrs2 e2].
  destruct (shr_m mrs2); try reflexivity.
  destruct (e2 <=? _); reflexivity.
Qed.

Lemma total_seconds_not_positive (us : Z) :
  us <= 0 -> Float.gtb (Time.total_seconds us) Float.zero = false.
Proof.
  intros H. destruct us as [|p|p]; try lia; [reflexivity|].
  unfold Time.total_seconds, Float.of_ratio.
  destruct (SFdiv_core_binary _ _ _ _ _ _) as [[q e] l].
  apply round_negative_not_gt.
Qed.

(** The doubles that are not negative: a zero, a positive number, the
    positive infinity. *)
Lemma geb_zero_cases (x : spec_float) :
  Float.geb x Float.zero = true <->
  (exists s, x = S754_zero s) \/ (exists m e, x = S754_finite false m e)
  \/ x = S754_infinity false.
Proof.
  split.
  - destruct x as [s|[]| |[] m e]; try discriminate; intros _; eauto.
  - intros [[s ->] | [(m & e & ->) | ->]]; reflexivity.
Qed.

Lemma of_ratio_nonneg (n : Z) (d : positive) :
  0 <= n -> Float.geb (Float.of_ratio n d) Float.zero = true.
Proof.
  intros H. destruct n as [|p|p]; try lia; [reflexivity|].
  unfold Float.of_ratio, SFdiv_core_binary.
  set (m' := match _ with Zpos _ => _ | Z0 => _ | Zneg _ => _ end).
  assert (M : 0 <= m').
  { unfold m'. destruct (_ - _) as [|s|s]; try lia.
    rewrite Z.shiftl_mul_pow2 by lia.
    apply Z.mul_nonneg_nonneg; [lia|]. apply Z.pow_nonneg. lia. }
  assert (Q : fst (Z.div_eucl m' (Zpos d)) = m' / Zpos d) by reflexivity.
  destruct (Z.div_eucl m' (Zpos d)) as [q r]. cbn [fst] in Q. subst q.
  apply round_nonneg. apply Z.div_pos; lia.
Qed.

Lemma div_nonneg (x : spec_float) (m : positive) (e : Z) :
  Float.geb x Float.zero = true ->
  Float.geb (Float.div x (S754_finite false m e)) Float.zero = true.
Proof.
  intros H. apply geb_zero_cases in H as [[s ->] | [(mx & ex & ->) | ->]];
    try reflexivity.
  unfold Float.div, SFdiv, SFdiv_core_binary.
  set (m' := match _ with Zpos _ => _ | Z0 => _ | Zneg _ => _ end).
  assert (M : 0 <= m').
  { unfold m'. destruct (_ - _) as [|s|s]; try lia.
    rewrite Z.shiftl_mul_pow2 by lia.
    apply Z.mul_nonneg_nonneg; [lia|]. apply Z.pow_nonneg. lia. }
  assert (Q : fst (Z.div_eucl m' (Zpos m)) = m' / Zpos m) by reflexivity.
  destruct (Z.div_eucl m' (Zpos m)) as [q r]. cbn [fst] in Q. subst q.
  cbn [xorb]. apply round_nonneg. apply Z.div_pos; lia.
Qed.

Lemma mul_nonneg (x : spec_float) (m : positive) (e : Z) :
  Float.geb x Float.zero = true ->
  Float.geb (Float.mul x (S754_finite false m e)) Float.zero = true.
Proof.
  intros H. apply geb_zero_cases in H as [[s ->] | [(mx & ex & ->) | ->]];
    try reflexivity.
  unfold Float.mul, SFmul. cbn [xorb]. apply round_nonneg. lia.
Qed.

Lemma diff_range (now t0 : datetime) :
  - Time.max_micros <= Time.diff now t0 <= Time.max_micros.
Proof.
  destruct now as [a Ha], t0 as [b Hb]. unfold Time.diff, Time.in_range in *.
  cbn [Time.micros]. apply andb_true_iff in Ha as [A1 A2].
  apply andb_true_iff in Hb as [B1 B2].
  apply Z.leb_le in A1, A2, B1, B2. lia.
Qed.

(** The seconds elapsed between two dates are a finite double, and
    positive as a double exactly when the later date comes second. *)
Lemma elapsed_positive (now t0 : datetime) :
  0 < Time.diff now t0 ->
  exists m e,
    Time.total_seconds (Time.diff now t0) = S754_finite false m e.
Proof.
  intros H. apply total_seconds_positive.
  pose proof (diff_range now t0). lia.
Qed.

Lemma elapsed_gtb (now t0 : datetime) :
  Float.gtb (Time.total_seconds (Time.diff now t0)) Float.zero = true
  <-> 0 < Time.diff now t0.
Proof.
  split.
  - intros H. destruct (Z_lt_le_dec 0 (Time.diff now t0)) as [L|L]; [exact L|].
    rewrite (total_seconds_not_positive _ L) in H. discriminate.
  - intros H. destruct (elapsed_positive now t0 H) as (m & e & ->).
    reflexivity.
Qed.

(** ** Progress parser *)

Lemma to_MB_megabytes (value : spec_float) (unit : string) :
  megabytes value unit (to_MB value unit).
Proof.
  unfold megabytes, to_MB. rewrite of_Z_1024.
  split; [|split].
  - intros ->. reflexivity.
  - intros ->. reflexivity.
  - intros N1 N2.
    destruct (String.eqb_spec unit "KB"); [contradiction|].
    destruct (String.eqb_spec unit "GB"); [contradiction|]. reflexivity.
Qed.

Lemma update_sizes_sizes (now : datetime) (cur tot : spec_float)
      (d : Download) :
  current_size (fst (update_sizes now cur tot d)) = cur
  /\ total_size (fst (update_sizes now cur tot d)) = tot.
Proof.
  destruct d as [g pr st [t0|] c t sp r l]; unfold update_sizes;
    cbn [start_time set_sizes]; [|now cbn].
  destruct (Float.gtb _ _); [|now cbn].
  cbn [speed set_speed]. destruct (Float.gtb _ _); [|now cbn].
  destruct (Float.to_int _); [|now cbn].
  destruct (Time.timedelta _); now cbn.
Qed.

(** What a search returns is the match at the first position that has
    one. *)
Lemma search_match_at (r : Re.regex) (s : string) (m : Re.captures) :
  Re.search r s = Some m ->
  exists pre rest,
    s = (pre ++ rest)%string /\ Re.match_at r rest = Some m
    /\ leftmost r pre s.
Proof.
  unfold leftmost. induction s as [|c s IH]; cbn [Re.search].
  - destruct (Re.match_at r "") as [m'|] eqn:E; [|discriminate].
    intros H. injection H as ->. exists EmptyString, EmptyString.
    split; [reflexivity|]. split; [exact E|].
    intros pre1 rest1 _ L. cbn in L. lia.
  - destruct (Re.match_at r (String c s)) as [m'|] eqn:E.
    + intros H. injection H as ->. exists EmptyString, (String c s).
      split; [reflexivity|]. split; [exact E|].
      intros pre1 rest1 _ L. cbn in L. lia.
    + intros H. destruct (IH H) as (pre & rest & Hs & M & Lm).
      exists (String c pre), rest. split; [cbn; now rewrite <- Hs|].
      split; [exact M|].
      intros pre1 rest1 H1 L. destruct pre1 as [|c1 pre1].
      * cbn in H1. now rewrite <- H1.
      * cbn in H1, L. injection H1 as _ H1.
        apply (Lm pre1 rest1 H1). lia.
Qed.

(** A word at the end of a pattern takes the whole run of word
    characters. *)
Lemma group_plus_last (p : ascii -> bool) (n : nat) (s : string)
      (caps res : Re.captures) :
  Re.match_here (Re.Group n (Re.Plus p)) s caps (fun _ c => Some c)
  = Some res ->
  exists u post,
    s = (u ++ post)%string /\ u <> EmptyString /\ Str.all p u = true
    /\ first_is p post = false /\ res = (n, u) :: caps.
Proof.
  rewrite match_here_group. cbn [Re.match_here].
  destruct s as [|c s]; [discriminate|].
  destruct (p c) eqn:Hc; [|discriminate].
  rewrite (star_from_total p
             (fun rest => (n, Str.consumed (String c s) rest) :: caps)).
  intros H. injection H as <-.
  exists (String c (take_while p s)), (drop_while p s).
  split; [simpl; now rewrite take_drop|].
  split; [discriminate|].
  split; [simpl; now rewrite Hc, all_take_while|].
  split; [apply first_drop_while|].
  do 2 f_equal.
  rewrite <- (take_drop p s) at 1.
  change (String c (take_while p s ++ drop_while p s))%string
    with (String c (take_while p s) ++ drop_while p s)%string.
  apply consumed_app.
Qed.

Lemma lang_sizes_head (s : string) (m : Re.captures) :
  lang sizes_head s m ->
  exists n1 u1 n2,
    s = (n1 ++ " " ++ u1 ++ " / " ++ n2 ++ " ")%string
    /\ is_number n1 /\ is_unit_word u1 /\ is_number n2
    /\ m = [(3%nat, n2); (2%nat, u1); (1%nat, n1)].
Proof.
  unfold sizes_head. cbn [Re.lits]. intros H.
  repeat match goal with
         | L : lang (Re.Cat _ _) _ _ |- _ => inversion L; subst; clear L
         | L : lang (Re.Lit _) _ _ |- _ => inversion L; subst; clear L
         | L : lang (Re.Group _ _) _ _ |- _ => inversion L; subst; clear L
         | L : lang (Re.Plus _) _ _ |- _ => inversion L; subst; clear L
         | L : lang Re.number _ _ |- _ => apply lang_number in L as [? ->]
         end.
  match goal with
  | |- exists n1 u1 n2,
        (?a ++ " " ++ ?b ++ _ ++ _ ++ _ ++ ?c ++ " ")%string = _ /\ _ =>
      exists a, b, c
  end.
  repeat split; trivial.
Qed.

(** A match of the size pattern at the start of a text: number, word,
    slash, number and the whole word after it. *)
Lemma match_at_sizes_sound (s : string) (m : Re.captures) :
  Re.match_at Re.sizes s = Some m ->
  exists n1 u1 n2 u2 post,
    s = (n1 ++ " " ++ u1 ++ " / " ++ n2 ++ " " ++ u2 ++ post)%string
    /\ is_number n1 /\ is_unit_word u1 /\ is_number n2 /\ is_unit_word u2
    /\ first_is Chars.is_word post = false
    /\ m = [(4%nat, u2); (3%nat, n2); (2%nat, u1); (1%nat, n1)].
Proof.
  unfold Re.match_at. intros H.
  change (Re.match_here
            (Re.Cat sizes_head (Re.Group 4 (Re.Plus Chars.is_word)))
            s [] (fun _ caps => Some caps) = Some m) in H.
  rewrite match_here_cat in H.
  apply match_here_sound in H as (s1 & s2 & c1 & -> & L & H).
  apply lang_sizes_head in L as (n1 & u1 & n2 & -> & N1 & U1 & N2 & ->).
  apply group_plus_last in H as (u2 & post & -> & Hne & Hu & Hp & ->).
  exists n1, u1, n2, u2, post.
  split; [now rewrite !app_assoc_s|].
  repeat split; trivial; apply U1.
Qed.

Lemma search_sizes_sound (line : string) (m : Re.captures) :
  Re.search Re.sizes line = Some m ->
  exists pre n1 u1 n2 u2 post,
    line = (pre ++ n1 ++ " " ++ u1 ++ " / " ++ n2 ++ " " ++ u2 ++ post)%string
    /\ leftmost Re.sizes pre line
    /\ is_number n1 /\ is_unit_word u1 /\ is_number n2 /\ is_unit_word u2
    /\ first_is Chars.is_word post = false
    /\ m = [(4%nat, u2); (3%nat, n2); (2%nat, u1); (1%nat, n1)].
Proof.
  intros H. apply search_match_at in H as (pre & rest & E & H & L).
  apply match_at_sizes_sound in H
    as (n1 & u1 & n2 & u2 & post & -> & H).
  exists pre, n1, u1, n2, u2, post. split; [exact E|]. now split.
Qed.

Lemma is_number_text (int frac : string) (dotted : bool) :
  int <> EmptyString -> Str.all Chars.is_decimal int = true ->
  Str.all Chars.is_decimal frac = true ->
  is_number (number_text int frac dotted).
Proof.
  intros N I F. unfold number_text. destruct dotted.
  - exists int, ".", frac. repeat split; trivial. now right.
  - exists int, EmptyString, EmptyString. repeat split; trivial. now left.
Qed.

Lemma numeral_number_text (int frac : string) (dotted : bool) :
  Str.all Chars.is_decimal int = true ->
  (dotted = false -> frac = EmptyString) ->
  numeral (number_text int frac dotted) = decimal int frac.
Proof.
  intros I D. unfold numeral, number_text, before_point, after_point.
  destruct dotted.
  - change ("." ++ frac)%string with (String "." frac).
    rewrite (take_while_app _ int (String "." frac) I eq_refl).
    now rewrite (drop_while_app _ int (String "." frac) I eq_refl).
  - rewrite (D eq_refl), append_empty_r.
    now rewrite (take_while_all _ _ I), (drop_while_all _ _ I).
Qed.

(** What the parser stores for a match of the size pattern. *)
Lemma parse_line_sizes (now : datetime) (line : string) (d : Download)
      (n1 u1 n2 u2 : string) :
  Re.search Re.sizes line
  = Some [(4%nat, u2); (3%nat, n2); (2%nat, u1); (1%nat, n1)] ->
  is_number n1 -> is_number n2 ->
  megabytes (numeral n1) u1 (current_size (fst (parse_line now line d)))
  /\ megabytes (numeral n2) u2 (total_size (fst (parse_line now line d))).
Proof.
  intros Hm N1 N2. unfold parse_line. rewrite Hm.
  match goal with
  | |- context [update_sizes ?n ?c ?t ?x] =>
      destruct (update_sizes_sizes n c t x) as [-> ->]
  end.
  cbn [Re.group Nat.eqb].
  rewrite (of_string_numeral _ N1), (of_string_numeral _ N2).
  split; apply to_MB_megabytes.
Qed.

(** C4, as the code has it.  When the size pattern matches in a line,
    the match taken is an expression number, word, slash, number, word
    that stands in the line, no match beginning before it, the second
    word being the whole run of word characters; the parser stores the doubles nearest to the two
    numbers, divided by 1024 when the word is KB, multiplied by 1024
    when it is GB, as they are for MB and any other word.  A line made
    of a text without digits, such an expression and a rest that does
    not go on with a word character is a line in which the pattern
    matches that expression.  The sizes of 2048 KB / 3 GB are stored as
    2 and 3072, those of 45.30 MB / 362.10 MB as the doubles nearest to
    45.3 and 362.1. *)
Theorem parse_sizes_in_megabytes :
  (forall now line d m,
      Re.search Re.sizes line = Some m ->
      let d' := fst (parse_line now line d) in
      exists pre n1 u1 n2 u2 post,
        line = (pre ++ n1 ++ " " ++ u1 ++ " / " ++ n2 ++ " " ++ u2
                ++ post)%string
        /\ leftmost Re.sizes pre line
        /\ is_number n1 /\ is_unit_word u1
        /\ is_number n2 /\ is_unit_word u2
        /\ first_is Chars.is_word post = false
        /\ megabytes (numeral n1) u1 (current_size d')
        /\ megabytes (numeral n2) u2 (total_size d'))
  /\ (forall now d pre int1 frac1 dot1 u1 int2 frac2 dot2 u2 post,
         Str.all no_decimal pre = true ->
         int1 <> EmptyString -> Str.all Chars.is_decimal int1 = true ->
         Str.all Chars.is_decimal frac1 = true ->
         (dot1 = false -> frac1 = EmptyString) ->
         int2 <> EmptyString -> Str.all Chars.is_decimal int2 = true ->
         Str.all Chars.is_decimal frac2 = true ->
         (dot2 = false -> frac2 = EmptyString) ->
         is_unit_word u1 -> is_unit_word u2 ->
         first_is Chars.is_word post = false ->
         let n1 := number_text int1 frac1 dot1 in
         let n2 := number_text int2 frac2 dot2 in
         let d' :=
           fst (parse_line now
                  (pre ++ n1 ++ " " ++ u1 ++ " / " ++ n2 ++ " " ++ u2 ++ post)
                  d) in
         megabytes (decimal int1 frac1) u1 (current_size d')
         /\ megabytes (decimal int2 frac2) u2 (total_size d'))
  /\ (forall now d,
         let d' := fst (parse_line now "2048 KB / 3 GB" d) in
         current_size d' = S754_finite false 4503599627370496 (-51)
         /\ total_size d' = S754_finite false 6755399441055744 (-41))
  /\ (forall now d,
         let d' := fst (parse_line now "45.30 MB / 362.10 MB" d) in
         current_size d' = S754_finite false 6375408222496358 (-47)
         /\ total_size d' = S754_finite false 6370130566683034 (-44)).
Proof.
  split; [|split; [|split]].
  - intros now line d m Hm. cbv zeta.
    destruct (search_sizes_sound _ _ Hm)
      as (pre & n1 & u1 & n2 & u2 & post & E & L & N1 & U1 & N2 & U2 & P & ->).
    exists pre, n1, u1, n2, u2, post.
    destruct (parse_line_sizes now line d n1 u1 n2 u2 Hm N1 N2) as [A B].
    exact (conj E (conj L (conj N1 (conj U1 (conj N2 (conj U2
             (conj P (conj A B)))))))).
  - intros now d pre int1 frac1 dot1 u1 int2 frac2 dot2 u2 post
           Hpre N1 I1 F1 D1 N2 I2 F2 D2 K1 K2 Hp. cbv zeta.
    rewrite <- (numeral_number_text int1 frac1 dot1 I1 D1).
    rewrite <- (numeral_number_text int2 frac2 dot2 I2 D2).
    apply parse_line_sizes.
    + now apply search_sizes_found.
    + now apply is_number_text.
    + now apply is_number_text.
  - intros now d. cbv zeta. unfold parse_line.
    replace (Re.search Re.sizes "2048 KB / 3 GB")
      with (Some [(4%nat, "GB"); (3%nat, "3"); (2%nat, "KB");
                  (1%nat, "2048")]) by (vm_compute; reflexivity).
    match goal with
    | |- context [update_sizes ?n ?c ?t ?x] =>
        destruct (update_sizes_sizes n c t x) as [-> ->]
    end.
    split; vm_compute; reflexivity.
  - intros now d. cbv zeta. unfold parse_line.
    replace (Re.search Re.sizes "45.30 MB / 362.10 MB")
      with (Some [(4%nat, "MB"); (3%nat, "362.10"); (2%nat, "MB");
                  (1%nat, "45.30")]) by (vm_compute; reflexivity).
    match goal with
    | |- context [update_sizes ?n ?c ?t ?x] =>
        destruct (update_sizes_sizes n c t x) as [-> ->]
    end.
    split; vm_compute; reflexivity.
Qed.

Lemma parse_sizes_in_megabytes_witness :
  (let d' := fst (parse_line (Time.datetime_at 10000000) "512.0 KB / 1.5 GB"
                             (session_at (Time.datetime_at 0))) in
   exists pre n1 u1 n2 u2 post,
     "512.0 KB / 1.5 GB"
     = (pre ++ n1 ++ " " ++ u1 ++ " / " ++ n2 ++ " " ++ u2 ++ post)%string
     /\ leftmost Re.sizes pre "512.0 KB / 1.5 GB"
     /\ is_number n1 /\ is_unit_word u1
     /\ is_number n2 /\ is_unit_word u2
     /\ first_is Chars.is_word post = false
     /\ megabytes (numeral n1) u1 (current_size d')
     /\ megabytes (numeral n2) u2 (total_size d'))
  /\ (let d' :=
        fst (parse_line (Time.datetime_at 10000000)
               (" downloading " ++ number_text "700" "" false ++ " " ++ "MB"
                ++ " / " ++ number_text "2" "25" true ++ " " ++ "GB" ++ ", ok")
               (session_at (Time.datetime_at 0))) in
      megabytes (decimal "700" "") "MB" (current_size d')
      /\ megabytes (decimal "2" "25") "GB" (total_size d')).
Proof.
  split.
  - apply (proj1 parse_sizes_in_megabytes (Time.datetime_at 10000000)
             "512.0 KB / 1.5 GB" (session_at (Time.datetime_at 0))
             [(4%nat, "GB"); (3%nat, "1.5"); (2%nat, "KB"); (1%nat, "512.0")]).
    reflexivity.
  - apply (proj1 (proj2 parse_sizes_in_megabytes) (Time.datetime_at 10000000)
             (session_at (Time.datetime_at 0))
             " downloading " "700" "" false "MB" "2" "25" true "GB" ", ok");
      try reflexivity; try discriminate; split; (discriminate || reflexivity).
Defined.

(** C4 as stated fails.  In a line with two expressions the parser takes
    the first, whatever its words are: the line below contains the size
    expression 45.30 MB / 362.10 MB and the sizes stored are 3 and 10.
    A word that goes on after the unit is not that unit: the line
    1 GB / 2 GBs contains the expression 1 GB / 2 GB, and the total
    stored is 2, not 2048. *)
Lemma parse_sizes_in_megabytes_counterexample :
  let now := Time.datetime_at 20000000 in
  let d := session_at (Time.datetime_at 0) in
  let line1 := "3 files / 10 files 45.30 MB / 362.10 MB" in
  let line2 := "1 GB / 2 GBs" in
  line1 = ("3 files / 10 files "
           ++ ("45.30" ++ " " ++ "MB" ++ " / " ++ "362.10" ++ " " ++ "MB")
           ++ "")%string
  /\ known_unit "MB"
  /\ current_size (fst (parse_line now line1 d))
     = S754_finite false 6755399441055744 (-51)
  /\ total_size (fst (parse_line now line1 d))
     = S754_finite false 5629499534213120 (-49)
  /\ current_size (fst (parse_line now line1 d)) <> decimal "45" "30"
  /\ total_size (fst (parse_line now line1 d)) <> decimal "362" "10"
  /\ decimal "3" "" = S754_finite false 6755399441055744 (-51)
  /\ decimal "10" "" = S754_finite false 5629499534213120 (-49)
  /\ line2 = (("1" ++ " " ++ "GB" ++ " / " ++ "2" ++ " " ++ "GB") ++ "s")%string
  /\ known_unit "GB"
  /\ current_size (fst (parse_line now line2 d))
     = SFmul 53 1024 (decimal "1" "") f1024
  /\ total_size (fst (parse_line now line2 d)) = decimal "2" ""
  /\ total_size (fst (parse_line now line2 d))
     <> SFmul 53 1024 (decimal "2" "") f1024.
Proof.
  cbv zeta.
  split; [reflexivity|]. split; [right; left; reflexivity|].
  split; [vm_compute; reflexivity|]. split; [vm_compute; reflexivity|].
  split; [vm_compute; discriminate|]. split; [vm_compute; discriminate|].
  split; [vm_compute; reflexivity|]. split; [vm_compute; reflexivity|].
  split; [reflexivity|]. split; [right; right; reflexivity|].
  split; [vm_compute; reflexivity|]. split; [vm_compute; reflexivity|].
  vm_compute; discriminate.
Qed.

(** C5, as the code has it.  A line in which neither the percentage
    pattern nor the size pattern (number, word, slash, number, word,
    whatever the two words are) matches leaves the whole session, its
    five metrics included, unchanged, and no exception leaves the
    parser; so it is for every line with neither a percent sign nor a
    slash. *)
Theorem parse_line_unmatched (now : datetime) (line : string) (d : Download) :
  (Re.search Re.percentage line = None ->
   Re.search Re.sizes line = None ->
   parse_line now line d = (d, None))
  /\ (has_char "%" line = false -> has_char "/" line = false ->
      parse_line now line d = (d, None)).
Proof.
  assert (H : Re.search Re.percentage line = None ->
              Re.search Re.sizes line = None ->
              parse_line now line d = (d, None)).
  { intros Hp Hs. unfold parse_line. now rewrite Hp, Hs. }
  split; [exact H|].
  intros Hp Hs. apply H; [now apply no_percent_sign | now apply no_slash].
Qed.

Lemma parse_line_unmatched_witness :
  parse_line (Time.datetime_at 5000000)
             "Update state (0x61) downloading, progress: 12.50"
             (session_at (Time.datetime_at 0))
  = (session_at (Time.datetime_at 0), None)
  /\ parse_line (Time.datetime_at 5000000)
                "Connecting anonymously to Steam Public...OK"
                (session_at (Time.datetime_at 0))
     = (session_at (Time.datetime_at 0), None).
Proof.
  split.
  - apply (proj1 (parse_line_unmatched _ _ _)); reflexivity.
  - apply (proj2 (parse_line_unmatched _ _ _)); reflexivity.
Defined.

(** C5 as stated fails: a line with no percentage and with a size
    expression whose units are not KB, MB or GB still changes the
    metrics, the two numbers being taken as megabytes. *)
Lemma parse_line_unmatched_counterexample :
  let line := "downloaded 3 files / 10 files" in
  let d := session_at (Time.datetime_at 0) in
  let d' := fst (parse_line (Time.datetime_at 20000000) line d) in
  Re.search Re.percentage line = None
  /\ Re.search Re.sizes line
     = Some [(4%nat, "files"); (3%nat, "10"); (2%nat, "files");
             (1%nat, "3")]
  /\ ~ known_unit "files"
  /\ current_size d' = decimal "3" ""
  /\ total_size d' = decimal "10" ""
  /\ speed d' = decimal "0" "15"
  /\ remaining_time d' = Some 46
  /\ current_size d' <> current_size d
  /\ total_size d' <> total_size d
  /\ speed d' <> speed d
  /\ remaining_time d' <> remaining_time d.
Proof.
  cbv zeta.
  split; [vm_compute; reflexivity|]. split; [vm_compute; reflexivity|].
  split; [intros [H | [H | H]]; discriminate|].
  split; [vm_compute; reflexivity|]. split; [vm_compute; reflexivity|].
  split; [vm_compute; reflexivity|]. split; [vm_compute; reflexivity|].
  repeat split; vm_compute; discriminate.
Qed.





(* ================================================================== *)
(** * Further properties of the code *)

(** ** Resolved identifiers *)

Lemma is_decimal_is_digit (c : ascii) :
  Chars.is_decimal c = true -> Chars.is_digit c = true.
Proof. unfold Chars.is_digit. now intros ->. Qed.

Lemma all_impl (p q : ascii -> bool) (s : string) :
  (forall c, p c = true -> q c = true) ->
  Str.all p s = true -> Str.all q s = true.
Proof.
  intros H. induction s as [|c s IH]; simpl; [reflexivity|].
  intros E. apply andb_true_iff in E as [Hc Hs].
  now rewrite (H c Hc), IH.
Qed.

Lemma extract_game_id_some (s d : string) :
  _extract_game_id s = Some d ->
  d <> EmptyString /\ Str.all Chars.is_digit d = true.
Proof.
  unfold _extract_game_id. destruct (Str.isdigit s) eqn:E.
  - intros H. injection H as <-. now apply isdigit_all.
  - destruct (Re.search Re.app_id s) as [m|] eqn:Em; [|discriminate].
    intros H. injection H as <-.
    destruct (search_app_id_some _ _ Em)
      as (pre & d & post & _ & Hd & Ha & _ & -> & _).
    cbn. split; [exact Hd|].
    exact (all_impl _ _ _ is_decimal_is_digit Ha).
Qed.

Lemma falsy_extract (s : string) :
  falsy (_extract_game_id s) = true <-> _extract_game_id s = None.
Proof.
  destruct (_extract_game_id s) as [d|] eqn:E; cbn.
  - destruct (extract_game_id_some _ _ E) as [Hd _].
    destruct d; [congruence|]. split; discriminate.
  - split; reflexivity.
Qed.

(** X1. An identifier the resolution returns is a non-empty string of
    digits, the resolution sends it to itself, and the test [not
    game_id] of the callers fails on it: that test fires exactly when
    the resolution returns nothing. *)
Theorem extract_game_id_stable (s d : string) :
  _extract_game_id s = Some d ->
  d <> EmptyString
  /\ Str.all Chars.is_digit d = true
  /\ _extract_game_id d = Some d
  /\ falsy (_extract_game_id s) = false.
Proof.
  intros H. destruct (extract_game_id_some _ _ H) as [Hd Ha].
  repeat split; trivial.
  - unfold _extract_game_id.
    now rewrite (proj2 (isdigit_all d) (conj Hd Ha)).
  - destruct (falsy (_extract_game_id s)) eqn:F; [|reflexivity].
    apply falsy_extract in F. congruence.
Qed.

Lemma extract_game_id_stable_witness :
  "730" <> EmptyString
  /\ Str.all Chars.is_digit "730" = true
  /\ _extract_game_id "730" = Some "730"
  /\ falsy (_extract_game_id "https://store.example.com/app/730/") = false.
Proof.
  apply (extract_game_id_stable "https://store.example.com/app/730/" "730").
  reflexivity.
Defined.

(** ** Download requests *)
Lemma falsy_some (s d : string) :
  _extract_game_id s = Some d -> falsy (Some d) = false.
Proof.
  intros H. rewrite <- H.
  destruct (falsy (_extract_game_id s)) eqn:F; [|reflexivity].
  apply falsy_extract in F. congruence.
Qed.

(** X2. A download request with an identifier the resolution accepts
    replaces the session wholesale: the session it leaves and the value
    it returns are the same whatever the downloader held before. *)
Theorem download_game_replaces_session
        (game_input username password : string) (anonymous : bool)
        (env : DownloadEnv) (self1 self2 : SteamCMDDownloader) :
  _extract_game_id game_input <> None ->
  current_download
    (fst (download_game game_input username password anonymous env self1))
  = current_download
      (fst (download_game game_input username password anonymous env self2))
  /\ snd (download_game game_input username password anonymous env self1)
     = snd (download_game game_input username password anonymous env self2).
Proof.
  intros H. destruct (_extract_game_id game_input) as [d|] eqn:E;
    [|congruence].
  unfold download_game. rewrite E, (falsy_some _ _ E).
  destruct (makedirs_error env); [now split|].
  destruct (popen_error env); [now split|].
  destruct (thread_error env); now split.
Qed.

Lemma download_game_replaces_session_witness :
  current_download
    (fst (download_game "440" "user" "secret" true sample_env started))
  = current_download
      (fst (download_game "440" "user" "secret" true sample_env
                          failed_session))
  /\ snd (download_game "440" "user" "secret" true sample_env started)
     = snd (download_game "440" "user" "secret" true sample_env
                          failed_session).
Proof.
  apply download_game_replaces_session. discriminate.
Defined.

(** X3. A download request returns True exactly when the resolution
    accepts the identifier and neither the creation of the working
    directory nor the start of the child process nor the start of the
    monitor thread raises.  The session is then downloading the resolved
    identifier from the time of the request, with every metric at zero
    and an empty log, and the downloader holds a child process that
    runs and was not asked to terminate. *)
Theorem download_game_started
        (game_input username password : string) (anonymous : bool)
        (env : DownloadEnv) (self : SteamCMDDownloader) :
  let result :=
    download_game game_input username password anonymous env self in
  ((exists message, snd result = Returned (true, message))
   <-> _extract_game_id game_input <> None
       /\ makedirs_error env = None /\ popen_error env = None
       /\ thread_error env = None)
  /\ (forall message,
         snd result = Returned (true, message) ->
         message = "Download started"
         /\ current_download (fst result)
            = mkDownload (_extract_game_id game_input) Float.zero downloading
                         (Some (request_now env))
                         Float.zero Float.zero Float.zero None []
         /\ live_process (fst result)
         /\ (exists p, process (fst result) = Some p
                       /\ terminate_sent p = false)).
Proof.
  cbv zeta. unfold download_game.
  destruct (_extract_game_id game_input) as [d|] eqn:E.
  - rewrite (falsy_some _ _ E).
    destruct (makedirs_error env) as [m|];
      [split; [split; [intros [x H]; discriminate
                      | intros (_ & H & _); discriminate]
              | intros x H; discriminate]|].
    destruct (popen_error env) as [m|];
      [split; [split; [intros [x H]; discriminate
                      | intros (_ & _ & H & _); discriminate]
              | intros x H; discriminate]|].
    destruct (thread_error env) as [m|];
      [split; [split; [intros [x H]; discriminate
                      | intros (_ & _ & _ & H); discriminate]
              | intros x H; discriminate]|].
    cbn. split.
    + split; [intros _; repeat split; discriminate | intros _; eauto].
    + intros message H. injection H as <-. repeat split.
      * eexists. split; reflexivity.
      * eexists. split; reflexivity.
  - cbn. split.
    + split; [intros [x H]; discriminate | intros [H _]; congruence].
    + intros x H. discriminate.
Qed.

Lemma download_game_started_witness :
  let result := download_game "730" "user" "secret" true sample_env __init__ in
  "Download started" = "Download started"
  /\ current_download (fst result)
     = mkDownload (_extract_game_id "730") Float.zero downloading
                  (Some (request_now sample_env))
                  Float.zero Float.zero Float.zero None []
  /\ live_process (fst result)
  /\ (exists p, process (fst result) = Some p /\ terminate_sent p = false).
Proof.
  apply (proj2 (download_game_started "730" "user" "secret" true sample_env
                  __init__)).
  reflexivity.
Defined.

(** X4. When the child process cannot be started, the request returns
    False with the message of the exception, the new session is in
    status error with that message as its only log entry, and the
    downloader keeps the process it held before: if that one is still
    running, a cancellation request reaches it, returns True and turns
    the status of the new session into cancelled. *)
Theorem download_game_spawn_failure
        (game_input username password : string) (anonymous : bool)
        (env : DownloadEnv) (self : SteamCMDDownloader) (msg : string) :
  _extract_game_id game_input <> None ->
  makedirs_error env = None ->
  popen_error env = Some msg ->
  let self' :=
    fst (download_game game_input username password anonymous env self) in
  snd (download_game game_input username password anonymous env self)
  = Returned (false, "Download error: " ++ msg)
  /\ status (current_download self') = error
  /\ log (current_download self') = ["Error: " ++ msg]
  /\ process self' = process self
  /\ (live_process self ->
      snd (cancel_download self') = true
      /\ status (current_download (fst (cancel_download self'))) = cancelled
      /\ exists p, process self = Some p
                   /\ process (fst (cancel_download self'))
                      = Some (terminate p)).
Proof.
  intros H Hm Hp. destruct (_extract_game_id game_input) as [d|] eqn:E;
    [|congruence].
  cbv zeta. unfold download_game. rewrite E, (falsy_some _ _ E), Hm, Hp.
  cbn. do 4 (split; [reflexivity|]).
  intros (p & Ep & Er). unfold cancel_download. cbn. rewrite Ep, Er. cbn.
  split; [reflexivity|]. split; [reflexivity|]. now exists p.
Qed.

Lemma download_game_spawn_failure_witness :
  let self' :=
    fst (download_game "440" "user" "secret" true no_steamcmd started) in
  snd (download_game "440" "user" "secret" true no_steamcmd started)
  = Returned (false, "Download error: "
                     ++ "[Errno 2] No such file or directory")
  /\ status (current_download self') = error
  /\ log (current_download self')
     = ["Error: " ++ "[Errno 2] No such file or directory"]
  /\ process self' = process started
  /\ (live_process started ->
      snd (cancel_download self') = true
      /\ status (current_download (fst (cancel_download self'))) = cancelled
      /\ exists p, process started = Some p
                   /\ process (fst (cancel_download self'))
                      = Some (terminate p)).
Proof.
  apply download_game_spawn_failure; [discriminate | reflexivity..].
Defined.

(** ** The command line of the child process *)

Lemma split_from_word (w rest acc : string) :
  no_space w -> split_from (w ++ rest) acc = split_from rest (acc ++ w).
Proof.
  unfold no_space. revert acc. induction w as [|c w IH]; intros acc H.
  - cbn. f_equal. clear. induction acc as [|a acc IH]; cbn; congruence.
  - cbn in H. apply andb_true_iff in H as [Hc Hw].
    unfold not_space in Hc. apply negb_true_iff in Hc.
    cbn [append split_from]. rewrite Hc, IH by exact Hw.
    now rewrite app_assoc_s.
Qed.

Lemma split_word_space (w rest : string) :
  w <> EmptyString -> no_space w ->
  split_from (w ++ String " " rest) EmptyString
  = w :: split_from rest EmptyString.
Proof.
  intros Hne Hw. rewrite split_from_word by exact Hw.
  cbn [append split_from]. change (Chars.is_space " ") with true.
  cbv iota. destruct w; [congruence | reflexivity].
Qed.

Lemma split_last_word (w : string) :
  w <> EmptyString -> no_space w -> split_from w EmptyString = [w].
Proof.
  intros Hne Hw.
  assert (E : w = (w ++ "")%string).
  { clear. induction w as [|c w IH]; cbn; congruence. }
  rewrite E at 1. rewrite split_from_word by exact Hw.
  cbn. destruct w; [congruence | reflexivity].
Qed.

Lemma is_digit_not_space (c : ascii) :
  Chars.is_digit c = true -> not_space c = true.
Proof.
  destruct c as [[] [] [] [] [] [] [] []]; cbn; congruence.
Qed.

Lemma no_space_app (a b : string) :
  no_space a -> no_space b -> no_space (a ++ b).
Proof. unfold no_space. intros Ha Hb. now rewrite all_app, Ha, Hb. Qed.

Lemma path_join_no_space (a b : string) :
  no_space a -> no_space b -> no_space (path_join a b).
Proof.
  intros Ha Hb. unfold path_join.
  destruct (prefix "/" b); [exact Hb|].
  destruct a as [|c a]; [exact Hb|].
  destruct (String.eqb _ "/").
  - now apply no_space_app.
  - apply no_space_app; [exact Ha|]. now apply (no_space_app "/" b).
Qed.

Lemma path_join_app_nonempty (a id : string) :
  path_join a ("app_" ++ id) <> EmptyString.
Proof.
  unfold path_join. cbn [append prefix].
  destruct (ascii_dec "/" "a"); [discriminate|].
  destruct a as [|c a]; [discriminate|].
  destruct (String.eqb _ "/"); discriminate.
Qed.

(** X5. The argument list of the child process.  With a games directory
    free of whitespace, an anonymous request runs SteamCMD with exactly
    +login anonymous +force_install_dir <dir> +app_update <id> validate
    +quit, where <dir> is app_<id> under the games directory, whatever
    user name and password were passed; a request with a non-empty user
    name and password free of whitespace puts these two in place of
    anonymous. *)
Theorem download_game_command_line
        (game_input username password id : string) (env : DownloadEnv)
        (self : SteamCMDDownloader) :
  _extract_game_id game_input = Some id ->
  no_space (GAMES_DIR env) ->
  makedirs_error env = None -> popen_error env = None ->
  let dir := path_join (GAMES_DIR env) ("app_" ++ id) in
  process (fst (download_game game_input username password true env self))
  = Some (mkPopen [STEAMCMD_EXE env; "+login"; "anonymous";
                   "+force_install_dir"; dir; "+app_update"; id;
                   "validate"; "+quit"] None false)
  /\ (username <> EmptyString -> no_space username ->
      password <> EmptyString -> no_space password ->
      process (fst (download_game game_input username password false env
                                  self))
      = Some (mkPopen [STEAMCMD_EXE env; "+login"; username; password;
                       "+force_install_dir"; dir; "+app_update"; id;
                       "validate"; "+quit"] None false)).
Proof.
  intros E Hg Hm Hp. cbv zeta.
  destruct (extract_game_id_some _ _ E) as [Hne Hd].
  assert (Hid : no_space id)
    by exact (all_impl _ _ _ is_digit_not_space Hd).
  set (dir := path_join (GAMES_DIR env) ("app_" ++ id)).
  assert (Hdir : no_space dir)
    by (apply path_join_no_space; [exact Hg | now apply (no_space_app "app_")]).
  assert (Hdne : dir <> EmptyString) by apply path_join_app_nonempty.
  assert (Htail :
            split_from (dir ++ String " " ("+app_update" ++ String " "
                          (id ++ String " " ("validate" ++ String " " "+quit"))))
                       EmptyString
            = [dir; "+app_update"; id; "validate"; "+quit"]).
  { rewrite split_word_space by assumption.
    rewrite split_word_space by (discriminate || reflexivity).
    rewrite split_word_space by assumption.
    rewrite split_word_space by (discriminate || reflexivity).
    now rewrite split_last_word by (discriminate || reflexivity). }
  split.
  - unfold download_game. rewrite E, (falsy_some _ _ E), Hm, Hp.
    cbn [format_game_id]. fold dir.
    assert (Hproc : forall s1 s2 : SteamCMDDownloader,
               process s1 = process s2 ->
               process (fst (match thread_error env with
                             | Some msg =>
                                 (with_download
                                    (log_append ("Error: " ++ msg))
                                    (with_download (set_status error) s1),
                                  Returned (false, "Download error: " ++ msg))
                             | None => (s1, Returned (true, "Download started"))
                             end))
               = process s2).
    { intros s1 s2 H. destruct (thread_error env); exact H. }
    cbv zeta. erewrite Hproc by reflexivity. cbn [process set_process].
    do 2 f_equal. unfold split.
    change ("+login anonymous" ++ " +force_install_dir " ++ dir
            ++ " +app_update " ++ id ++ " validate +quit")%string
      with ("+login" ++ String " " ("anonymous" ++ String " "
              ("+force_install_dir" ++ String " "
                 (dir ++ String " " ("+app_update" ++ String " "
                    (id ++ String " " ("validate" ++ String " " "+quit")))))))
           %string.
    rewrite !split_word_space by (discriminate || reflexivity).
    now rewrite Htail.
  - intros Hu Hus Hpw Hps.
    unfold download_game. rewrite E, (falsy_some _ _ E), Hm, Hp.
    cbn [format_game_id]. fold dir.
    assert (Hproc : forall s1 s2 : SteamCMDDownloader,
               process s1 = process s2 ->
               process (fst (match thread_error env with
                             | Some msg =>
                                 (with_download
                                    (log_append ("Error: " ++ msg))
                                    (with_download (set_status error) s1),
                                  Returned (false, "Download error: " ++ msg))
                             | None => (s1, Returned (true, "Download started"))
                             end))
               = process s2).
    { intros s1 s2 H. destruct (thread_error env); exact H. }
    cbv zeta. erewrite Hproc by reflexivity. cbn [process set_process].
    do 2 f_equal. unfold split.
    replace (("+login " ++ username ++ " " ++ password)
             ++ " +force_install_dir " ++ dir
             ++ " +app_update " ++ id ++ " validate +quit")%string
      with ("+login" ++ String " " (username ++ String " "
              (password ++ String " "
                 ("+force_install_dir" ++ String " "
                    (dir ++ String " " ("+app_update" ++ String " "
                       (id ++ String " "
                          ("validate" ++ String " " "+quit"))))))))%string.
    + rewrite split_word_space by (discriminate || reflexivity).
      rewrite split_word_space by assumption.
      rewrite split_word_space by assumption.
      rewrite split_word_space by (discriminate || reflexivity).
      now rewrite Htail.
    + cbn [append]. do 7 f_equal. now rewrite app_assoc_s.
Qed.

Lemma download_game_command_line_witness :
  process (fst (download_game "https://store.example.com/app/730/" "" ""
                              true sample_env __init__))
  = Some (mkPopen ["/srv/steamcmd/steamcmd.sh"; "+login"; "anonymous";
                   "+force_install_dir";
                   path_join (GAMES_DIR sample_env) ("app_" ++ "730");
                   "+app_update"; "730"; "validate"; "+quit"] None false)
  /\ process (fst (download_game "730" "user" "secret" false sample_env
                                 __init__))
     = Some (mkPopen ["/srv/steamcmd/steamcmd.sh"; "+login"; "user";
                      "secret"; "+force_install_dir";
                      path_join (GAMES_DIR sample_env) ("app_" ++ "730");
                      "+app_update"; "730"; "validate"; "+quit"] None false).
Proof.
  split.
  - apply (download_game_command_line
             "https://store.example.com/app/730/" "" "" "730" sample_env
             __init__); reflexivity.
  - apply (download_game_command_line "730" "user" "secret" "730" sample_env
             __init__); (reflexivity || discriminate).
Defined.

(** ** What the session keeps *)

Lemma create_public_links_frame (env : PublishEnv)
      (self : SteamCMDDownloader) :
  let self' := _create_public_links env self in
  game_id (current_download self') = game_id (current_download self)
  /\ start_time (current_download self') = start_time (current_download self)
  /\ status (current_download self') = status (current_download self)
  /\ progress (current_download self') = progress (current_download self)
  /\ current_size (current_download self')
     = current_size (current_download self)
  /\ total_size (current_download self') = total_size (current_download self)
  /\ speed (current_download self') = speed (current_download self)
  /\ process self' = process self.
Proof. unfold _create_public_links. destruct env; now cbn. Qed.

Lemma after_markers_identity (ev : LineEvent) (self : SteamCMDDownloader) :
  game_id (current_download (after_markers ev self))
  = game_id (current_download self)
  /\ start_time (current_download (after_markers ev self))
     = start_time (current_download self).
Proof.
  unfold after_markers. destruct (has_success (line_text ev)).
  - destruct (create_public_links_frame (line_publish ev)
                (with_download (set_progress (Float.of_Z 100))
                   (with_download (set_status completed) self)))
      as (G1 & G2 & _).
    cbv zeta in G1, G2. rewrite G1, G2. now cbn.
  - destruct (has_failure _); now cbn.
Qed.

Lemma monitor_line_identity (ev : LineEvent) (self : SteamCMDDownloader) :
  game_id (current_download (fst (monitor_line ev self)))
  = game_id (current_download self)
  /\ start_time (current_download (fst (monitor_line ev self)))
     = start_time (current_download self).
Proof.
  destruct (monitor_line_cases ev self) as [_ ->].
  destruct (parsed_frame ev self) as (_ & _ & H1 & H2 & _).
  destruct (parser_raises ev self); [now split|].
  destruct (after_markers_identity ev (parsed ev self)) as [-> ->].
  now split.
Qed.

Lemma apply_op_identity (self : SteamCMDDownloader) (op : Op) :
  is_download_op op = false ->
  game_id (current_download (apply_op self op))
  = game_id (current_download self)
  /\ start_time (current_download (apply_op self op))
     = start_time (current_download self).
Proof.
  destruct op as [g u pw a env | | ev | rc | rc];
    cbn [apply_op is_download_op]; intros H.
  - discriminate.
  - unfold cancel_download. destruct (process self) as [p|]; [|now split].
    destruct (returncode p); now split.
  - destruct (process self); [apply monitor_line_identity | now split].
  - unfold monitor_end. destruct (process self); [|now split].
    cbn [set_process current_download].
    destruct (Status_eqb _ _); now split.
  - destruct (process self); now split.
Qed.

(** X6. The identity of a session is fixed once the session has
    started: whatever cancellation requests, output lines, ends of the
    monitor loop and process exits follow, the identifier and the start
    time stay those set by the download request. *)
Theorem session_identity_kept (ops : list Op) (self : SteamCMDDownloader) :
  forallb (fun op => negb (is_download_op op)) ops = true ->
  game_id (current_download (fold_left apply_op ops self))
  = game_id (current_download self)
  /\ start_time (current_download (fold_left apply_op ops self))
     = start_time (current_download self).
Proof.
  revert self. induction ops as [|op ops IH]; intros self; [now split|].
  cbn [forallb fold_left]. intros H. apply andb_true_iff in H as [H1 H2].
  destruct (IH (apply_op self op) H2) as [-> ->].
  apply apply_op_identity. now apply negb_true_iff.
Qed.

Lemma session_identity_kept_witness :
  game_id (current_download
             (fold_left apply_op
                        [OpLine quiet_line; OpLine success_line; OpCancel;
                         OpEnd 0] started))
  = game_id (current_download started)
  /\ start_time (current_download
                   (fold_left apply_op
                              [OpLine quiet_line; OpLine success_line;
                               OpCancel; OpEnd 0] started))
     = start_time (current_download started).
Proof.
  apply session_identity_kept. reflexivity.
Defined.

(** ** The session log *)

(** What a line adds to the log: the line without surrounding
    whitespace when the parser raises on it, and otherwise the entries
    of the line. *)
Lemma monitor_line_log (ev : LineEvent) (self : SteamCMDDownloader) :
  log (current_download (fst (monitor_line ev self)))
  = (log (current_download self)
     ++ match snd (monitor_line ev self) with
        | None => line_entries ev
        | Some _ => [Str.strip (line_text ev)]
        end)%list.
Proof.
  destruct (monitor_line_cases ev self) as [-> ->].
  destruct (parsed_frame ev self) as (_ & H & _).
  destruct (parser_raises ev self); [exact H|].
  set (s1 := parsed ev self) in *. clearbody s1.
  unfold after_markers, line_entries.
  destruct (has_success (line_text ev)).
  - unfold _create_public_links. destruct (line_publish ev); cbn.
    + now rewrite H.
    + now rewrite H, <- app_assoc.
  - assert (E : log (current_download
                       (if has_failure (line_text ev)
                        then with_download (set_status error) s1 else s1))
                = log (current_download s1))
      by (destruct (has_failure _); reflexivity).
    rewrite E, H. destruct (line_publish ev); reflexivity.
Qed.

Lemma monitor_lines_log (evs : list LineEvent) (self : SteamCMDDownloader) :
  snd (monitor_lines evs self) = None ->
  log (current_download (fst (monitor_lines evs self)))
  = (log (current_download self) ++ flat_map line_entries evs)%list.
Proof.
  revert self. induction evs as [|ev evs IH]; intros self Hret.
  - cbn. now rewrite app_nil_r.
  - destruct (monitor_lines_cons_returned _ _ _ Hret) as [H1 H2].
    rewrite H2 in *. rewrite (IH _ Hret), monitor_line_log, H1.
    cbn [flat_map]. now rewrite <- app_assoc.
Qed.

(** A loop that an exception ends: the lines before the one on which the
    parser raised were handled, that line is logged, the lines after it
    are not looked at. *)
Lemma monitor_lines_raised (evs : list LineEvent) (self : SteamCMDDownloader)
      (e : Exn) :
  snd (monitor_lines evs self) = Some e ->
  exists evs1 ev evs2,
    evs = (evs1 ++ ev :: evs2)%list
    /\ snd (monitor_lines evs1 self) = None
    /\ snd (monitor_line ev (fst (monitor_lines evs1 self))) = Some e
    /\ fst (monitor_lines evs self)
       = fst (monitor_line ev (fst (monitor_lines evs1 self))).
Proof.
  revert self. induction evs as [|ev evs IH]; intros self; [discriminate|].
  rewrite monitor_lines_cons.
  destruct (snd (monitor_line ev self)) as [e'|] eqn:E.
  - cbn [fst snd]. intros H. injection H as ->.
    exists [], ev, evs. now repeat split.
  - intros H. destruct (IH _ H) as (evs1 & ev' & evs2 & -> & R1 & R2 & R3).
    exists (ev :: evs1), ev', evs2.
    rewrite !monitor_lines_cons, E. now repeat split.
Qed.

Lemma extends_refl {A} (l : list A) : extends l l.
Proof. exists []. now rewrite app_nil_r. Qed.

Lemma extends_trans {A} (l1 l2 l3 : list A) :
  extends l1 l2 -> extends l2 l3 -> extends l1 l3.
Proof.
  intros [m1 ->] [m2 ->]. exists (m1 ++ m2)%list. now rewrite app_assoc.
Qed.

Lemma apply_op_log (self : SteamCMDDownloader) (op : Op) :
  is_download_op op = false ->
  extends (log (current_download self))
          (log (current_download (apply_op self op))).
Proof.
  destruct op as [g u pw a env | | ev | rc | rc];
    cbn [apply_op is_download_op]; intros H.
  - discriminate.
  - unfold cancel_download. destruct (process self) as [p|];
      [|apply extends_refl].
    destruct (returncode p); apply extends_refl.
  - destruct (process self); [|apply extends_refl].
    rewrite monitor_line_log. now eexists.
  - unfold monitor_end. destruct (process self); [|apply extends_refl].
    cbn [set_process current_download].
    destruct (Status_eqb _ _); [|apply extends_refl].
    cbn. now eexists.
  - destruct (process self); apply extends_refl.
Qed.

(** X7. The session log is append-only between download requests:
    cancellation requests, output lines, ends of the monitor loop and
    process exits only add entries after those already there. *)
Theorem session_log_append_only (ops : list Op) (self : SteamCMDDownloader) :
  forallb (fun op => negb (is_download_op op)) ops = true ->
  extends (log (current_download self))
          (log (current_download (fold_left apply_op ops self))).
Proof.
  revert self. induction ops as [|op ops IH]; intros self;
    [intros _; apply extends_refl|].
  cbn [forallb fold_left]. intros H. apply andb_true_iff in H as [H1 H2].
  apply (extends_trans _ (log (current_download (apply_op self op)))).
  - apply apply_op_log. now apply negb_true_iff.
  - now apply IH.
Qed.

Lemma session_log_append_only_witness :
  extends (log (current_download failed_session))
          (log (current_download
                  (fold_left apply_op
                             [OpLine quiet_line; OpCancel; OpEnd 1]
                             failed_session))).
Proof.
  apply session_log_append_only. reflexivity.
Defined.

(** X8. The log a run of the monitor loop leaves.  When no exception
    ends the run: the log before the run, then for each line in turn the
    line without surrounding whitespace, followed by the report of a
    failed publication when the line carries the success marker and the
    publication raises, and at the end the entry Process ended
    unexpectedly exactly when the status after the last line is still
    downloading.  When the parser raises on a line: the log before the
    run, the entries of the lines before that one, and that line
    without surrounding whitespace; nothing of what the child wrote
    after it. *)
Theorem monitor_run_log
        (evs : list LineEvent) (rc : Z) (self self' : SteamCMDDownloader) :
  (_monitor_download_progress evs rc self = (self', None) ->
   log (current_download self')
   = (log (current_download self) ++ flat_map line_entries evs
      ++ if Status_eqb
              (status (current_download (fst (monitor_lines evs self))))
              downloading
         then ["Process ended unexpectedly"] else [])%list)
  /\ (forall e,
         process self <> None ->
         _monitor_download_progress evs rc self = (self', Some e) ->
         exists evs1 ev evs2,
           evs = (evs1 ++ ev :: evs2)%list
           /\ snd (monitor_lines evs1 self) = None
           /\ snd (monitor_line ev (fst (monitor_lines evs1 self))) = Some e
           /\ log (current_download self')
              = (log (current_download self) ++ flat_map line_entries evs1
                 ++ [Str.strip (line_text ev)])%list).
Proof.
  split.
  - intros H. apply monitor_returned in H as (Hp & Hret & ->).
    unfold monitor_end. rewrite monitor_lines_process.
    destruct (process self); [|congruence].
    cbn [set_process current_download].
    destruct (Status_eqb _ _); cbn; rewrite (monitor_lines_log _ _ Hret).
    + now rewrite <- app_assoc.
    + now rewrite app_nil_r.
  - intros e Hp H. unfold _monitor_download_progress in H.
    destruct (process self) as [p|] eqn:Ep; [|congruence].
    destruct (snd (monitor_lines evs self)) as [e'|] eqn:R.
    + destruct (monitor_lines evs self) as [s r] eqn:M. cbn [snd] in R.
      subst r. injection H as <- <-.
      destruct (monitor_lines_raised evs self e') as
          (evs1 & ev & evs2 & -> & R1 & R2 & R3); [now rewrite M|].
      exists evs1, ev, evs2. do 3 (split; [trivial|]).
      rewrite M in R3. cbn [fst] in R3. rewrite R3, monitor_line_log, R2.
      now rewrite (monitor_lines_log _ _ R1), <- app_assoc.
    + pose proof (monitor_lines_process evs self) as P.
      destruct (monitor_lines evs self) as [s r]. cbn [fst snd] in *.
      subst r.
      rewrite (surjective_pairing (monitor_end rc s)) in H.
      rewrite monitor_end_returns in H by (rewrite P, Ep; discriminate).
      discriminate.
Qed.

Lemma monitor_run_log_witness :
  exists self',
    _monitor_download_progress [quiet_line; unpublished_line] 0 started
    = (self', None)
    /\ log (current_download self')
       = (log (current_download started)
          ++ flat_map line_entries [quiet_line; unpublished_line]
          ++ if Status_eqb
                  (status (current_download
                             (fst (monitor_lines [quiet_line; unpublished_line]
                                                 started))))
                  downloading
             then ["Process ended unexpectedly"] else [])%list.
Proof.
  eexists. split; [vm_compute; reflexivity|].
  apply (proj1 (monitor_run_log [quiet_line; unpublished_line] 0 started _)).
  vm_compute. reflexivity.
Defined.

(** ** The end of the monitor loop *)

(** X9. When a run of the monitor loop has come to its end, the status
    is not downloading any more, the child process is recorded as
    exited, and a cancellation request is refused and changes nothing.
    A run that an exception ends stops short of that: the process is
    left as it was, not waited for, and the status is the one of the
    lines handled so far, downloading if it was and no line before the
    exception carried a marker. *)
Theorem monitor_finished
        (evs : list LineEvent) (rc : Z) (self self' : SteamCMDDownloader) :
  (_monitor_download_progress evs rc self = (self', None) ->
   status (current_download self') <> downloading
   /\ no_live_process self'
   /\ cancel_download self' = (self', false))
  /\ (forall e,
         _monitor_download_progress evs rc self = (self', Some e) ->
         process self' = process self
         /\ (Forall no_marker evs ->
             status (current_download self')
             = status (current_download self))).
Proof.
  split.
  - intros H. apply monitor_returned in H as (Hp & Hret & ->).
    unfold monitor_end. rewrite monitor_lines_process.
    destruct (process self) as [p|]; [|congruence].
    cbn [set_process current_download].
    assert (Hw : exists c, returncode (wait rc p) = Some c).
    { unfold wait. destruct (returncode p) eqn:E; [now exists z|].
      now exists rc. }
    destruct Hw as [c Hc].
    destruct (Status_eqb
                (status (current_download (fst (monitor_lines evs self))))
                downloading) eqn:E; cbn [fst].
    + split; [cbn; discriminate|]. split.
      * right. exists (wait rc p), c. now split.
      * unfold cancel_download. cbn. now rewrite Hc.
    + split.
      * cbn. intros N. rewrite N in E. discriminate.
      * split.
        -- right. exists (wait rc p), c. now split.
        -- unfold cancel_download. cbn. now rewrite Hc.
  - intros e H. unfold _monitor_download_progress in H.
    destruct (process self) as [p|] eqn:Ep.
    + pose proof (monitor_lines_process evs self) as P.
      pose proof (monitor_lines_no_marker evs self) as N.
      destruct (monitor_lines evs self) as [s [e'|]]; cbn [fst snd] in *.
      * injection H as <- <-. split; [congruence|].
        intros Hno. apply (N Hno).
      * rewrite (surjective_pairing (monitor_end rc s)) in H.
        rewrite monitor_end_returns in H by (rewrite P, Ep; discriminate).
        discriminate.
    + injection H as <- <-. split; [congruence | reflexivity].
Qed.

Lemma monitor_finished_witness :
  (exists self',
      _monitor_download_progress [quiet_line] 1 started = (self', None)
      /\ status (current_download self') <> downloading
      /\ no_live_process self'
      /\ cancel_download self' = (self', false))
  /\ (exists self',
         _monitor_download_progress [overflow_line; quiet_line] 1 started
         = (self', Some OverflowError)
         /\ process self' = process started
         /\ (Forall no_marker [overflow_line; quiet_line] ->
             status (current_download self')
             = status (current_download started))).
Proof.
  split.
  - eexists. split; [vm_compute; reflexivity|].
    apply (proj1 (monitor_finished [quiet_line] 1 started _)).
    vm_compute. reflexivity.
  - eexists. split; [vm_compute; reflexivity|].
    apply (proj2 (monitor_finished [overflow_line; quiet_line] 1 started _)
             OverflowError).
    vm_compute. reflexivity.
Defined.

(** X10. A cancelled download ends as cancelled.  After a cancellation
    request that reached a live child process, a monitor loop that sees
    only lines without markers and that no exception ends finishes with
    status cancelled, adds the lines to the log and no entry about an
    unexpected end, and leaves the process recorded as asked to
    terminate and exited.  If the parser raises on a line the status is
    cancelled as well, the process is asked to terminate and its exit is
    not recorded. *)
Theorem cancel_then_finish
        (evs : list LineEvent) (rc : Z) (self : SteamCMDDownloader) :
  live_process self ->
  Forall no_marker evs ->
  snd (cancel_download self) = true
  /\ (snd (monitor_lines evs (fst (cancel_download self))) = None ->
      exists self',
        _monitor_download_progress evs rc (fst (cancel_download self))
        = (self', None)
        /\ status (current_download self') = cancelled
        /\ log (current_download self')
           = (log (current_download self)
              ++ map (fun ev => Str.strip (line_text ev)) evs)%list
        /\ exists p, process self' = Some p
                     /\ terminate_sent p = true /\ returncode p = Some rc)
  /\ (forall e,
         snd (monitor_lines evs (fst (cancel_download self))) = Some e ->
         exists self',
           _monitor_download_progress evs rc (fst (cancel_download self))
           = (self', Some e)
           /\ status (current_download self') = cancelled
           /\ exists p, process self' = Some p
                        /\ terminate_sent p = true /\ returncode p = None).
Proof.
  intros (p & Hp & Hr) Hno. unfold cancel_download. rewrite Hp, Hr.
  cbn [fst snd]. split; [reflexivity|].
  set (c := with_download (set_status cancelled)
              (set_process (Some (terminate p)) self)).
  destruct (monitor_lines_no_marker evs c Hno) as (A1 & A2 & A3 & _).
  cbv zeta in *. unfold _monitor_download_progress.
  change (process c) with (Some (terminate p)).
  destruct (monitor_lines evs c) as [s r]. cbn [fst snd] in *. split.
  - intros ->. unfold monitor_end. rewrite A3.
    change (process c) with (Some (terminate p)).
    cbn [set_process current_download]. rewrite A1.
    change (status (current_download c)) with cancelled. cbn [Status_eqb].
    eexists. split; [reflexivity|]. cbn [current_download process].
    split; [exact A1|]. split; [exact (A2 eq_refl)|].
    exists (wait rc (terminate p)). split; [reflexivity|].
    unfold wait, terminate. cbn. now rewrite Hr.
  - intros e ->. eexists. split; [reflexivity|].
    split; [exact A1|]. exists (terminate p).
    split; [exact A3|]. split; [reflexivity | exact Hr].
Qed.

Lemma cancel_then_finish_witness :
  snd (cancel_download started) = true
  /\ (exists self',
         _monitor_download_progress [quiet_line] (-15)
                                    (fst (cancel_download started))
         = (self', None)
         /\ status (current_download self') = cancelled
         /\ log (current_download self')
            = (log (current_download started)
               ++ map (fun ev => Str.strip (line_text ev)) [quiet_line])%list
         /\ exists p, process self' = Some p
                      /\ terminate_sent p = true
                      /\ returncode p = Some (-15)).
Proof.
  destruct (cancel_then_finish [quiet_line] (-15) started) as (H1 & H2 & _).
  - eexists. split; reflexivity.
  - repeat constructor.
  - split; [exact H1|]. apply H2. reflexivity.
Defined.

Lemma monitor_line_marker (ev : LineEvent) (self : SteamCMDDownloader) :
  ~ no_marker ev ->
  snd (monitor_line ev self) = None ->
  status (current_download (fst (monitor_line ev self))) = marker_status ev.
Proof.
  intros H Hret. unfold marker_status.
  destruct (has_success (line_text ev)) eqn:Hs.
  - apply (monitor_line_success ev self Hs Hret).
  - destruct (has_failure (line_text ev)) eqn:Hf.
    + rewrite (monitor_line_returned _ _ Hret). unfold after_markers.
      rewrite Hs, Hf. reflexivity.
    + exfalso. apply H. now split.
Qed.

(** X11. The last marker decides.  After any sequence of lines that the
    loop handles without exception up to and including the last line
    with a marker, the status is the one called for by that line,
    completed if it has the success marker (even beside a failure
    marker) and error otherwise, whatever the status was before and
    whatever markers came earlier; the lines after it without marker
    leave that status, whether the parser raises on one of them or
    not. *)
Theorem last_marker_decides
        (evs1 evs2 : list LineEvent) (ev : LineEvent)
        (self : SteamCMDDownloader) :
  ~ no_marker ev ->
  Forall no_marker evs2 ->
  snd (monitor_lines (evs1 ++ [ev]) self) = None ->
  status (current_download (fst (monitor_lines (evs1 ++ ev :: evs2) self)))
  = marker_status ev.
Proof.
  intros Hm Hno Hret.
  replace (evs1 ++ ev :: evs2)%list with ((evs1 ++ [ev]) ++ evs2)%list
    by (now rewrite <- app_assoc).
  rewrite monitor_lines_app, Hret.
  destruct (monitor_lines_no_marker evs2
              (fst (monitor_lines (evs1 ++ [ev]) self)) Hno) as (A & _).
  cbv zeta in A. rewrite A.
  rewrite monitor_lines_app in Hret |- *.
  destruct (snd (monitor_lines evs1 self)); [discriminate|].
  rewrite monitor_lines_cons in Hret |- *.
  destruct (snd (monitor_line ev (fst (monitor_lines evs1 self)))) eqn:E;
    [discriminate|].
  cbn [monitor_lines fst]. now apply monitor_line_marker.
Qed.

Lemma last_marker_decides_witness :
  status (current_download
            (fst (monitor_lines ([success_line; failure_line] ++ mixed_line
                                 :: [quiet_line]) started)))
  = completed
  /\ status (current_download
               (fst (monitor_lines ([success_line] ++ failure_line
                                    :: [quiet_line; overflow_line; percent_line])
                                   started)))
     = error.
Proof.
  split.
  - apply (last_marker_decides [success_line; failure_line] [quiet_line]
             mixed_line started).
    + intros [H _]. discriminate.
    + repeat constructor.
    + reflexivity.
  - apply (last_marker_decides [success_line]
             [quiet_line; overflow_line; percent_line]
             failure_line started).
    + intros [_ H]. discriminate.
    + repeat constructor.
    + reflexivity.
Defined.

(** ** Metrics are never negative *)

Lemma digit_value_nonneg (c : ascii) :
  Chars.is_decimal c = true -> 0 <= Chars.digit_value c.
Proof.
  unfold Chars.is_decimal, Chars.between, Chars.digit_value.
  intros H. apply andb_true_iff in H as [H _].
  apply N.leb_le in H. lia.
Qed.

Lemma scan_nonneg (s : string) :
  forall frac acc scale,
    Str.all number_char s = true -> 0 <= acc ->
    0 <= fst (Float.scan s frac acc scale).
Proof.
  induction s as [|c s IH]; intros frac acc scale H Hacc; [exact Hacc|].
  cbn [Str.all] in H. apply andb_true_iff in H as [Hc Hs].
  cbn [Float.scan]. destruct (Ascii.eqb c ".") eqn:E.
  - now apply IH.
  - apply IH; [exact Hs|].
    unfold number_char in Hc. rewrite E, orb_false_r in Hc.
    pose proof (digit_value_nonneg c Hc). lia.
Qed.

Lemma is_number_chars (n : string) :
  is_number n -> Str.all number_char n = true.
Proof.
  intros (int & dot & frac & -> & _ & Hi & Hd & Hf).
  assert (D : forall c, Chars.is_decimal c = true -> number_char c = true)
    by (intros c H; unfold number_char; now rewrite H).
  rewrite !all_app, (all_impl _ _ _ D Hi), (all_impl _ _ _ D Hf).
  destruct Hd as [-> | ->]; reflexivity.
Qed.

Lemma of_string_nonneg (n : string) :
  is_number n -> Float.geb (Float.of_string n) Float.zero = true.
Proof.
  intros H. unfold Float.of_string.
  pose proof (scan_nonneg n false 0 1%positive (is_number_chars n H)
                (Z.le_refl 0)) as Hs.
  destruct (Float.scan n false 0 1) as [a d]. cbn [fst] in Hs.
  now apply of_ratio_nonneg.
Qed.

Lemma to_MB_nonneg (v : spec_float) (unit : string) :
  Float.geb v Float.zero = true ->
  Float.geb (to_MB v unit) Float.zero = true.
Proof.
  intros H. unfold to_MB. rewrite of_Z_1024. unfold f1024.
  destruct (String.eqb unit "KB"); [now apply div_nonneg|].
  destruct (String.eqb unit "GB"); [now apply mul_nonneg | exact H].
Qed.

Lemma update_sizes_nonneg (now : datetime) (cur tot : spec_float)
      (d : Download) :
  Float.geb cur Float.zero = true -> Float.geb tot Float.zero = true ->
  metrics_nonneg d -> metrics_nonneg (fst (update_sizes now cur tot d)).
Proof.
  intros Hc Ht (P & _ & _ & S).
  destruct d as [g pr st [t0|] c t sp r l]; unfold update_sizes;
    cbn [start_time set_sizes]; cbn in P, S; [|now repeat split].
  destruct (Float.gtb (Time.total_seconds (Time.diff now t0)) Float.zero)
    eqn:G; [|now repeat split].
  apply elapsed_gtb in G.
  destruct (elapsed_positive now t0 G) as (m & e & ->).
  cbn [speed set_speed].
  pose proof (div_nonneg cur m e Hc) as Hs.
  destruct (Float.gtb _ Float.zero); [|now repeat split].
  destruct (Float.to_int _); [|now repeat split].
  destruct (Time.timedelta _); now repeat split.
Qed.

Lemma parse_line_nonneg (now : datetime) (line : string) (d : Download) :
  metrics_nonneg d -> metrics_nonneg (fst (parse_line now line d)).
Proof.
  intros H. unfold parse_line.
  set (d1 := match Re.search Re.percentage line with
             | Some pm => set_progress (Float.of_string (Re.group 1 pm)) d
             | None => d
             end).
  assert (H1 : metrics_nonneg d1).
  { unfold d1. destruct (Re.search Re.percentage line) as [pm|] eqn:E;
      [|exact H].
    apply search_sound in E as (pre & txt & post & _ & L).
    apply lang_percentage in L as (num & _ & Hn & ->).
    destruct H as (_ & A & B & C). cbn. repeat split; trivial.
    now apply of_string_nonneg. }
  clearbody d1.
  destruct (Re.search Re.sizes line) as [m|] eqn:E; [|exact H1].
  apply search_sound in E as (pre & txt & post & _ & L).
  apply lang_sizes in L as (n1 & u1 & n2 & u2 & _ & N1 & _ & N2 & _ & ->).
  cbn [Re.group Nat.eqb].
  apply update_sizes_nonneg; trivial;
    apply to_MB_nonneg; now apply of_string_nonneg.
Qed.

Lemma monitor_line_nonneg (ev : LineEvent) (self : SteamCMDDownloader) :
  metrics_nonneg (current_download self) ->
  metrics_nonneg (current_download (fst (monitor_line ev self))).
Proof.
  intros H. destruct (monitor_line_cases ev self) as [_ ->].
  assert (H1 : metrics_nonneg (current_download (parsed ev self))).
  { unfold parsed, with_download. cbn [current_download].
    apply parse_line_nonneg. exact H. }
  destruct (parser_raises ev self); [exact H1|].
  set (s1 := parsed ev self) in *. clearbody s1.
  destruct H1 as (P & A & B & C). unfold after_markers.
  destruct (has_success (line_text ev)).
  - destruct (create_public_links_frame (line_publish ev)
                (with_download (set_progress (Float.of_Z 100))
                   (with_download (set_status completed) s1)))
      as (_ & _ & _ & G1 & G2 & G3 & G4 & _).
    cbv zeta in *. unfold metrics_nonneg. rewrite G1, G2, G3, G4. cbn.
    repeat split; trivial.
  - destruct (has_failure _); now repeat split.
Qed.

Lemma apply_op_nonneg (self : SteamCMDDownloader) (op : Op) :
  metrics_nonneg (current_download self) ->
  metrics_nonneg (current_download (apply_op self op)).
Proof.
  intros H. destruct op as [g u pw a env | | ev | rc | rc]; cbn [apply_op].
  - unfold download_game. destruct (falsy _); [exact H|].
    destruct (makedirs_error env); [now repeat split|].
    destruct (popen_error env); [now repeat split|].
    destruct (thread_error env); now repeat split.
  - unfold cancel_download. destruct (process self) as [p|]; [|exact H].
    destruct (returncode p); [exact H|]. destruct H as (P & A & B & C).
    now repeat split.
  - destruct (process self); [now apply monitor_line_nonneg | exact H].
  - unfold monitor_end. destruct (process self); [|exact H].
    cbn [set_process current_download]. destruct H as (P & A & B & C).
    destruct (Status_eqb _ _); now repeat split.
  - destruct (process self); exact H.
Qed.

(** X12. In every state a downloader can reach, the percentage, the
    two sizes and the rate are not negative.  (The remaining time can
    be, when a line announces more transferred than the total.) *)
Theorem metrics_never_negative (ops : list Op) :
  metrics_nonneg (current_download (run ops)).
Proof.
  unfold run.
  assert (H : metrics_nonneg (current_download __init__))
    by (repeat split; discriminate).
  revert H. generalize __init__ as self.
  induction ops as [|op ops IH]; intros self H; [exact H|].
  cbn [fold_left]. apply IH. now apply apply_op_nonneg.
Qed.

(** ** The published links *)

Lemma apply_op_links_wf (self : SteamCMDDownloader) (op : Op) :
  links_well_formed (public_links self) ->
  links_well_formed (public_links (apply_op self op)).
Proof.
  intros H. destruct (is_success_op op) eqn:E.
  - destruct op as [g u pw a env | | ev | rc | rc]; try discriminate.
    cbn [apply_op is_success_op] in *.
    destruct (process self); [|exact H].
    destruct (monitor_line_cases ev self) as [_ ->].
    destruct (parsed_frame ev self) as (_ & _ & _ & _ & _ & L & _).
    destruct (parser_raises ev self); [now rewrite L|].
    set (s1 := parsed ev self) in *. clearbody s1.
    unfold after_markers. rewrite E.
    unfold _create_public_links. destruct (line_publish ev).
    + right. eexists. reflexivity.
    + cbn. now rewrite L.
  - now rewrite apply_op_links.
Qed.

(** X13. In every state a downloader can reach, the links it holds are
    either none or exactly two, the directory of the published files
    and then the manifest, whose address is the address of the
    directory followed by /manifest.txt. *)
Theorem links_always_well_formed (ops : list Op) :
  links_well_formed (public_links (run ops)).
Proof.
  unfold run.
  assert (H : links_well_formed (public_links __init__)) by now left.
  revert H. generalize __init__ as self.
  induction ops as [|op ops IH]; intros self H; [exact H|].
  cbn [fold_left]. apply IH. now apply apply_op_links_wf.
Qed.

(** ** Logged lines *)

Lemma lstrip_drop (s : string) : Str.lstrip s = drop_while Chars.is_space s.
Proof.
  induction s as [|c s IH]; cbn; [reflexivity|].
  destruct (Chars.is_space c); [exact IH | reflexivity].
Qed.

Lemma rstrip_spec (s : string) :
  exists r,
    s = (Str.rstrip s ++ r)%string /\ Str.all Chars.is_space r = true
    /\ last_is Chars.is_space (Str.rstrip s) = false.
Proof.
  induction s as [|c s (r & Hs & Hr & Hl)].
  - exists EmptyString. now cbn.
  - cbn [Str.rstrip]. destruct (Str.rstrip s) as [|c' t] eqn:E.
    + cbn in Hs. subst r. destruct (Chars.is_space c) eqn:Hc.
      * exists (String c s). cbn. now rewrite Hc, Hr.
      * exists s. cbn. now rewrite Hc.
    + exists r. cbn [append]. rewrite Hs at 1. now cbn.
Qed.

Lemma rstrip_first (p : ascii -> bool) (s : string) :
  first_is p s = false -> first_is p (Str.rstrip s) = false.
Proof.
  destruct s as [|c s]; [reflexivity|]. cbn [Str.rstrip first_is].
  intros H. destruct (Str.rstrip s).
  - destruct (Chars.is_space c); [reflexivity | exact H].
  - exact H.
Qed.

Lemma strip_spec (s : string) :
  exists l r,
    s = (l ++ Str.strip s ++ r)%string
    /\ Str.all Chars.is_space l = true /\ Str.all Chars.is_space r = true
    /\ first_is Chars.is_space (Str.strip s) = false
    /\ last_is Chars.is_space (Str.strip s) = false.
Proof.
  unfold Str.strip. destruct (rstrip_spec (Str.lstrip s)) as (r & Hs & Hr & Hl).
  exists (take_while Chars.is_space s), r. repeat split.
  - rewrite <- Hs, lstrip_drop. symmetry. apply take_drop.
  - apply all_take_while.
  - exact Hr.
  - apply rstrip_first. rewrite lstrip_drop. apply first_drop_while.
  - exact Hl.
Qed.

(** X14. For every output line the monitor loop adds to the log, right
    after the entries already there, the line without its leading and
    trailing whitespace: what is cut off on both sides is whitespace
    only and the entry neither begins nor ends with whitespace.  A
    blank line is logged as an empty entry. *)
Theorem logged_line_is_stripped (ev : LineEvent) (self : SteamCMDDownloader) :
  exists entry l r more,
    log (current_download (fst (monitor_line ev self)))
    = (log (current_download self) ++ entry :: more)%list
    /\ line_text ev = (l ++ entry ++ r)%string
    /\ Str.all Chars.is_space l = true /\ Str.all Chars.is_space r = true
    /\ first_is Chars.is_space entry = false
    /\ last_is Chars.is_space entry = false
    /\ (Str.all Chars.is_space (line_text ev) = true ->
        entry = EmptyString).
Proof.
  destruct (strip_spec (line_text ev)) as (l & r & Hs & Hl & Hr & Hf & Hla).
  exists (Str.strip (line_text ev)), l, r.
  exists (match snd (monitor_line ev self) with
          | None => tl (line_entries ev)
          | Some _ => []
          end).
  split; [rewrite monitor_line_log; unfold line_entries;
          destruct (snd (monitor_line ev self)); reflexivity|].
  repeat split; trivial.
  intros Hall. rewrite Hs, !all_app in Hall.
  apply andb_true_iff in Hall as [_ Hall].
  apply andb_true_iff in Hall as [Hall _].
  destruct (Str.strip (line_text ev)) as [|c t]; [reflexivity|].
  cbn in Hall, Hf. apply andb_true_iff in Hall as [Hc _]. congruence.
Qed.

(** ** The status report *)

Lemma uint_no_dot (u : Decimal.uint) :
  has_char "." (NilEmpty.string_of_uint u) = false.
Proof. induction u; cbn; trivial. Qed.

Lemma of_Z_no_dot (z : Z) : has_char "." (Str.of_Z z) = false.
Proof.
  unfold Str.of_Z, NilZero.string_of_int, NilZero.string_of_uint.
  destruct (Z.to_int z) as [u|u]; destruct u; cbn; trivial;
    apply uint_no_dot.
Qed.

Lemma of_Z_first (z : Z) : first_is digit_or_minus (Str.of_Z z) = true.
Proof.
  unfold Str.of_Z, NilZero.string_of_int, NilZero.string_of_uint.
  destruct (Z.to_int z) as [u|u]; destruct u; reflexivity.
Qed.

Lemma zeros_no_dot (n : nat) : has_char "." (Time.zeros n) = false.
Proof. induction n; cbn; trivial. Qed.

Lemma pad_no_dot (w : nat) (z : Z) : has_char "." (Time.pad w z) = false.
Proof.
  unfold Time.pad. now rewrite has_char_app, zeros_no_dot, of_Z_no_dot.
Qed.

Lemma before_dot_has_no_dot (s : string) :
  has_char "." (Time.before_dot s) = false.
Proof.
  induction s as [|c s IH]; [reflexivity|]. cbn [Time.before_dot].
  destruct (Ascii.eqb c ".") eqn:E; [reflexivity|]. cbn [has_char].
  now rewrite Ascii.eqb_sym, E.
Qed.

Lemma before_dot_app (s x : string) :
  has_char "." s = false ->
  Time.before_dot s = s /\ Time.before_dot (s ++ "." ++ x) = s.
Proof.
  induction s as [|c s IH]; [now split|].
  cbn [has_char]. intros H. apply orb_false_iff in H as [Hc Hs].
  rewrite Ascii.eqb_sym in Hc. destruct (IH Hs) as [A B].
  change (String c s ++ "." ++ x)%string with (String c (s ++ "." ++ x)).
  cbn [Time.before_dot]. now rewrite Hc, A, B.
Qed.

Lemma first_is_app (p : ascii -> bool) (a b : string) :
  first_is p a = true -> first_is p (a ++ b) = true.
Proof. destruct a; cbn; [discriminate | trivial]. Qed.

Lemma str_unfold (micros : Z) :
  Time.str micros
  = let whole := str_whole (micros / 86400000000)
                           (micros mod 86400000000 / 1000000) in
    if micros mod 86400000000 mod 1000000 =? 0 then whole
    else (whole ++ "." ++ Time.pad 6 (micros mod 86400000000 mod 1000000))
         %string.
Proof. reflexivity. Qed.

Lemma str_whole_no_dot (days seconds : Z) :
  has_char "." (str_whole days seconds) = false.
Proof.
  unfold str_whole. cbv zeta.
  assert (H : has_char "." (Str.of_Z (seconds / 60 / 60) ++ ":"
                            ++ Time.pad 2 (seconds / 60 mod 60) ++ ":"
                            ++ Time.pad 2 (seconds mod 60)) = false).
  { rewrite !has_char_app, of_Z_no_dot, !pad_no_dot. reflexivity. }
  destruct (days =? 0); [exact H|].
  rewrite (has_char_app "." (Str.of_Z days)), of_Z_no_dot.
  rewrite (has_char_app "." " day").
  rewrite (has_char_app "." (if Z.abs days =? 1 then "" else "s")).
  rewrite (has_char_app "." ", "), H.
  destruct (Z.abs days =? 1); reflexivity.
Qed.

Lemma str_whole_first (days seconds : Z) :
  first_is digit_or_minus (str_whole days seconds) = true.
Proof.
  unfold str_whole. cbv zeta.
  destruct (days =? 0); apply first_is_app, of_Z_first.
Qed.

Lemma str_first (micros : Z) :
  first_is digit_or_minus (Time.str micros) = true.
Proof.
  rewrite str_unfold. cbv zeta.
  destruct (_ =? 0); [|apply first_is_app]; apply str_whole_first.
Qed.

Lemma before_dot_str (micros : Z) :
  Time.before_dot (Time.str micros)
  = Time.str (micros - micros mod 1000000).
Proof.
  rewrite !str_unfold. cbv zeta.
  assert (E1 : (micros - micros mod 1000000) / 86400000000
               = micros / 86400000000)
    by (Z.div_mod_to_equations; lia).
  assert (E2 : (micros - micros mod 1000000) mod 86400000000 / 1000000
               = micros mod 86400000000 / 1000000)
    by (Z.div_mod_to_equations; lia).
  assert (E3 : (micros - micros mod 1000000) mod 86400000000 mod 1000000
               = 0)
    by (Z.div_mod_to_equations; lia).
  rewrite E1, E2, E3. cbn [Z.eqb].
  destruct (before_dot_app
              (str_whole (micros / 86400000000)
                         (micros mod 86400000000 / 1000000))
              (Time.pad 6 (micros mod 86400000000 mod 1000000))
              (str_whole_no_dot _ _)) as [A B].
  destruct (_ =? 0); assumption.
Qed.

(** X15. The status report.  The elapsed time is the time since the
    start of the session cut down to whole seconds and never shows a
    fraction; the remaining time shows the placeholder calculating...
    exactly when no remaining time is known or it is zero seconds, and
    otherwise starts with a digit or a minus sign. *)
Theorem status_report_times (now : datetime) (self : SteamCMDDownloader) :
  let d := current_download self in
  let report := get_download_status now self in
  has_char "." (r_elapsed_time report) = false
  /\ (forall t0, start_time d = Some t0 ->
        r_elapsed_time report
        = Time.str (Time.diff now t0 - Time.diff now t0 mod 1000000))
  /\ (r_remaining_time report = "calculating..."
      <-> remaining_time d = None \/ remaining_time d = Some 0)
  /\ (forall n, remaining_time d = Some n -> n <> 0 ->
        r_remaining_time report = Time.str (n * 1000000)
        /\ first_is digit_or_minus (r_remaining_time report) = true).
Proof.
  cbv zeta. unfold get_download_status. cbn [r_elapsed_time r_remaining_time].
  split; [|split; [|split]].
  - destruct (start_time (current_download self));
      [apply before_dot_has_no_dot | reflexivity].
  - intros t0 ->. apply before_dot_str.
  - destruct (remaining_time (current_download self)) as [n|].
    + destruct (Z.eqb_spec n 0) as [->|N].
      * split; [now right | reflexivity].
      * split.
        -- intros H. pose proof (str_first (n * 1000000)) as F.
           rewrite H in F. discriminate.
        -- intros [H|H]; congruence.
    + split; [now left | reflexivity].
  - intros n -> N. destruct (Z.eqb_spec n 0) as [->|_]; [congruence|].
    split; [reflexivity | apply str_first].
Qed.

Lemma status_report_times_witness :
  let report :=
    get_download_status (Time.datetime_at 75500000)
      (with_download (set_remaining_time (Some 69)) started) in
  r_elapsed_time report = Time.str (74500000 - 74500000 mod 1000000)
  /\ r_remaining_time report = Time.str (69 * 1000000)
  /\ first_is digit_or_minus (r_remaining_time report) = true.
Proof.
  destruct (status_report_times (Time.datetime_at 75500000)
              (with_download (set_remaining_time (Some 69)) started))
    as (_ & H1 & _ & H2).
  split; [apply (H1 (Time.datetime_at 1000000)); reflexivity|].
  apply (H2 69); [reflexivity | discriminate].
Defined.

(** ** Login and the start of a download *)

(** X16. A login succeeds exactly when the run of SteamCMD returns and
    its standard output contains neither Login Failure nor FAILED; what
    it wrote to the standard error plays no part.  An anonymous login
    runs the command line <exe> +login anonymous +quit whatever user
    name and password are passed. *)
Theorem login_outcome
        (shell : string -> RunResult) (exe username password : string)
        (anonymous : bool) :
  let command :=
    (exe ++ " "
     ++ (if anonymous then "+login anonymous"
         else "+login " ++ username ++ " " ++ password) ++ " +quit")%string in
  (fst (login shell exe username password anonymous) = true
   <-> exists stdout stderr,
        shell command = RunOutput stdout stderr
        /\ Str.contains "Login Failure" stdout = false
        /\ Str.contains "FAILED" stdout = false)
  /\ (fst (login shell exe username password anonymous) = true ->
      snd (login shell exe username password anonymous) = "Login successful")
  /\ (forall msg, shell command = RunRaises msg ->
        login shell exe username password anonymous
        = (false, "Login error: " ++ msg))
  /\ login shell exe username password true
     = login shell exe EmptyString EmptyString true.
Proof.
  cbv zeta. unfold login, _run_steamcmd_command.
  split; [|split; [|split]].
  - destruct (shell _) as [out err|msg] eqn:E.
    + destruct (Str.contains "Login Failure" out) eqn:C1; cbn.
      * split; [discriminate|]. intros (o & e & H & H1 & _).
        injection H as <- <-. congruence.
      * destruct (Str.contains "FAILED" out) eqn:C2; cbn.
        -- split; [discriminate|]. intros (o & e & H & _ & H2).
           injection H as <- <-. congruence.
        -- split; [|reflexivity]. intros _. now exists out, err.
    + cbn. split; [discriminate|]. intros (o & e & H & _). discriminate.
  - destruct (shell _) as [out err|msg]; [|discriminate].
    destruct (_ || _); [discriminate | reflexivity].
  - intros msg ->. reflexivity.
  - reflexivity.
Qed.

Lemma login_outcome_witness :
  snd (login quiet_shell "/srv/steamcmd/steamcmd.sh" "user" "secret" false)
  = "Login successful".
Proof.
  apply (proj1 (proj2 (login_outcome quiet_shell "/srv/steamcmd/steamcmd.sh"
                         "user" "secret" false))).
  reflexivity.
Defined.

(** X17. The start of a download from the control surface touches the
    downloader only after three checks have passed.  When SteamCMD is
    not marked as installed, when the resolution rejects the identifier
    or when the login fails, the call returns a message and the
    downloader and the flag are exactly as before: no session is reset
    and no child process is started.  When the three checks pass, the
    downloader is the one [download_game] leaves and the message is the
    one it returns, Download started or a download error. *)
Theorem start_download_checks
        (username password game_input : string) (anonymous : bool)
        (shell : string -> RunResult) (env : DownloadEnv) (app : App) :
  let result :=
    start_download username password game_input anonymous shell env app in
  let logged_in :=
    fst (login shell (STEAMCMD_EXE env) username password anonymous) in
  (STEAMCMD_INSTALLED app = false \/ _extract_game_id game_input = None
   \/ logged_in = false ->
   fst result = app /\ exists message, snd result = Returned message)
  /\ (STEAMCMD_INSTALLED app = true -> _extract_game_id game_input <> None ->
      logged_in = true ->
      downloader (fst result)
      = fst (download_game game_input username password anonymous env
                           (downloader app))
      /\ STEAMCMD_INSTALLED (fst result) = true
      /\ (snd result = Returned "Download started"
          \/ (exists msg, snd result = Returned ("Download error: " ++ msg))
          \/ exists msg, snd result = Raised msg)).
Proof.
  cbv zeta. unfold start_download. split.
  - intros H. destruct (STEAMCMD_INSTALLED app); [|split; [reflexivity | eexists; reflexivity]].
    cbn [negb]. destruct (falsy (_extract_game_id game_input)) eqn:F;
      [split; [reflexivity | eexists; reflexivity]|].
    destruct (login shell (STEAMCMD_EXE env) username password anonymous)
      as [ok msg].
    destruct ok; [|split; [reflexivity | eexists; reflexivity]]. exfalso.
    destruct H as [H | [H | H]]; try discriminate.
    apply falsy_extract in H. congruence.
  - intros Hi He Hl. rewrite Hi. cbn [negb].
    destruct (falsy (_extract_game_id game_input)) eqn:F;
      [apply falsy_extract in F; congruence|].
    destruct (login shell (STEAMCMD_EXE env) username password anonymous)
      as [ok msg]. cbn in Hl. subst ok. cbn [negb].
    destruct (download_game game_input username password anonymous env
                            (downloader app)) as [self out] eqn:D.
    cbn [fst snd downloader STEAMCMD_INSTALLED].
    split; [reflexivity|]. split; [reflexivity|].
    unfold download_game in D. rewrite F in D.
    destruct (makedirs_error env);
      [injection D as _ <-; right; right; eexists; reflexivity|].
    destruct (popen_error env);
      [injection D as _ <-; right; left; eexists; reflexivity|].
    destruct (thread_error env); injection D as _ <-;
      [right; left; eexists; reflexivity | now left].
Qed.

Lemma start_download_checks_witness :
  (fst (start_download "user" "wrong" "730" false refusing_shell sample_env
                       installed_app)
   = installed_app
   /\ exists message,
       snd (start_download "user" "wrong" "730" false refusing_shell
                           sample_env installed_app)
       = Returned message)
  /\ downloader (fst (start_download "" "" "730" true quiet_shell sample_env
                                     installed_app))
     = fst (download_game "730" "" "" true sample_env
                          (downloader installed_app)).
Proof.
  split.
  - apply (proj1 (start_download_checks "user" "wrong" "730" false
                    refusing_shell sample_env installed_app)).
    right. right. reflexivity.
  - apply (proj2 (start_download_checks "" "" "730" true quiet_shell
                    sample_env installed_app));
      (reflexivity || discriminate).
Defined.

(** ** Installation *)

(** X18. An installation succeeds exactly when the download and the
    extraction of the archive go through, the executable is then found,
    and the first run of SteamCMD returns.  Its result becomes the
    installed flag whatever the flag was: after a failed installation
    every start of a download is refused with the message that SteamCMD
    is not installed, even when SteamCMD was installed before, and the
    downloader is left as it was. *)
Theorem install_sets_the_flag
        (env : InstallEnv) (shell : string -> RunResult) (exe : string)
        (app : App) :
  let app' := fst (install_steamcmd_gradio env shell exe app) in
  (install_steamcmd env shell exe = true
   <-> fetch_error env = None /\ extract_error env = None
       /\ installed_after env = true
       /\ exists stdout stderr,
           shell (exe ++ " +quit") = RunOutput stdout stderr)
  /\ STEAMCMD_INSTALLED app' = install_steamcmd env shell exe
  /\ downloader app' = downloader app
  /\ (install_steamcmd env shell exe = false ->
      forall username password game_input anonymous shell' denv,
        start_download username password game_input anonymous shell' denv
                       app'
        = (app', Returned "SteamCMD not installed. Please install it first.")).
Proof.
  cbv zeta. split; [|split; [|split]].
  - unfold install_steamcmd, _run_steamcmd_command.
    destruct (fetch_error env);
      [split; [discriminate | intros (H & _); discriminate]|].
    destruct (extract_error env);
      [split; [discriminate | intros (_ & H & _); discriminate]|].
    destruct (installed_after env); cbn [negb];
      [|split; [discriminate | intros (_ & _ & H & _); discriminate]].
    change (exe ++ " " ++ "+quit")%string with (exe ++ " +quit")%string.
    destruct (shell (exe ++ " +quit")) as [out err|msg].
    + split; [|reflexivity]. intros _. repeat split. now exists out, err.
    + split; [discriminate|]. intros (_ & _ & _ & o & e & H). discriminate.
  - reflexivity.
  - reflexivity.
  - intros H username password game_input anonymous shell' denv.
    unfold start_download, install_steamcmd_gradio.
    cbn [fst STEAMCMD_INSTALLED]. now rewrite H.
Qed.

Lemma install_sets_the_flag_witness :
  start_download "" "" "730" true quiet_shell sample_env
    (fst (install_steamcmd_gradio offline quiet_shell
                                  "/srv/steamcmd/steamcmd.sh" installed_app))
  = (fst (install_steamcmd_gradio offline quiet_shell
                                  "/srv/steamcmd/steamcmd.sh" installed_app),
     Returned "SteamCMD not installed. Please install it first.").
Proof.
  apply (proj2 (proj2 (proj2 (install_sets_the_flag offline quiet_shell
                                "/srv/steamcmd/steamcmd.sh" installed_app)))).
  reflexivity.
Defined.

(** ** The manifest *)

Lemma substring_one_has_char (c : ascii) (a : string) :
  forall n, substring n 1 a = String c EmptyString -> has_char c a = true.
Proof.
  induction a as [|x a IH]; intros n H.
  - destruct n; discriminate.
  - destruct n as [|n]; cbn [substring] in H.
    + injection H as -> _. cbn [has_char]. now rewrite Ascii.eqb_refl.
    + cbn [has_char]. rewrite (IH n H). apply orb_true_r.
Qed.

Lemma path_join_has_slash (a b : string) :
  a <> EmptyString -> prefix "/" b = false ->
  has_char "/" (path_join a b) = true.
Proof.
  intros Ha Hb. unfold path_join. rewrite Hb.
  destruct a as [|c a]; [congruence|].
  destruct (String.eqb_spec
              (substring (String.length (String c a) - 1) 1 (String c a))
              "/") as [E|_].
  - rewrite has_char_app, (substring_one_has_char _ _ _ E). reflexivity.
  - rewrite !has_char_app. cbn. now rewrite !orb_true_r.
Qed.

Lemma manifest_files_all (rel : string) (names : list string) (rest : string) :
  rel <> EmptyString ->
  Forall (fun file => prefix "/" file = false) names ->
  (manifest_files rel names ++ rest)%string
  = fold_right (fun file acc => path_join rel file ++ nl ++ acc) rest names.
Proof.
  intros Hr H. induction H as [|file names Hf _ IH]; [reflexivity|].
  cbn [manifest_files fold_right].
  destruct (String.eqb_spec (path_join rel file) "manifest.txt") as [E|_].
  - pose proof (path_join_has_slash rel file Hr Hf) as S.
    rewrite E in S. discriminate.
  - rewrite !app_assoc_s. now rewrite IH.
Qed.

(** X19. The manifest lists every file of the walk, one path a line in
    the order of the walk, and leaves none out: a path is built from the
    relative directory and the file name, so it always contains a slash
    and the test that should skip manifest.txt never skips anything.
    The manifest at the top of the game directory is listed as
    ./manifest.txt. *)
Theorem manifest_lists_every_file (walk : list WalkEntry) :
  walk_well_formed walk ->
  manifest walk = all_paths walk
  /\ forall entry file,
       In entry walk -> In file (files entry) ->
       path_join (rel_path entry) file <> "manifest.txt".
Proof.
  intros H. split.
  - induction H as [|entry walk [Hr Hf] _ IH]; [reflexivity|].
    cbn [manifest all_paths]. rewrite <- IH.
    now apply manifest_files_all.
  - intros entry file He Hfile E.
    unfold walk_well_formed in H. rewrite Forall_forall in H.
    destruct (H entry He) as [Hr Hf]. rewrite Forall_forall in Hf.
    pose proof (path_join_has_slash _ _ Hr (Hf file Hfile)) as S.
    rewrite E in S. discriminate.
Qed.

Lemma manifest_lists_every_file_witness :
  manifest sample_walk = all_paths sample_walk
  /\ manifest sample_walk
     = ("./manifest.txt" ++ nl ++ "./game.exe" ++ nl ++ "bin/data.pak" ++ nl)
       %string.
Proof.
  split.
  - apply (manifest_lists_every_file sample_walk).
    repeat constructor; discriminate.
  - reflexivity.
Defined.

(** ** The formatted status *)

Lemma download_game_not_completed
      (game_input username password : string) (anonymous : bool)
      (env : DownloadEnv) (self : SteamCMDDownloader) :
  _extract_game_id game_input <> None ->
  status (current_download
            (fst (download_game game_input username password anonymous env
                                self)))
  <> completed.
Proof.
  intros H. unfold download_game.
  destruct (falsy (_extract_game_id game_input)) eqn:F;
    [apply falsy_extract in F; congruence|].
  destruct (makedirs_error env); [discriminate|].
  destruct (popen_error env); [discriminate|].
  destruct (thread_error env); discriminate.
Qed.

(** X20. The formatted status shows links only for a completed session.
    Unless the status is completed, the text is the same whatever links
    the downloader holds, and for an idle session it is No active
    downloads; in particular, right after an accepted download request
    the links left by an earlier download, which the status report
    still carries, are not shown. *)
Theorem update_status_hides_links
        (fmt : nat -> spec_float -> string) (now : datetime) (flag : bool) :
  (forall p d links1 links2 n1 n2,
      status d <> completed ->
      update_status fmt now (mkApp (mkSelf p d links1 n1) flag)
      = update_status fmt now (mkApp (mkSelf p d links2 n2) flag))
  /\ (forall p d links n,
         status d = idle ->
         update_status fmt now (mkApp (mkSelf p d links n) flag)
         = "No active downloads")
  /\ (forall game_input username password anonymous env self,
         _extract_game_id game_input <> None ->
         let self' :=
           fst (download_game game_input username password anonymous env
                              self) in
         update_status fmt now (mkApp self' flag)
         = update_status fmt now
             (mkApp (mkSelf (process self') (current_download self') []
                            (publisher_calls self')) flag)).
Proof.
  assert (H : forall p d links1 links2 n1 n2,
             status d <> completed ->
             update_status fmt now (mkApp (mkSelf p d links1 n1) flag)
             = update_status fmt now (mkApp (mkSelf p d links2 n2) flag)).
  { intros p d links1 links2 n1 n2 Hs. unfold update_status.
    cbn [downloader get_download_status current_download public_links
         r_status r_game_id r_progress r_current_size r_total_size
         r_elapsed_time r_remaining_time r_public_links].
    destruct (status d); try reflexivity. congruence. }
  split; [exact H|]. split.
  - intros p d links n Hs. unfold update_status.
    cbn [downloader get_download_status current_download r_status].
    now rewrite Hs.
  - intros game_input username password anonymous env self He. cbv zeta.
    pose proof (download_game_not_completed game_input username password
                  anonymous env self He) as Hs.
    destruct (fst (download_game game_input username password anonymous env
                                 self)) as [p d l n].
    cbn [process current_download publisher_calls] in *.
    now apply H.
Qed.

Lemma update_status_hides_links_witness :
  let self' :=
    fst (download_game "440" "user" "secret" true sample_env
                       (fst (monitor_line success_line started))) in
  public_links self' <> []
  /\ update_status whole_part (Time.datetime_at 95000000) (mkApp self' true)
     = update_status whole_part (Time.datetime_at 95000000)
         (mkApp (mkSelf (process self') (current_download self') []
                        (publisher_calls self')) true).
Proof.
  split; [discriminate|].
  apply (proj2 (proj2 (update_status_hides_links
                         whole_part (Time.datetime_at 95000000) true))).
  discriminate.
Defined.

(** ** Publication of the links *)

(** X21. What a line with the success marker does to the links, when
    the parser does not raise on it.  When the publication goes through,
    the downloader holds the two links of the current session: the
    address RAILWAY_PUBLIC_URL (or http://localhost:7860 when it is not
    set) followed by /public/app_ and the identifier, and the manifest
    under it.  When the publication raises, the session is completed all
    the same, the log ends with the report of the failure, and the links
    are those held before, be they none or the links of an earlier
    download.  When the parser raises on the line, nothing is published:
    links and status are those held before and the line is logged. *)
Theorem success_line_links (ev : LineEvent) (self : SteamCMDDownloader) :
  has_success (line_text ev) = true ->
  let self' := fst (monitor_line ev self) in
  (snd (monitor_line ev self) = None ->
   (forall var,
       line_publish ev = PublishOk var ->
       let public_url :=
         ((match var with Some v => v | None => "http://localhost:7860" end)
          ++ "/public/app_"
          ++ format_game_id (game_id (current_download self)))%string in
       public_links self'
       = [ mkLink "Game Files Directory" public_url;
           mkLink "Game Files Manifest" (public_url ++ "/manifest.txt") ])
   /\ (forall msg,
          line_publish ev = PublishRaises msg ->
          public_links self' = public_links self
          /\ status (current_download self') = completed
          /\ log (current_download self')
             = (log (current_download self)
                ++ [Str.strip (line_text ev);
                    ("Failed to create public links: " ++ msg)%string])%list))
  /\ (forall e,
         snd (monitor_line ev self) = Some e ->
         public_links self' = public_links self
         /\ status (current_download self') = status (current_download self)
         /\ log (current_download self')
            = (log (current_download self)
               ++ [Str.strip (line_text ev)])%list).
Proof.
  intros Hs. cbv zeta. split.
  - intros Hret.
    destruct (parsed_frame ev self) as (_ & _ & G & _ & _ & L & _).
    split.
    + intros var Hp. rewrite (monitor_line_returned _ _ Hret).
      unfold after_markers. rewrite Hs.
      unfold _create_public_links. rewrite Hp.
      cbn [public_links current_download with_download game_id set_progress
           set_status].
      now rewrite G.
    + intros msg Hp. split; [|split].
      * rewrite (monitor_line_returned _ _ Hret).
        unfold after_markers. rewrite Hs.
        unfold _create_public_links. rewrite Hp. exact L.
      * apply (monitor_line_success ev self Hs Hret).
      * rewrite monitor_line_log, Hret. unfold line_entries.
        now rewrite Hp, Hs.
  - intros e Hr. rewrite monitor_line_log, Hr.
    rewrite (monitor_line_raised _ _ _ Hr).
    destruct (parsed_frame ev self) as (S & _ & _ & _ & _ & L & _).
    now repeat split.
Qed.

Lemma success_line_links_witness :
  public_links (fst (monitor_line success_line started))
  = [ mkLink "Game Files Directory"
             ("http://localhost:7860" ++ "/public/app_"
              ++ format_game_id (game_id (current_download started)));
      mkLink "Game Files Manifest"
             (("http://localhost:7860" ++ "/public/app_"
               ++ format_game_id (game_id (current_download started)))
              ++ "/manifest.txt") ]
  /\ (public_links (fst (monitor_line success_overflow_line started))
      = public_links started
      /\ status (current_download
                   (fst (monitor_line success_overflow_line started)))
         = status (current_download started)
      /\ log (current_download
                (fst (monitor_line success_overflow_line started)))
         = (log (current_download started)
            ++ [Str.strip (line_text success_overflow_line)])%list).
Proof.
  split.
  - apply (proj1 (proj1 (success_line_links success_line started eq_refl)
                        eq_refl) None).
    reflexivity.
  - apply (proj2 (success_line_links success_overflow_line started eq_refl)
             OverflowError).
    vm_compute. reflexivity.
Defined.

(** ** Status and outcome of a download request *)

(** X22. After a download request with an identifier the resolution
    accepts, the status tells how the request ended: downloading
    exactly when it returned True, error exactly when it returned
    False, and preparing exactly when an exception left it (the working
    directory could not be created). *)
Theorem download_game_status_outcome
        (game_input username password : string) (anonymous : bool)
        (env : DownloadEnv) (self : SteamCMDDownloader) :
  _extract_game_id game_input <> None ->
  let result :=
    download_game game_input username password anonymous env self in
  let st := status (current_download (fst result)) in
  (st = downloading <-> exists m, snd result = Returned (true, m))
  /\ (st = error <-> exists m, snd result = Returned (false, m))
  /\ (st = preparing <-> exists m, snd result = Raised m).
Proof.
  intros H. cbv zeta. unfold download_game.
  destruct (falsy (_extract_game_id game_input)) eqn:F;
    [apply falsy_extract in F; congruence|].
  destruct (makedirs_error env) as [m|];
    [|destruct (popen_error env) as [m|];
      [|destruct (thread_error env) as [m|]]];
    cbn; repeat split; intros; try discriminate;
      try (eexists; reflexivity);
      match goal with
      | E : exists _, _ |- _ => destruct E as [? E]; discriminate
      end.
Qed.

Lemma download_game_status_outcome_witness :
  let result :=
    download_game "440" "user" "secret" true no_games_dir started in
  let st := status (current_download (fst result)) in
  (st = downloading <-> exists m, snd result = Returned (true, m))
  /\ (st = error <-> exists m, snd result = Returned (false, m))
  /\ (st = preparing <-> exists m, snd result = Raised m).
Proof.
  apply download_game_status_outcome. discriminate.
Defined.

(** ** Cancellation from the control surface *)

(** X23. The cancel button answers Download cancelled exactly when a
    child process is live; the process is then asked to terminate and
    the session is cancelled.  Otherwise it answers No active download
    to cancel and nothing changes.  The installed flag is never
    touched. *)
Theorem cancel_current_download_answer (app : App) :
  let result := cancel_current_download app in
  (snd result = "Download cancelled" <-> live_process (downloader app))
  /\ (live_process (downloader app) ->
      status (current_download (downloader (fst result))) = cancelled
      /\ exists p, process (downloader (fst result)) = Some p
                   /\ terminate_sent p = true)
  /\ (no_live_process (downloader app) ->
      result = (app, "No active download to cancel"))
  /\ STEAMCMD_INSTALLED (fst result) = STEAMCMD_INSTALLED app.
Proof.
  cbv zeta. unfold cancel_current_download, cancel_download.
  destruct app as [self flag]. cbn [downloader STEAMCMD_INSTALLED].
  assert (Hlive : forall p, process self = Some p ->
                            live_process self -> returncode p = None).
  { intros p Ep (q & Hq & Hr). congruence. }
  destruct (process self) as [p|] eqn:Ep.
  - destruct (returncode p) as [rc|] eqn:Er; cbn [fst snd downloader
                                                   STEAMCMD_INSTALLED].
    + split; [|split; [|split]].
      * split; [discriminate|]. intros L.
        pose proof (Hlive p eq_refl L). congruence.
      * intros L. pose proof (Hlive p eq_refl L). congruence.
      * reflexivity.
      * reflexivity.
    + split; [|split; [|split]].
      * split; [|reflexivity]. intros _. now exists p.
      * intros _. split; [reflexivity|]. eexists. split; reflexivity.
      * intros [H | (q & rc & Hq & Hr)]; congruence.
      * reflexivity.
  - cbn [fst snd downloader STEAMCMD_INSTALLED].
    split; [|split; [|split]].
    + split; [discriminate|]. intros (q & Hq & _). congruence.
    + intros (q & Hq & _). congruence.
    + reflexivity.
    + reflexivity.
Qed.

Lemma cancel_current_download_answer_witness :
  status (current_download
            (downloader (fst (cancel_current_download (mkApp started true)))))
  = cancelled
  /\ cancel_current_download installed_app
     = (installed_app, "No active download to cancel").
Proof.
  split.
  - apply (proj1 (proj2 (cancel_current_download_answer
                           (mkApp started true)))).
    eexists. split; reflexivity.
  - apply (proj1 (proj2 (proj2 (cancel_current_download_answer
                                  installed_app)))).
    left. reflexivity.
Defined.

(** ** Exceptions in the monitor thread *)

Lemma update_sizes_raised (now : datetime) (cur tot : spec_float)
      (d : Download) (e : Exn) :
  snd (update_sizes now cur tot d) = Some e ->
  (exists t0, start_time d = Some t0 /\ 0 < Time.diff now t0)
  /\ (e = OverflowError \/ e = ValueError).
Proof.
  destruct d as [g pr st [t0|] c t sp r l]; unfold update_sizes;
    cbn [start_time set_sizes]; [|discriminate].
  destruct (Float.gtb (Time.total_seconds (Time.diff now t0)) Float.zero)
    eqn:G; [|discriminate].
  apply elapsed_gtb in G. cbn [speed set_speed].
  destruct (Float.gtb _ Float.zero); [|discriminate].
  destruct (Float.div (Float.sub tot cur) _) as [s | s | | s m x];
    cbn [Float.to_int].
  - destruct (timedelta_cases 0) as [[_ ->] | [_ ->]]; [discriminate|].
    intros H. injection H as <-. split; [now exists t0 | now left].
  - intros H. injection H as <-. split; [now exists t0 | now left].
  - intros H. injection H as <-. split; [now exists t0 | now right].
  - match goal with
    | |- context [Time.timedelta ?n] =>
        destruct (timedelta_cases n) as [[_ ->] | [_ ->]]
    end; [discriminate|].
    intros H. injection H as <-. split; [now exists t0 | now left].
Qed.

(** X24. What it takes for the monitor thread to die on a line: the
    size pattern matches in the line (so the line has a slash), the line
    is handled after the start of the session, and the exception is
    OverflowError or ValueError.  A line in which the size pattern does
    not match never ends the thread. *)
Theorem monitor_thread_ends
        (ev : LineEvent) (self : SteamCMDDownloader) (e : Exn) :
  snd (monitor_line ev self) = Some e ->
  Re.search Re.sizes (line_text ev) <> None
  /\ has_char "/" (line_text ev) = true
  /\ (exists t0, start_time (current_download self) = Some t0
                 /\ 0 < Time.diff (line_now ev) t0)
  /\ (e = OverflowError \/ e = ValueError).
Proof.
  destruct (monitor_line_cases ev self) as [-> _]. unfold parser_raises.
  intros H.
  assert (Hs : Re.search Re.sizes (line_text ev) <> None).
  { intros N. now rewrite (parse_line_returns _ _ _ N) in H. }
  split; [exact Hs|]. split.
  - destruct (has_char "/" (line_text ev)) eqn:C; [reflexivity|].
    now apply no_slash in C.
  - unfold parse_line in H.
    destruct (Re.search Re.sizes (line_text ev)) as [m|]; [|congruence].
    apply update_sizes_raised in H as [(t0 & Ht & Hd) He].
    split; [|exact He]. exists t0. split; [|exact Hd].
    destruct (Re.search Re.percentage (line_text ev)); exact Ht.
Qed.

Lemma monitor_thread_ends_witness :
  Re.search Re.sizes (line_text overflow_line) <> None
  /\ has_char "/" (line_text overflow_line) = true
  /\ (exists t0, start_time (current_download started) = Some t0
                 /\ 0 < Time.diff (line_now overflow_line) t0)
  /\ (OverflowError = OverflowError \/ OverflowError = ValueError).
Proof.
  apply (monitor_thread_ends overflow_line started OverflowError).
  vm_compute. reflexivity.
Defined.
